(** * XLSX cleaner: a shallow embedding of [main.py] and its properties

    The development follows the transformation engine of [main.py]
    ([normalize_header], [normalize_product_name] and [clean_excel]):
    header resolution, row extraction, per-product aggregation, the grouped
    output writer, the column widths, the summary and the name of the file
    written.  The Tkinter front end (the window, its dialogs, the worker
    thread and the gradient) and the alignment of the cells carry no logic
    of the transformation and are left out.

    The workbook is taken as openpyxl reads it: [clean_excel] gets the
    cells of the active sheet, or nothing when there is no file at the path.

    Python values are modelled as follows.
    - [str] is the list of the code points of the text, so that the order
      of texts and their length are those of Python.  The classes and
      mappings of characters ([str.strip], [str.lower], [str.isdecimal], the
      classes [\s] and [\d] of patterns) are those of the Unicode
      database 14.0.0, the one of CPython 3.11, given by their tables.
    - [int] is [Z]; [float] is a binary64 number ([PrimFloat.float]).
    - [int] of a text refuses more than 4300 digits with a [ValueError],
      as CPython does since 3.11; the integers of the cells, which the
      reader makes with [int], have 4300 digits at most.
    - a [dict] is an association list in insertion order with unique keys.
    - [list.sort] is the stable sort its documentation promises; see
      [sort_by] for the one case where the program leaves this ground.
    - an exception is a value of [exn], and code that can raise returns an
      [outcome]. *)

From Stdlib Require Import ZArith NArith List String Ascii Bool Lia Floats.
From Stdlib Require Import Numbers.DecimalString.
From Stdlib Require Import Sorting.Permutation Sorting.Sorted.
Import ListNotations.

Local Open Scope string_scope.
Local Open Scope list_scope.

(** ** Exceptions and results *)

Inductive exn : Type :=
| FileNotFoundError (msg : string)
| ValueError (msg : string)
| TypeError (msg : string)
| AttributeError (msg : string)
| OverflowError (msg : string).

Inductive outcome (A : Type) : Type :=
| Ok (a : A)
| Raise (e : exn).

Arguments Ok {A} a.
Arguments Raise {A} e.

Definition bind {A B : Type} (m : outcome A) (k : A -> outcome B) : outcome B :=
  match m with
  | Ok a => k a
  | Raise e => Raise e
  end.

Notation "x <- m ;; k" := (bind m (fun x => k))
  (at level 61, m at next level, right associativity).

(** A [for] loop whose body can raise: the first exception ends the loop. *)
Fixpoint for_each {A S : Type} (body : S -> A -> outcome S) (l : list A) (s : S)
  : outcome S :=
  match l with
  | [] => Ok s
  | a :: t => s' <- body s a ;; for_each body t s'
  end.

Definition is_ok {A : Type} (m : outcome A) : bool :=
  match m with Ok _ => true | Raise _ => false end.

(** ** Dictionaries *)

Module Dict.
Section WithKey.
Context {K V : Type} (eqb : K -> K -> bool).

Definition t := list (K * V).

Fixpoint get (d : t) (k : K) : option V :=
  match d with
  | [] => None
  | (k', v) :: rest => if eqb k k' then Some v else get rest k
  end.

(** [d[k] = v]: an existing entry keeps its place, a new one goes last. *)
Fixpoint set (d : t) (k : K) (v : V) : t :=
  match d with
  | [] => [(k, v)]
  | (k', v') :: rest =>
      if eqb k k' then (k', v) :: rest else (k', v') :: set rest k v
  end.

Definition mem (d : t) (k : K) : bool :=
  match get d k with Some _ => true | None => false end.

Definition get_default (d : t) (k : K) (default : V) : V :=
  match get d k with Some v => v | None => default end.

Definition setdefault (d : t) (k : K) (default : V) : t :=
  if mem d k then d else set d k default.

Definition keys (d : t) : list K := map fst d.
Definition values (d : t) : list V := map snd d.
End WithKey.
End Dict.

(** ** ASCII texts

    The texts that are ASCII by construction: the names of the columns,
    which the program puts in title case, the digits of numbers, and the
    text that [float] parses once it has brought its argument to ASCII. *)

Module Asc.

Definition code (c : ascii) : N := N_of_ascii c.

Definition in_range (lo hi : N) (c : ascii) : bool :=
  (N.leb lo (code c) && N.leb (code c) hi)%bool.

(** The class [\d] on ASCII. *)
Definition is_digit (c : ascii) : bool := in_range 48 57 c.

(** Lower case and upper case of the letters of ASCII. *)
Definition lower_char (c : ascii) : ascii :=
  if in_range 65 90 c then ascii_of_N (code c + 32) else c.

Fixpoint lower (s : string) : string :=
  match s with
  | EmptyString => EmptyString
  | String c t => String (lower_char c) (lower t)
  end.

Fixpoint lstrip (cls : ascii -> bool) (s : string) : string :=
  match s with
  | EmptyString => EmptyString
  | String c t => if cls c then lstrip cls t else s
  end.

Definition is_empty (s : string) : bool :=
  match s with EmptyString => true | String _ _ => false end.

Fixpoint rstrip (cls : ascii -> bool) (s : string) : string :=
  match s with
  | EmptyString => EmptyString
  | String c t =>
      let t' := rstrip cls t in
      if (cls c && is_empty t')%bool then EmptyString else String c t'
  end.

Fixpoint forallb (cls : ascii -> bool) (s : string) : bool :=
  match s with
  | EmptyString => true
  | String c t => (cls c && forallb cls t)%bool
  end.

(** [int(s)] for a string of ASCII digits. *)
Definition digit_val (c : ascii) : Z := Z.of_N (code c) - 48.

Fixpoint digits_val (acc : Z) (s : string) : Z :=
  match s with
  | EmptyString => acc
  | String c t => digits_val (10 * acc + digit_val c) t
  end.

Definition int_of_digits (s : string) : Z := digits_val 0 s.

Definition upper_char (c : ascii) : ascii :=
  if in_range 97 122 c then ascii_of_N (code c - 32) else c.

Definition is_alpha (c : ascii) : bool :=
  (in_range 65 90 c || in_range 97 122 c)%bool.

(** [s.title()]: a letter that follows no letter is put in upper case, the
    other letters in lower case. *)
Fixpoint title_from (after_letter : bool) (s : string) : string :=
  match s with
  | EmptyString => EmptyString
  | String c t =>
      String (if after_letter then lower_char c else upper_char c)
             (title_from (is_alpha c) t)
  end.

Definition title (s : string) : string := title_from false s.

(** [s.replace(a, b)] for single characters. *)
Fixpoint replace_char (a b : ascii) (s : string) : string :=
  match s with
  | EmptyString => EmptyString
  | String c t => String (if Ascii.eqb c a then b else c) (replace_char a b t)
  end.

End Asc.

(** ** The Unicode database *)

(** [str]: a text is the list of its code points. *)
Definition str : Type := list N.

Module Uni.
Local Open Scope N_scope.

(** The code points of white space, [str.isspace], from the first to the
    last of each range. *)
Definition space_ranges : list (N * N) :=
  [(9, 13); (28, 32); (133, 133); (160, 160); (5760, 5760);
   (8192, 8202); (8232, 8233); (8239, 8239); (8287, 8287); (12288, 12288) ]%N.

(** The decimal digits, [str.isdecimal]: ranges that each hold the digits
    0 to 9 in a row, one or several times. *)
Definition decimal_ranges : list (N * N) :=
  [(48, 57); (1632, 1641); (1776, 1785); (1984, 1993); (2406, 2415);
   (2534, 2543); (2662, 2671); (2790, 2799); (2918, 2927); (3046, 3055);
   (3174, 3183); (3302, 3311); (3430, 3439); (3558, 3567); (3664, 3673);
   (3792, 3801); (3872, 3881); (4160, 4169); (4240, 4249); (6112, 6121);
   (6160, 6169); (6470, 6479); (6608, 6617); (6784, 6793); (6800, 6809);
   (6992, 7001); (7088, 7097); (7232, 7241); (7248, 7257); (42528, 42537);
   (43216, 43225); (43264, 43273); (43472, 43481); (43504, 43513); (43600, 43609);
   (44016, 44025); (65296, 65305); (66720, 66729); (68912, 68921); (69734, 69743);
   (69872, 69881); (69942, 69951); (70096, 70105); (70384, 70393); (70736, 70745);
   (70864, 70873); (71248, 71257); (71360, 71369); (71472, 71481); (71904, 71913);
   (72016, 72025); (72784, 72793); (73040, 73049); (73120, 73129); (92768, 92777);
   (92864, 92873); (93008, 93017); (120782, 120831); (123200, 123209); (123632, 123641);
   (125264, 125273); (130032, 130041) ]%N.

(** The code points that [str.lower] changes into one other code point:
    [(first, count, step, image)] stands for [count] code points from
    [first] on, [step] apart, the images going from [image] on by the same
    step. *)
Definition lower_ranges : list (N * N * N * N) :=
  [(65, 26, 1, 97); (192, 23, 1, 224); (216, 7, 1, 248);
   (256, 24, 2, 257); (306, 3, 2, 307); (313, 8, 2, 314);
   (330, 23, 2, 331); (376, 1, 1, 255); (377, 3, 2, 378);
   (385, 1, 1, 595); (386, 2, 2, 387); (390, 1, 1, 596);
   (391, 1, 1, 392); (393, 2, 1, 598); (395, 1, 1, 396);
   (398, 1, 1, 477); (399, 1, 1, 601); (400, 1, 1, 603);
   (401, 1, 1, 402); (403, 1, 1, 608); (404, 1, 1, 611);
   (406, 1, 1, 617); (407, 1, 1, 616); (408, 1, 1, 409);
   (412, 1, 1, 623); (413, 1, 1, 626); (415, 1, 1, 629);
   (416, 3, 2, 417); (422, 1, 1, 640); (423, 1, 1, 424);
   (425, 1, 1, 643); (428, 1, 1, 429); (430, 1, 1, 648);
   (431, 1, 1, 432); (433, 2, 1, 650); (435, 2, 2, 436);
   (439, 1, 1, 658); (440, 1, 1, 441); (444, 1, 1, 445);
   (452, 1, 1, 454); (453, 1, 1, 454); (455, 1, 1, 457);
   (456, 1, 1, 457); (458, 1, 1, 460); (459, 9, 2, 460);
   (478, 9, 2, 479); (497, 1, 1, 499); (498, 2, 2, 499);
   (502, 1, 1, 405); (503, 1, 1, 447); (504, 20, 2, 505);
   (544, 1, 1, 414); (546, 9, 2, 547); (570, 1, 1, 11365);
   (571, 1, 1, 572); (573, 1, 1, 410); (574, 1, 1, 11366);
   (577, 1, 1, 578); (579, 1, 1, 384); (580, 1, 1, 649);
   (581, 1, 1, 652); (582, 5, 2, 583); (880, 2, 2, 881);
   (886, 1, 1, 887); (895, 1, 1, 1011); (902, 1, 1, 940);
   (904, 3, 1, 941); (908, 1, 1, 972); (910, 2, 1, 973);
   (913, 17, 1, 945); (931, 9, 1, 963); (975, 1, 1, 983);
   (984, 12, 2, 985); (1012, 1, 1, 952); (1015, 1, 1, 1016);
   (1017, 1, 1, 1010); (1018, 1, 1, 1019); (1021, 3, 1, 891);
   (1024, 16, 1, 1104); (1040, 32, 1, 1072); (1120, 17, 2, 1121);
   (1162, 27, 2, 1163); (1216, 1, 1, 1231); (1217, 7, 2, 1218);
   (1232, 48, 2, 1233); (1329, 38, 1, 1377); (4256, 38, 1, 11520);
   (4295, 1, 1, 11559); (4301, 1, 1, 11565); (5024, 80, 1, 43888);
   (5104, 6, 1, 5112); (7312, 43, 1, 4304); (7357, 3, 1, 4349);
   (7680, 75, 2, 7681); (7838, 1, 1, 223); (7840, 48, 2, 7841);
   (7944, 8, 1, 7936); (7960, 6, 1, 7952); (7976, 8, 1, 7968);
   (7992, 8, 1, 7984); (8008, 6, 1, 8000); (8025, 4, 2, 8017);
   (8040, 8, 1, 8032); (8072, 8, 1, 8064); (8088, 8, 1, 8080);
   (8104, 8, 1, 8096); (8120, 2, 1, 8112); (8122, 2, 1, 8048);
   (8124, 1, 1, 8115); (8136, 4, 1, 8050); (8140, 1, 1, 8131);
   (8152, 2, 1, 8144); (8154, 2, 1, 8054); (8168, 2, 1, 8160);
   (8170, 2, 1, 8058); (8172, 1, 1, 8165); (8184, 2, 1, 8056);
   (8186, 2, 1, 8060); (8188, 1, 1, 8179); (8486, 1, 1, 969);
   (8490, 1, 1, 107); (8491, 1, 1, 229); (8498, 1, 1, 8526);
   (8544, 16, 1, 8560); (8579, 1, 1, 8580); (9398, 26, 1, 9424);
   (11264, 48, 1, 11312); (11360, 1, 1, 11361); (11362, 1, 1, 619);
   (11363, 1, 1, 7549); (11364, 1, 1, 637); (11367, 3, 2, 11368);
   (11373, 1, 1, 593); (11374, 1, 1, 625); (11375, 1, 1, 592);
   (11376, 1, 1, 594); (11378, 1, 1, 11379); (11381, 1, 1, 11382);
   (11390, 2, 1, 575); (11392, 50, 2, 11393); (11499, 2, 2, 11500);
   (11506, 1, 1, 11507); (42560, 23, 2, 42561); (42624, 14, 2, 42625);
   (42786, 7, 2, 42787); (42802, 31, 2, 42803); (42873, 2, 2, 42874);
   (42877, 1, 1, 7545); (42878, 5, 2, 42879); (42891, 1, 1, 42892);
   (42893, 1, 1, 613); (42896, 2, 2, 42897); (42902, 10, 2, 42903);
   (42922, 1, 1, 614); (42923, 1, 1, 604); (42924, 1, 1, 609);
   (42925, 1, 1, 620); (42926, 1, 1, 618); (42928, 1, 1, 670);
   (42929, 1, 1, 647); (42930, 1, 1, 669); (42931, 1, 1, 43859);
   (42932, 8, 2, 42933); (42948, 1, 1, 42900); (42949, 1, 1, 642);
   (42950, 1, 1, 7566); (42951, 2, 2, 42952); (42960, 1, 1, 42961);
   (42966, 2, 2, 42967); (42997, 1, 1, 42998); (65313, 26, 1, 65345);
   (66560, 40, 1, 66600); (66736, 36, 1, 66776); (66928, 11, 1, 66967);
   (66940, 15, 1, 66979); (66956, 7, 1, 66995); (66964, 2, 1, 67003);
   (68736, 51, 1, 68800); (71840, 32, 1, 71872); (93760, 32, 1, 93792);
   (125184, 34, 1, 125218) ]%N.

(** The cased code points: lower case, upper case and title case. *)
Definition cased_ranges : list (N * N) :=
  [(65, 90); (97, 122); (170, 170); (181, 181); (186, 186);
   (192, 214); (216, 246); (248, 442); (444, 447); (452, 659);
   (661, 696); (704, 705); (736, 740); (837, 837); (880, 883);
   (886, 887); (890, 893); (895, 895); (902, 902); (904, 906);
   (908, 908); (910, 929); (931, 1013); (1015, 1153); (1162, 1327);
   (1329, 1366); (1376, 1416); (4256, 4293); (4295, 4295); (4301, 4301);
   (4304, 4346); (4349, 4351); (5024, 5109); (5112, 5117); (7296, 7304);
   (7312, 7354); (7357, 7359); (7424, 7615); (7680, 7957); (7960, 7965);
   (7968, 8005); (8008, 8013); (8016, 8023); (8025, 8025); (8027, 8027);
   (8029, 8029); (8031, 8061); (8064, 8116); (8118, 8124); (8126, 8126);
   (8130, 8132); (8134, 8140); (8144, 8147); (8150, 8155); (8160, 8172);
   (8178, 8180); (8182, 8188); (8305, 8305); (8319, 8319); (8336, 8348);
   (8450, 8450); (8455, 8455); (8458, 8467); (8469, 8469); (8473, 8477);
   (8484, 8484); (8486, 8486); (8488, 8488); (8490, 8493); (8495, 8500);
   (8505, 8505); (8508, 8511); (8517, 8521); (8526, 8526); (8544, 8575);
   (8579, 8580); (9398, 9449); (11264, 11492); (11499, 11502); (11506, 11507);
   (11520, 11557); (11559, 11559); (11565, 11565); (42560, 42605); (42624, 42653);
   (42786, 42887); (42891, 42894); (42896, 42954); (42960, 42961); (42963, 42963);
   (42965, 42969); (42997, 42998); (43000, 43002); (43824, 43866); (43868, 43880);
   (43888, 43967); (64256, 64262); (64275, 64279); (65313, 65338); (65345, 65370);
   (66560, 66639); (66736, 66771); (66776, 66811); (66928, 66938); (66940, 66954);
   (66956, 66962); (66964, 66965); (66967, 66977); (66979, 66993); (66995, 67001);
   (67003, 67004); (67456, 67456); (67459, 67461); (67463, 67504); (67506, 67514);
   (68736, 68786); (68800, 68850); (71840, 71903); (93760, 93823); (119808, 119892);
   (119894, 119964); (119966, 119967); (119970, 119970); (119973, 119974); (119977, 119980);
   (119982, 119993); (119995, 119995); (119997, 120003); (120005, 120069); (120071, 120074);
   (120077, 120084); (120086, 120092); (120094, 120121); (120123, 120126); (120128, 120132);
   (120134, 120134); (120138, 120144); (120146, 120485); (120488, 120512); (120514, 120538);
   (120540, 120570); (120572, 120596); (120598, 120628); (120630, 120654); (120656, 120686);
   (120688, 120712); (120714, 120744); (120746, 120770); (120772, 120779); (122624, 122633);
   (122635, 122654); (125184, 125251); (127280, 127305); (127312, 127337); (127344, 127369) ]%N.

(** The code points that the rule for the final sigma looks through. *)
Definition case_ignorable_ranges : list (N * N) :=
  [(39, 39); (46, 46); (58, 58); (94, 94); (96, 96);
   (168, 168); (173, 173); (175, 175); (180, 180); (183, 184);
   (688, 879); (884, 885); (890, 890); (900, 901); (903, 903);
   (1155, 1161); (1369, 1369); (1375, 1375); (1425, 1469); (1471, 1471);
   (1473, 1474); (1476, 1477); (1479, 1479); (1524, 1524); (1536, 1541);
   (1552, 1562); (1564, 1564); (1600, 1600); (1611, 1631); (1648, 1648);
   (1750, 1757); (1759, 1768); (1770, 1773); (1807, 1807); (1809, 1809);
   (1840, 1866); (1958, 1968); (2027, 2037); (2042, 2042); (2045, 2045);
   (2070, 2093); (2137, 2139); (2184, 2184); (2192, 2193); (2200, 2207);
   (2249, 2306); (2362, 2362); (2364, 2364); (2369, 2376); (2381, 2381);
   (2385, 2391); (2402, 2403); (2417, 2417); (2433, 2433); (2492, 2492);
   (2497, 2500); (2509, 2509); (2530, 2531); (2558, 2558); (2561, 2562);
   (2620, 2620); (2625, 2626); (2631, 2632); (2635, 2637); (2641, 2641);
   (2672, 2673); (2677, 2677); (2689, 2690); (2748, 2748); (2753, 2757);
   (2759, 2760); (2765, 2765); (2786, 2787); (2810, 2815); (2817, 2817);
   (2876, 2876); (2879, 2879); (2881, 2884); (2893, 2893); (2901, 2902);
   (2914, 2915); (2946, 2946); (3008, 3008); (3021, 3021); (3072, 3072);
   (3076, 3076); (3132, 3132); (3134, 3136); (3142, 3144); (3146, 3149);
   (3157, 3158); (3170, 3171); (3201, 3201); (3260, 3260); (3263, 3263);
   (3270, 3270); (3276, 3277); (3298, 3299); (3328, 3329); (3387, 3388);
   (3393, 3396); (3405, 3405); (3426, 3427); (3457, 3457); (3530, 3530);
   (3538, 3540); (3542, 3542); (3633, 3633); (3636, 3642); (3654, 3662);
   (3761, 3761); (3764, 3772); (3782, 3782); (3784, 3789); (3864, 3865);
   (3893, 3893); (3895, 3895); (3897, 3897); (3953, 3966); (3968, 3972);
   (3974, 3975); (3981, 3991); (3993, 4028); (4038, 4038); (4141, 4144);
   (4146, 4151); (4153, 4154); (4157, 4158); (4184, 4185); (4190, 4192);
   (4209, 4212); (4226, 4226); (4229, 4230); (4237, 4237); (4253, 4253);
   (4348, 4348); (4957, 4959); (5906, 5908); (5938, 5939); (5970, 5971);
   (6002, 6003); (6068, 6069); (6071, 6077); (6086, 6086); (6089, 6099);
   (6103, 6103); (6109, 6109); (6155, 6159); (6211, 6211); (6277, 6278);
   (6313, 6313); (6432, 6434); (6439, 6440); (6450, 6450); (6457, 6459);
   (6679, 6680); (6683, 6683); (6742, 6742); (6744, 6750); (6752, 6752);
   (6754, 6754); (6757, 6764); (6771, 6780); (6783, 6783); (6823, 6823);
   (6832, 6862); (6912, 6915); (6964, 6964); (6966, 6970); (6972, 6972);
   (6978, 6978); (7019, 7027); (7040, 7041); (7074, 7077); (7080, 7081);
   (7083, 7085); (7142, 7142); (7144, 7145); (7149, 7149); (7151, 7153);
   (7212, 7219); (7222, 7223); (7288, 7293); (7376, 7378); (7380, 7392);
   (7394, 7400); (7405, 7405); (7412, 7412); (7416, 7417); (7468, 7530);
   (7544, 7544); (7579, 7679); (8125, 8125); (8127, 8129); (8141, 8143);
   (8157, 8159); (8173, 8175); (8189, 8190); (8203, 8207); (8216, 8217);
   (8228, 8228); (8231, 8231); (8234, 8238); (8288, 8292); (8294, 8303);
   (8305, 8305); (8319, 8319); (8336, 8348); (8400, 8432); (11388, 11389);
   (11503, 11505); (11631, 11631); (11647, 11647); (11744, 11775); (11823, 11823);
   (12293, 12293); (12330, 12333); (12337, 12341); (12347, 12347); (12441, 12446);
   (12540, 12542); (40981, 40981); (42232, 42237); (42508, 42508); (42607, 42610);
   (42612, 42621); (42623, 42623); (42652, 42655); (42736, 42737); (42752, 42785);
   (42864, 42864); (42888, 42890); (42994, 42996); (43000, 43001); (43010, 43010);
   (43014, 43014); (43019, 43019); (43045, 43046); (43052, 43052); (43204, 43205);
   (43232, 43249); (43263, 43263); (43302, 43309); (43335, 43345); (43392, 43394);
   (43443, 43443); (43446, 43449); (43452, 43453); (43471, 43471); (43493, 43494);
   (43561, 43566); (43569, 43570); (43573, 43574); (43587, 43587); (43596, 43596);
   (43632, 43632); (43644, 43644); (43696, 43696); (43698, 43700); (43703, 43704);
   (43710, 43711); (43713, 43713); (43741, 43741); (43756, 43757); (43763, 43764);
   (43766, 43766); (43867, 43871); (43881, 43883); (44005, 44005); (44008, 44008);
   (44013, 44013); (64286, 64286); (64434, 64450); (65024, 65039); (65043, 65043);
   (65056, 65071); (65106, 65106); (65109, 65109); (65279, 65279); (65287, 65287);
   (65294, 65294); (65306, 65306); (65342, 65342); (65344, 65344); (65392, 65392);
   (65438, 65439); (65507, 65507); (65529, 65531); (66045, 66045); (66272, 66272);
   (66422, 66426); (67456, 67461); (67463, 67504); (67506, 67514); (68097, 68099);
   (68101, 68102); (68108, 68111); (68152, 68154); (68159, 68159); (68325, 68326);
   (68900, 68903); (69291, 69292); (69446, 69456); (69506, 69509); (69633, 69633);
   (69688, 69702); (69744, 69744); (69747, 69748); (69759, 69761); (69811, 69814);
   (69817, 69818); (69821, 69821); (69826, 69826); (69837, 69837); (69888, 69890);
   (69927, 69931); (69933, 69940); (70003, 70003); (70016, 70017); (70070, 70078);
   (70089, 70092); (70095, 70095); (70191, 70193); (70196, 70196); (70198, 70199);
   (70206, 70206); (70367, 70367); (70371, 70378); (70400, 70401); (70459, 70460);
   (70464, 70464); (70502, 70508); (70512, 70516); (70712, 70719); (70722, 70724);
   (70726, 70726); (70750, 70750); (70835, 70840); (70842, 70842); (70847, 70848);
   (70850, 70851); (71090, 71093); (71100, 71101); (71103, 71104); (71132, 71133);
   (71219, 71226); (71229, 71229); (71231, 71232); (71339, 71339); (71341, 71341);
   (71344, 71349); (71351, 71351); (71453, 71455); (71458, 71461); (71463, 71467);
   (71727, 71735); (71737, 71738); (71995, 71996); (71998, 71998); (72003, 72003);
   (72148, 72151); (72154, 72155); (72160, 72160); (72193, 72202); (72243, 72248);
   (72251, 72254); (72263, 72263); (72273, 72278); (72281, 72283); (72330, 72342);
   (72344, 72345); (72752, 72758); (72760, 72765); (72767, 72767); (72850, 72871);
   (72874, 72880); (72882, 72883); (72885, 72886); (73009, 73014); (73018, 73018);
   (73020, 73021); (73023, 73029); (73031, 73031); (73104, 73105); (73109, 73109);
   (73111, 73111); (73459, 73460); (78896, 78904); (92912, 92916); (92976, 92982);
   (92992, 92995); (94031, 94031); (94095, 94111); (94176, 94177); (94179, 94180);
   (110576, 110579); (110581, 110587); (110589, 110590); (113821, 113822); (113824, 113827);
   (118528, 118573); (118576, 118598); (119143, 119145); (119155, 119170); (119173, 119179);
   (119210, 119213); (119362, 119364); (121344, 121398); (121403, 121452); (121461, 121461);
   (121476, 121476); (121499, 121503); (121505, 121519); (122880, 122886); (122888, 122904);
   (122907, 122913); (122915, 122916); (122918, 122922); (123184, 123197); (123566, 123566);
   (123628, 123631); (125136, 125142); (125252, 125259); (127995, 127999); (917505, 917505);
   (917536, 917631); (917760, 917999) ]%N.

Definition in_ranges (ranges : list (N * N)) (c : N) : bool :=
  existsb (fun '(first, last) => N.leb first c && N.leb c last) ranges.

(** [c.isspace()], also the class [\s] of a pattern on texts. *)
Definition is_space (c : N) : bool := in_ranges space_ranges c.

(** [c.isdecimal()], also the class [\d] of a pattern on texts. *)
Definition is_decimal (c : N) : bool := in_ranges decimal_ranges c.

(** The digit a decimal digit stands for. *)
Definition decimal_value (c : N) : N :=
  match find (fun '(first, last) => N.leb first c && N.leb c last)
             decimal_ranges with
  | Some (first, _) => (c - first) mod 10
  | None => 0
  end.

Fixpoint lower_lookup (ranges : list (N * N * N * N)) (c : N) : option N :=
  match ranges with
  | [] => None
  | (first, count, step, image) :: rest =>
      if N.leb first c && N.eqb ((c - first) mod step) 0
         && N.ltb ((c - first) / step) count
      then Some (image + (c - first))
      else lower_lookup rest c
  end.

(** The lower case of one code point, whatever stands around it: one code
    point, but for U+0130, which gives two. *)
Definition lower_full (c : N) : list N :=
  if N.eqb c 304 then [105; 775]
  else
    match lower_lookup lower_ranges c with
    | Some image => [image]
    | None => [c]
    end.

Definition is_cased (c : N) : bool := in_ranges cased_ranges c.

Definition is_case_ignorable (c : N) : bool :=
  in_ranges case_ignorable_ranges c.

End Uni.

(** ** Texts

    A [str] of Python is a sequence of code points. *)

Module Str.
Local Open Scope N_scope.

Fixpoint eqb (a b : str) : bool :=
  match a, b with
  | [], [] => true
  | x :: a', y :: b' => N.eqb x y && eqb a' b'
  | _, _ => false
  end.

Definition is_empty (s : str) : bool :=
  match s with [] => true | _ :: _ => false end.

(** [str.isspace] and the class [\s]. *)
Definition is_space (c : N) : bool := Uni.is_space c.

(** The class [\d]. *)
Definition is_digit (c : N) : bool := Uni.is_decimal c.

(** The rule of the final sigma looks at what follows a capital sigma, the
    case-ignorable code points apart: is it a cased code point? *)
Fixpoint cased_ahead (s : str) : bool :=
  match s with
  | [] => false
  | c :: t =>
      if Uni.is_case_ignorable c then cased_ahead t else Uni.is_cased c
  end.

(** [s.lower()] from a place on: [cased_behind] tells that a cased code
    point stands before this place, the case-ignorable ones apart.  The
    capital sigma U+03A3 becomes the final sigma U+03C2 after a cased code
    point when none follows, and the sigma U+03C3 elsewhere. *)
Fixpoint lower_from (cased_behind : bool) (s : str) : str :=
  match s with
  | [] => []
  | c :: t =>
      (if N.eqb c 931
       then [if cased_behind && negb (cased_ahead t) then 962 else 963]
       else Uni.lower_full c)
      ++ lower_from
           (if Uni.is_case_ignorable c then cased_behind else Uni.is_cased c)
           t
  end.

Definition lower (s : str) : str := lower_from false s.

Fixpoint lstrip (cls : N -> bool) (s : str) : str :=
  match s with
  | [] => []
  | c :: t => if cls c then lstrip cls t else s
  end.

Fixpoint rstrip (cls : N -> bool) (s : str) : str :=
  match s with
  | [] => []
  | c :: t =>
      let t' := rstrip cls t in
      if (cls c && is_empty t')%bool then [] else c :: t'
  end.

(** [s.strip()]. *)
Definition strip (s : str) : str := rstrip is_space (lstrip is_space s).

(** [re.sub] with the pattern [[cls]+]: every maximal run of code points of
    the class is replaced by [repl].  [in_run] tells that the code point
    before belonged to a run already replaced. *)
Fixpoint sub_runs (cls : N -> bool) (repl : str) (in_run : bool) (s : str)
  : str :=
  match s with
  | [] => []
  | c :: t =>
      if cls c then
        if in_run then sub_runs cls repl true t
        else repl ++ sub_runs cls repl true t
      else c :: sub_runs cls repl false t
  end.

Definition re_sub_runs (cls : N -> bool) (repl s : str) : str :=
  sub_runs cls repl false s.

(** [s.startswith(p)], with what follows the prefix. *)
Fixpoint strip_prefix (p s : str) : option str :=
  match p, s with
  | [], _ => Some s
  | a :: p', b :: s' => if N.eqb a b then strip_prefix p' s' else None
  | _ :: _, [] => None
  end.

(** The longest prefix made of code points of the class, and the rest. *)
Fixpoint span (cls : N -> bool) (s : str) : str * str :=
  match s with
  | [] => ([], [])
  | c :: t =>
      if cls c then let '(a, b) := span cls t in (c :: a, b)
      else ([], s)
  end.

(** [int(s)] for a text of decimal digits, of whatever script. *)
Definition digit_val (c : N) : Z := Z.of_N (Uni.decimal_value c).

Fixpoint digits_val (acc : Z) (s : str) : Z :=
  match s with
  | [] => acc
  | c :: t => digits_val (10 * acc + digit_val c)%Z t
  end.

Definition int_of_digits (s : str) : Z := digits_val 0 s.

(** The order of texts, [<] of [str]: by code points. *)
Fixpoint ltb (a b : str) : bool :=
  match a, b with
  | [], [] => false
  | [], _ :: _ => true
  | _ :: _, [] => false
  | x :: a', y :: b' =>
      if N.ltb x y then true
      else if N.ltb y x then false
      else ltb a' b'
  end.

(** [s.replace(a, b)] for single code points. *)
Fixpoint replace_char (a b : N) (s : str) : str :=
  match s with
  | [] => []
  | c :: t => (if N.eqb c a then b else c) :: replace_char a b t
  end.

(** The code points of a text given by its bytes in UTF-8. *)
Fixpoint of_utf8 (fuel : nat) (bytes : list N) : str :=
  match fuel with
  | O => []
  | S fuel' =>
      match bytes with
      | [] => []
      | b :: t =>
          if b <? 128 then b :: of_utf8 fuel' t
          else if b <? 224 then
            match t with
            | b1 :: t1 => (b - 192) * 64 + (b1 - 128) :: of_utf8 fuel' t1
            | _ => [b]
            end
          else if b <? 240 then
            match t with
            | b1 :: b2 :: t2 =>
                (b - 224) * 4096 + (b1 - 128) * 64 + (b2 - 128)
                :: of_utf8 fuel' t2
            | _ => [b]
            end
          else
            match t with
            | b1 :: b2 :: b3 :: t3 =>
                (b - 240) * 262144 + (b1 - 128) * 4096 + (b2 - 128) * 64
                + (b3 - 128)
                :: of_utf8 fuel' t3
            | _ => [b]
            end
      end
  end.

End Str.

(** The text a literal of this file stands for. *)
Definition txt (literal : string) : str :=
  Str.of_utf8 (String.length literal)
              (map N_of_ascii (list_ascii_of_string literal)).

Definition sdict (V : Type) := list (str * V).
Definition sget {V} (d : sdict V) (k : str) : option V := Dict.get Str.eqb d k.
Definition sset {V} (d : sdict V) (k : str) (v : V) : sdict V :=
  Dict.set Str.eqb d k v.

Definition zdict (V : Type) := list (Z * V).
Definition zget {V} (d : zdict V) (k : Z) : option V := Dict.get Z.eqb d k.
Definition zset {V} (d : zdict V) (k : Z) (v : V) : zdict V :=
  Dict.set Z.eqb d k v.

(** ** Floats

    [float] is IEEE 754 binary64 with round to nearest, ties to even, which
    is the arithmetic of [PrimFloat].  The conversions below are those of
    CPython: [float(int)], [float(str)], [float.is_integer], [int(float)]
    and [repr(float)]. *)

Module Flt.
Local Open Scope Z_scope.

Definition is_inf (f : float) : bool :=
  match Prim2SF f with S754_infinity _ => true | _ => false end.

Definition is_nan (f : float) : bool := PrimFloat.is_nan f.

(** [float(n)] for an [int]: the nearest float; [None] is [OverflowError]. *)
Definition of_int (n : Z) : option float :=
  let f := SF2Prim (binary_normalize prec emax n 0 false) in
  if is_inf f then None else Some f.

(** The float nearest to [(-1)^s * m * 10^e]. *)
Definition of_decimal (s : bool) (m e : Z) : float :=
  match m with
  | Zpos p =>
      if 0 <=? e then
        SF2Prim (binary_normalize prec emax
                   ((if s then -1 else 1) * (m * 10 ^ e)) 0 s)
      else
        SF2Prim (SFdiv prec emax (S754_finite s p 0)
                   (S754_finite false (Z.to_pos (10 ^ (- e))) 0))
  | _ => SF2Prim (S754_zero s)
  end.

Definition is_integer (f : float) : bool :=
  match Prim2SF f with
  | S754_zero _ => true
  | S754_finite _ m e => (0 <=? e) || (Zpos m mod 2 ^ (- e) =? 0)
  | _ => false
  end.

(** [int(f)] for a float with an integral value. *)
Definition to_int (f : float) : Z :=
  match Prim2SF f with
  | S754_finite s m e =>
      let a := if 0 <=? e then Zpos m * 2 ^ e else Zpos m / 2 ^ (- e) in
      if s then - a else a
  | _ => 0
  end.

(** *** [float(str)]

    The grammar of the language reference: blanks around, a sign, then
    [inf], [infinity] or [nan] in any case, or a decimal number with an
    optional exponent; digits may be grouped by single underscores. *)

(** After a digit: digits, each with at most one underscore before it. *)
Fixpoint more_digits (s : string) : string * string :=
  match s with
  | EmptyString => (EmptyString, EmptyString)
  | String c t =>
      if Asc.is_digit c then
        let '(d, r) := more_digits t in (String c d, r)
      else if Ascii.eqb c "_" then
        match t with
        | String c2 t2 =>
            if Asc.is_digit c2 then
              let '(d, r) := more_digits t2 in (String c2 d, r)
            else (EmptyString, s)
        | EmptyString => (EmptyString, s)
        end
      else (EmptyString, s)
  end.

(** [digitpart], empty when [s] does not start with a digit. *)
Definition digitpart (s : string) : string * string :=
  match s with
  | String c t =>
      if Asc.is_digit c then
        let '(d, r) := more_digits t in (String c d, r)
      else (EmptyString, s)
  | EmptyString => (EmptyString, s)
  end.

Definition take_sign (s : string) : bool * string :=
  match s with
  | String c t =>
      if Ascii.eqb c "-" then (true, t)
      else if Ascii.eqb c "+" then (false, t)
      else (false, s)
  | EmptyString => (false, s)
  end.

(** The exponent part, or nothing: [None] when what is left is no exponent. *)
Definition exponent (s : string) : option Z :=
  match s with
  | EmptyString => Some 0
  | String c t =>
      if Ascii.eqb c "e" || Ascii.eqb c "E" then
        let '(neg, t1) := take_sign t in
        let '(ds, rest) := digitpart t1 in
        if Asc.is_empty ds || negb (Asc.is_empty rest) then None
        else Some (if neg then - Asc.int_of_digits ds else Asc.int_of_digits ds)
      else None
  end.

Definition number (neg : bool) (s : string) : option float :=
  let '(ip, r1) := digitpart s in
  let '(dot, fp, r2) :=
    match r1 with
    | String c t =>
        if Ascii.eqb c "." then let '(fp, r2) := digitpart t in (true, fp, r2)
        else (false, EmptyString, r1)
    | EmptyString => (false, EmptyString, r1)
    end in
  if Asc.is_empty ip && Asc.is_empty fp then None
  else
    match exponent r2 with
    | None => None
    | Some e =>
        Some (of_decimal neg (Asc.int_of_digits (ip ++ fp))
                (e - Z.of_nat (String.length fp)))
    end.

(** The blanks [float] skips around an ASCII text: those of C's [isspace]. *)
Definition is_c_space (c : ascii) : bool :=
  Asc.in_range 9 13 c || N.eqb (Asc.code c) 32.

(** [float] of an ASCII text. *)
Definition of_ascii (text : string) : option float :=
  let '(neg, s) :=
    take_sign (Asc.rstrip is_c_space (Asc.lstrip is_c_space text)) in
  let l := Asc.lower s in
  if String.eqb l "inf" || String.eqb l "infinity" then
    Some (if neg then neg_infinity else infinity)
  else if String.eqb l "nan" then Some nan
  else number neg s.

(** Before it parses a text that is not all ASCII, [float] brings it to
    ASCII: a code point below 127 stays, white space becomes a blank, a
    decimal digit the ASCII digit of its value, and anything else a question
    mark, which no number holds.  (CPython drops what follows the first
    question mark; the text is no number either way.) *)
Definition to_ascii (c : N) : ascii :=
  if N.ltb c 127 then ascii_of_N c
  else if Uni.is_space c then " "%char
  else if Uni.is_decimal c then ascii_of_N (48 + Uni.decimal_value c)
  else "?"%char.

Definition transform (text : str) : string :=
  if forallb (fun c => N.ltb c 128) text
  then string_of_list_ascii (map ascii_of_N text)
  else string_of_list_ascii (map to_ascii text).

(** [float(text)]. *)
Definition of_string (text : str) : option float := of_ascii (transform text).

(** *** [repr(float)]

    The shortest decimal text that reads back as the same float, in
    positional notation when the decimal point lies within [(-4, 16]]. *)

Definition str_of_Z (z : Z) : string := NilZero.string_of_int (Z.to_int z).

Definition lt_pow10 (p q k : Z) : bool :=
  if 0 <=? k then p <? q * 10 ^ k else p * 10 ^ (- k) <? q.

(** The least [k] from the given one on with [p / q < 10 ^ k]. *)
Fixpoint find_decpt (fuel : nat) (p q k : Z) : Z :=
  match fuel with
  | O => k
  | S fuel' => if lt_pow10 p q k then k else find_decpt fuel' p q (k + 1)
  end.

(** [p / q] scaled to [n] digits before the decimal point [k], as a
    fraction. *)
Definition scaled (p q k n : Z) : Z * Z :=
  if 0 <=? n - k then (p * 10 ^ (n - k), q) else (p, q * 10 ^ (k - n)).

(** The digits of [f = p / q], as few as read back as [f].  With [n] digits
    there are two candidates, [p / q] cut after [n] digits and the next
    number of [n] digits; when both read back as [f] the nearer one is
    taken, the even one when they are as near.  Seventeen digits always do.
    The result is the digits as an integer, and the decimal point. *)
Fixpoint shortest (fuel : nat) (f : float) (p q k n : Z) : Z * Z :=
  let '(num, den) := scaled p q k n in
  let low := num / den in
  let high := low + 1 in
  let nearest :=
    match 2 * (num mod den) ?= den with
    | Lt => low
    | Gt => high
    | Eq => if Z.even low then low else high
    end in
  let reads_back d := PrimFloat.eqb (of_decimal false d (k - n)) f in
  let result d := if d =? 10 ^ n then (d, k + 1) else (d, k) in
  match fuel with
  | O => result nearest
  | S fuel' =>
      if reads_back low && reads_back high then result nearest
      else if reads_back low then result low
      else if reads_back high then result high
      else shortest fuel' f p q k (n + 1)
  end.

Fixpoint rstrip_zeros (s : string) : string :=
  match s with
  | EmptyString => EmptyString
  | String c t =>
      match rstrip_zeros t with
      | EmptyString =>
          if Ascii.eqb c "0" then EmptyString else String c EmptyString
      | t' => String c t'
      end
  end.

Fixpoint zeros (n : nat) : string :=
  match n with O => EmptyString | S n' => String "0" (zeros n') end.

Definition exp_text (e : Z) : string :=
  let sign := if e <? 0 then "-" else "+" in
  let pad := if Z.abs e <? 10 then "0" else "" in
  (sign ++ pad ++ str_of_Z (Z.abs e))%string.

Definition format_repr (ds : string) (k : Z) : string :=
  let n := Z.of_nat (String.length ds) in
  if (-4 <? k) && (k <=? 16) then
    if k <=? 0 then ("0." ++ zeros (Z.to_nat (- k)) ++ ds)%string
    else if n <=? k then (ds ++ zeros (Z.to_nat (k - n)) ++ ".0")%string
    else (substring 0 (Z.to_nat k) ds ++ "."
            ++ substring (Z.to_nat k) (Z.to_nat (n - k)) ds)%string
  else
    match ds with
    | EmptyString => EmptyString
    | String c EmptyString => (String c "e" ++ exp_text (k - 1))%string
    | String c t => (String c ("." ++ t) ++ "e" ++ exp_text (k - 1))%string
    end.

Definition repr (f : float) : string :=
  match Prim2SF f with
  | S754_nan => "nan"
  | S754_infinity s => if s then "-inf" else "inf"
  | S754_zero s => if s then "-0.0" else "0.0"
  | S754_finite s m e =>
      let p := if 0 <=? e then Zpos m * 2 ^ e else Zpos m in
      let q := if 0 <=? e then 1 else 2 ^ (- e) in
      let k := find_decpt 8 p q
                 ((Z.log2 p - Z.log2 q - 1) * 30102 / 100000 - 2) in
      let '(d, k') := shortest 16 (PrimFloat.abs f) p q k 1 in
      let sign := if s then "-" else "" in
      (sign ++ format_repr (rstrip_zeros (str_of_Z d)) k')%string
  end.

End Flt.

(** ** Values

    What a cell of a worksheet can hold, as openpyxl hands it over: nothing,
    a truth value, a number, a text, or an object of another type (a date, a
    time or a duration), known here by the text [str] gives for it and by
    its truth as a condition (a duration of zero is false).  [float] rejects
    such an object with a [TypeError]. *)

Inductive value : Type :=
| VNone
| VBool (b : bool)
| VInt (n : Z)
| VFloat (f : float)
| VStr (s : str)
| VOther (text : str) (truth : bool).

Definition is_none (v : value) : bool :=
  match v with VNone => true | _ => false end.

(** Truth of a value, as [if v] and [v or w] test it. *)
Definition truthy (v : value) : bool :=
  match v with
  | VNone => false
  | VBool b => b
  | VInt n => negb (Z.eqb n 0)
  | VFloat f => negb (PrimFloat.eqb f 0)
  | VStr s => negb (Str.is_empty s)
  | VOther _ truth => truth
  end.

Definition py_or (a b : value) : value := if truthy a then a else b.

(** [str(v)]. *)
Definition py_str (v : value) : str :=
  match v with
  | VNone => txt "None"
  | VBool b => if b then txt "True" else txt "False"
  | VInt n => txt (Flt.str_of_Z n)
  | VFloat f => txt (Flt.repr f)
  | VStr s => s
  | VOther text _ => text
  end.

(** [float(v)]. *)
Definition py_float (v : value) : outcome float :=
  match v with
  | VNone | VOther _ _ =>
      Raise (TypeError "float() argument must be a string or a real number")
  | VBool b => Ok (if b then 1%float else 0%float)
  | VInt n =>
      match Flt.of_int n with
      | Some f => Ok f
      | None => Raise (OverflowError "int too large to convert to float")
      end
  | VFloat f => Ok f
  | VStr s =>
      match Flt.of_string s with
      | Some f => Ok f
      | None => Raise (ValueError "could not convert string to float")
      end
  end.

(** [list.sort(key=..., reverse=...)].  The sort of Python is stable and
    compares keys with [<] only; on keys that [<] orders (texts, integers,
    tuples of them, floats that are no NaN) its result is the one of this
    insertion sort.  With a NaN among the keys, which is below and above
    nothing, the result of [list.sort] is some rearrangement that depends on
    the runs CPython finds and merges, and on its version; it need not be
    the one given here.  The properties below state the order of a sorted
    list of floats only for lists without NaN.  [before y x] tells that [y], met later than [x],
    goes in front of it. *)
Fixpoint insert_by {A : Type} (before : A -> A -> bool) (x : A) (l : list A)
  : list A :=
  match l with
  | [] => [x]
  | y :: t => if before y x then y :: insert_by before x t else x :: y :: t
  end.

Definition sort_by {A K : Type} (lt : K -> K -> bool) (key : A -> K)
           (reverse : bool) (l : list A) : list A :=
  fold_right
    (insert_by (fun y x =>
                  if reverse then lt (key x) (key y) else lt (key y) (key x)))
    [] l.

(** [enumerate(l)]. *)
Definition enumerate {A : Type} (l : list A) : list (nat * A) :=
  combine (seq 0 (List.length l)) l.

(** [l[i] = x] on a list that grows when [i] is past its end, as a sheet
    does when a cell outside its rows is written. *)
Fixpoint list_set {A : Type} (d : A) (i : nat) (x : A) (l : list A) : list A :=
  match i, l with
  | O, [] => [x]
  | O, _ :: t => x :: t
  | S i', [] => d :: list_set d i' x []
  | S i', h :: t => h :: list_set d i' x t
  end.

(** * The program *)

Definition DESIRED_COLUMNS : list string :=
  ["order_id"; "product_name"; "quantity"; "total_quantity"].

Definition HEADER_ALIASES : sdict str :=
  [ (txt "orderid", txt "order_id");
    (txt "order_id", txt "order_id");
    (txt "order id", txt "order_id");
    (txt "id", txt "order_id");
    (txt "qty", txt "quantity");
    (txt "quantity", txt "quantity");
    (txt "totalquantity", txt "total_quantity");
    (txt "total_quantity", txt "total_quantity");
    (txt "total quantity", txt "total_quantity");
    (txt "total_qty", txt "total_quantity") ].

(** The class [[\s_-]]: white space, the underscore and the hyphen. *)
Definition header_separator (c : N) : bool :=
  Str.is_space c || N.eqb c 95 || N.eqb c 45.

(** The key of a header text before the alias table is consulted. *)
Definition header_key (s : str) : str :=
  Str.re_sub_runs header_separator [] (Str.lower (Str.strip s)).

Definition normalize_header (name : value) : outcome str :=
  match py_or name (VStr []) with
  | VStr s =>
      let key := header_key s in
      Ok (Dict.get_default Str.eqb HEADER_ALIASES key key)
  | _ => Raise (AttributeError "object has no attribute 'strip'")
  end.

Definition normalize_product_name (name : value) : str :=
  match name with
  | VNone => []
  | _ =>
      Str.re_sub_runs Str.is_space (txt " ")
        (Str.lower (Str.strip (py_str name)))
  end.

(** ** Header resolution *)

(** [re.match] of the prefix followed by the group [\d*]: the digits that
    follow the prefix, as many as there are. *)
Definition match_prefix_digits (prefix key : str) : option str :=
  match Str.strip_prefix prefix key with
  | Some rest => Some (fst (Str.span Str.is_digit rest))
  | None => None
  end.

(** [re.match] of [productname], then [\d*] as group 1. *)
Definition name_match (key : str) : option str :=
  match_prefix_digits (txt "productname") key.

(** [re.match] of [productquantity] or else [quantity], then [\d*] as
    group 2. *)
Definition qty_match (key : str) : option str :=
  match match_prefix_digits (txt "productquantity") key with
  | Some digits => Some digits
  | None => match_prefix_digits (txt "quantity") key
  end.

(** The most digits of a text that [int] turns into a number. *)
Definition max_str_digits : Z := 4300.

Definition too_many_digits : exn :=
  ValueError "Exceeds the limit (4300 digits) for integer string conversion".

(** [int] of the digits, or of the text 1 when there are none. *)
Definition group_number (digits : str) : outcome Z :=
  if Str.is_empty digits then Ok 1%Z
  else if (max_str_digits <? Z.of_nat (List.length digits))%Z
       then Raise too_many_digits
       else Ok (Str.int_of_digits digits).

Record columns : Type := mk_columns {
  product_name_cols : zdict nat;
  quantity_cols : zdict nat;
  order_col : option nat
}.

Definition no_columns : columns := mk_columns [] [] None.

(** The body of the loop over the header cells. *)
Definition header_step (cols : columns) (entry : nat * value)
  : outcome columns :=
  let '(idx, cell) := entry in
  key <- normalize_header (py_or cell (VStr [])) ;;
  if Str.eqb key (txt "order_id") then
    Ok (mk_columns (product_name_cols cols) (quantity_cols cols) (Some idx))
  else
    cols1 <-
      match name_match key with
      | Some digits =>
          num <- group_number digits ;;
          Ok (mk_columns (zset (product_name_cols cols) num idx)
                         (quantity_cols cols) (order_col cols))
      | None => Ok cols
      end ;;
    match qty_match key with
    | Some digits =>
        num <- group_number digits ;;
        Ok (mk_columns (product_name_cols cols1)
                       (zset (quantity_cols cols1) num idx)
                       (order_col cols1))
    | None => Ok cols1
    end.

Definition scan_headers (header_cells : list value) : outcome columns :=
  for_each header_step (enumerate header_cells) no_columns.

Definition missing_order_id : exn :=
  ValueError "Missing required column: id / order_id".

Definition no_product_columns : exn :=
  ValueError "No productName / productQuantity columns found.".

(** The loop and the two checks that follow it. *)
Definition resolve_headers (header_cells : list value) : outcome columns :=
  cols <- scan_headers header_cells ;;
  match order_col cols with
  | None => Raise missing_order_id
  | Some _ =>
      match product_name_cols cols, quantity_cols cols with
      | [], [] => Raise no_product_columns
      | _, _ => Ok cols
      end
  end.

(** ** Row extraction and aggregation *)

Definition parse_quantity (v : value) : outcome (option float) :=
  match v with
  | VNone => Ok None
  | _ =>
      match py_float v with
      | Ok f => Ok (Some f)
      | Raise (TypeError _) | Raise (ValueError _) => Ok None
      | Raise e => Raise e
      end
  end.

Definition format_number (num : value) : value :=
  match num with
  | VFloat f => if Flt.is_integer f then VInt (Flt.to_int f) else num
  | _ => num
  end.

(** One extracted record, the dictionary appended to [extracted_rows]. *)
Record item : Type := mk_item {
  product_key : str;
  order_id : value;
  product_name : value;
  quantity_display : value;
  row_index : nat
}.

(** The four collections the extraction loop fills. *)
Record aggregator : Type := mk_aggregator {
  extracted_rows : list item;
  product_totals : sdict float;
  product_has_numeric : sdict bool;
  product_display_names : sdict value
}.

Definition empty_aggregator : aggregator := mk_aggregator [] [] [] [].

(** [row[idx] if idx is not None and idx < len(row) else None]. *)
Definition cell_at (row : list value) (idx : option nat) : value :=
  match idx with
  | Some i => nth i row VNone
  | None => VNone
  end.

Fixpoint insert_sorted (n : Z) (l : list Z) : list Z :=
  match l with
  | [] => [n]
  | m :: t =>
      if Z.ltb n m then n :: l
      else if Z.eqb n m then l
      else m :: insert_sorted n t
  end.

(** [sorted(set(product_name_cols) | set(quantity_cols))]. *)
Definition group_numbers (cols : columns) : list Z :=
  fold_right insert_sorted []
    (Dict.keys (product_name_cols cols) ++ Dict.keys (quantity_cols cols)).

(** What the loop does for a group of a row that is not skipped: the three
    dictionaries are updated and a record is appended. *)
Definition add_record (st : aggregator) (oid name qty_raw : value)
           (qty_value : option float) : aggregator :=
  let key := normalize_product_name name in
  let names :=
    if negb (Str.is_empty key)
       && negb (Dict.mem Str.eqb (product_display_names st) key)
    then sset (product_display_names st) key name
    else product_display_names st in
  let totals :=
    match qty_value with
    | Some q =>
        sset (product_totals st) key
          (PrimFloat.add
             (Dict.get_default Str.eqb (product_totals st) key 0%float) q)
    | None => Dict.setdefault Str.eqb (product_totals st) key 0%float
    end in
  let numeric :=
    match qty_value with
    | Some _ => sset (product_has_numeric st) key true
    | None => product_has_numeric st
    end in
  let display :=
    match qty_value with
    | Some q => format_number (VFloat q)
    | None => qty_raw
    end in
  mk_aggregator
    (extracted_rows st
       ++ [mk_item key oid name display (List.length (extracted_rows st))])
    totals numeric names.

(** The cells of group [num] in a row: product name and quantity. *)
Definition name_cell (cols : columns) (row : list value) (num : Z) : value :=
  cell_at row (zget (product_name_cols cols) num).

Definition qty_cell (cols : columns) (row : list value) (num : Z) : value :=
  cell_at row (zget (quantity_cols cols) num).

(** The body of the loop over the group numbers of one row. *)
Definition extract_group (cols : columns) (row : list value) (oid : value)
           (st : aggregator) (num : Z) : outcome aggregator :=
  let name := name_cell cols row num in
  let qty_raw := qty_cell cols row num in
  qty_value <- parse_quantity qty_raw ;;
  if is_none name && is_none qty_raw then Ok st
  else Ok (add_record st oid name qty_raw qty_value).

(** The body of the loop over the data rows.  [order_col] has been set when
    this loop runs. *)
Definition extract_row (cols : columns) (st : aggregator) (row : list value)
  : outcome aggregator :=
  let oid := cell_at row (order_col cols) in
  if is_none oid then Ok st
  else for_each (extract_group cols row oid) (group_numbers cols) st.

Definition extract_rows (cols : columns) (rows : list (list value))
  : outcome aggregator :=
  for_each (extract_row cols) rows empty_aggregator.

(** ** Ordering of the records *)

(** The text of the single code point U+FFFF. *)
Definition sentinel : str := [65535%N].

Definition sort_key (it : item) : str * str * nat :=
  (if Str.is_empty (product_key it) then sentinel else product_key it,
   py_str (order_id it),
   row_index it).

(** [<] on the key tuples: the first components that differ decide. *)
Definition tuple_ltb (a b : str * str * nat) : bool :=
  let '(a1, a2, a3) := a in
  let '(b1, b2, b3) := b in
  if Str.eqb a1 b1 then
    if Str.eqb a2 b2 then Nat.ltb a3 b3 else Str.ltb a2 b2
  else Str.ltb a1 b1.

Definition sort_rows (rows : list item) : list item :=
  sort_by tuple_ltb sort_key false rows.

(** ** The grouped sheet *)

Definition total_for_product_key (st : aggregator) (key : str) : value :=
  match sget (product_has_numeric st) key with
  | Some true =>
      format_number
        match sget (product_totals st) key with
        | Some total => VFloat total
        | None => VNone
        end
  | _ => VNone
  end.

(** A merged range: first row, first column, last row, last column. *)
Definition cell_range : Type := (nat * nat * nat * nat)%type.

(** The sheet being written and the three variables of the writing loop.
    [current_product_key] and [group_start_row] are set together. *)
Record writer : Type := mk_writer {
  sheet_rows : list (list value);
  merged_cells : list cell_range;
  current_product_key : option str;
  group_start_row : option nat;
  excel_row : nat
}.

(** [sheet.cell(row, column).value = v], rows and columns counted from 1. *)
Definition set_cell (rows : list (list value)) (row col : nat) (v : value)
  : list (list value) :=
  list_set [] (row - 1)
    (list_set VNone (col - 1) v (nth (row - 1) rows [])) rows.

Definition finalize_group (st : aggregator) (w : writer) (key : str)
           (start_row end_row : nat) : writer :=
  let total_display := total_for_product_key st key in
  mk_writer
    (set_cell (sheet_rows w) start_row 4 total_display)
    (if Nat.ltb start_row end_row
     then merged_cells w ++ [(start_row, 4, end_row, 4)]
     else merged_cells w)
    (current_product_key w) (group_start_row w) (excel_row w).

(** The row the open group starts on ([group_start_row] is set whenever
    [current_product_key] is). *)
Definition start_of (w : writer) : nat :=
  match group_start_row w with Some r => r | None => 0 end.

(** The body of the loop over the sorted records. *)
Definition write_item (st : aggregator) (w : writer) (it : item) : writer :=
  let key := product_key it in
  let w1 :=
    match current_product_key w with
    | None =>
        mk_writer (sheet_rows w) (merged_cells w) (Some key)
                  (Some (excel_row w)) (excel_row w)
    | Some current =>
        if Str.eqb key current then w
        else
          let w' :=
            finalize_group st w current (start_of w) (excel_row w - 1) in
          mk_writer (sheet_rows w') (merged_cells w') (Some key)
                    (Some (excel_row w)) (excel_row w)
    end in
  mk_writer
    (sheet_rows w1
       ++ [[order_id it; product_name it; quantity_display it; VNone]])
    (merged_cells w1) (current_product_key w1) (group_start_row w1)
    (excel_row w1 + 1).

(** The names of the columns with a blank for each underscore, in title
    case. *)
Definition header_titles : list value :=
  map (fun col => VStr (txt (Asc.title (Asc.replace_char "_" " " col))))
      DESIRED_COLUMNS.

(** Header on row 1, so the first record goes to row 2. *)
Definition new_writer : writer := mk_writer [header_titles] [] None None 2.

(** What follows the loop: the group still open is finalized. *)
Definition finalize_last (st : aggregator) (w : writer) : writer :=
  match current_product_key w, group_start_row w with
  | Some key, Some start_row =>
      finalize_group st w key start_row (excel_row w - 1)
  | _, _ => w
  end.

Definition write_rows (st : aggregator) (rows : list item) : writer :=
  finalize_last st (fold_left (write_item st) rows new_writer).

(** ** The summary sheet *)

(** [sum(product_totals.values())]: the sum starts from the integer 0 and
    adds the totals one after the other.  (From Python 3.12 on [sum]
    compensates the rounding errors of the additions; this one cell of the
    summary aside, nothing depends on it.) *)
Definition sum_values (totals : list float) : value :=
  match totals with
  | [] => VInt 0
  | _ => VFloat (fold_left PrimFloat.add totals 0%float)
  end.

(** The pairs appended to [summary_rows], before they are sorted. *)
Definition summary_entry (st : aggregator) (entry : str * float)
  : list (value * float) :=
  let '(key, total) := entry in
  if Str.is_empty key then []
  else
    match sget (product_has_numeric st) key with
    | Some true =>
        [(Dict.get_default Str.eqb (product_display_names st) key (VStr key),
          total)]
    | _ => []
    end.

Definition summary_rows (st : aggregator) : list (value * float) :=
  sort_by PrimFloat.ltb snd true
          (flat_map (summary_entry st) (product_totals st)).

Definition best_selling (ranked : list (value * float)) : list (list value) :=
  match ranked with
  | [] => []
  | (best_name, best_total) :: _ =>
      [ [];
        [VStr (txt "Best-selling product"); best_name];
        [VStr (txt "Sales amount (numeric)");
         format_number (VFloat best_total)] ]
  end.

Definition summary_sheet (st : aggregator) : list (list value) :=
  [ [VStr (txt "Output Summary")];
    [VStr (txt "Total quantity (numeric)");
     format_number (sum_values (Dict.values (product_totals st)))];
    [VStr (txt "Unique products");
     VInt (Z.of_nat
             (List.length
                (filter (fun k => negb (Str.is_empty k))
                        (Dict.keys (product_totals st)))))];
    [];
    [VStr (txt "Product name"); VStr (txt "Total quantity (numeric)")] ]
  ++ map (fun '(name, total) => [name; format_number (VFloat total)])
         (summary_rows st)
  ++ best_selling (summary_rows st).

(** ** The transformation *)

(** The active sheet of the workbook read: its first row and the rows below. *)
Record worksheet : Type := mk_worksheet {
  header_cells : list value;
  data_rows : list (list value)
}.

(** The workbook saved: the sheet Cleaned with its merged ranges, and the
    sheet Summary. *)
Record workbook : Type := mk_workbook {
  cleaned : list (list value);
  cleaned_merges : list cell_range;
  summary : list (list value)
}.

Definition build_workbook (st : aggregator) : workbook :=
  let w := write_rows st (sort_rows (extracted_rows st)) in
  mk_workbook (sheet_rows w) (merged_cells w) (summary_sheet st).

(** Header resolution and the pass over the data rows. *)
Definition aggregate (sheet : worksheet) : outcome aggregator :=
  cols <- resolve_headers (header_cells sheet) ;;
  extract_rows cols (data_rows sheet).

(** [file] is [None] when there is no file at the path given. *)
Definition clean_excel (file : option worksheet) : outcome workbook :=
  match file with
  | None => Raise (FileNotFoundError "File not found")
  | Some sheet =>
      st <- aggregate sheet ;;
      Ok (build_workbook st)
  end.

(** ** Column widths *)

(** The text a cell is measured by: [str(value).replace(newline, blank)],
    stripped. *)
Definition measured_text (v : value) : str :=
  Str.strip (Str.replace_char 10 32 (py_str v)).

(** The loop over the rows of a sheet for column [col_idx], counted from 1:
    the value of [max_len] when it ends.  The length of a text is the number
    of its code points. *)
Definition longest_text (rows : list (list value)) (col_idx : nat) : nat :=
  fold_left
    (fun max_len row =>
       let v := nth (col_idx - 1) row VNone in
       if is_none v then max_len
       else
         let n := List.length (measured_text v) in
         if Nat.ltb max_len n then n else max_len)
    rows 0.

(** The widths given to the columns 1 to 4, in this order. *)
Definition autosize_columns (rows : list (list value))
           (min_width max_width padding : nat) : list nat :=
  map (fun col_idx =>
         Nat.max min_width
                 (Nat.min max_width (longest_text rows col_idx + padding)))
      (seq 1 (List.length DESIRED_COLUMNS)).

(** The call on the sheet Cleaned: [max_width] is 80, the other two
    parameters keep their defaults. *)
Definition cleaned_widths (wb : workbook) : list nat :=
  autosize_columns (cleaned wb) 8 80 2.

(** ** The name of the file written *)

(** [name.rfind(dot)]: the place of the last dot of a name. *)
Fixpoint rfind_dot (name : str) : option nat :=
  match name with
  | [] => None
  | c :: t =>
      match rfind_dot t with
      | Some i => Some (S i)
      | None => if N.eqb c 46 then Some 0 else None
      end
  end.

(** [Path.stem] of a path whose last component is [name]: the name without
    its last suffix.  A dot at either end of the name starts no suffix (from
    Python 3.14 on a dot at the end does). *)
Definition stem (name : str) : str :=
  match rfind_dot name with
  | Some i =>
      if Nat.ltb 0 i && Nat.ltb i (List.length name - 1)
      then firstn i name
      else name
  | None => name
  end.

(** The name of the workbook saved, from the last component of the path of
    the workbook read. *)
Definition output_name (name : str) : str :=
  stem name ++ txt "_cleaned.xlsx".

(** * Vocabulary of the properties

    The notions the statements below are written with, and the sheets they
    are tried on. *)

(** ** The Unicode tables *)

(** The code points of the ranges of a table, one after the other. *)
Definition points (ranges : list (N * N)) : list N :=
  flat_map (fun '(first, last) =>
              map (fun i => (first + N.of_nat i)%N)
                  (seq 0 (S (N.to_nat (last - first)))))
           ranges.

(** The code points [str.lower] gives for those it changes into one other
    code point. *)
Definition lower_images (ranges : list (N * N * N * N)) : list N :=
  flat_map (fun '(first, count, step, image) =>
              map (fun i => (image + step * N.of_nat i)%N)
                  (seq 0 (N.to_nat count)))
           ranges.

(** A code point that [str.lower] leaves as it is, wherever it stands: it
    has no other lower case, and is not the capital sigma. *)
Definition lower_fixed (c : N) : bool :=
  Str.eqb (Uni.lower_full c) [c] && negb (N.eqb c 931).

(** What [str.lower] puts for a code point, given what stands around it. *)
Definition lower_chunk (cased_behind : bool) (c : N) (t : str) : str :=
  if N.eqb c 931
  then [if cased_behind && negb (Str.cased_ahead t) then 962 else 963]%N
  else Uni.lower_full c.

(** ** Header normalization *)

(** A code point of a header key: no separator, and in lower case. *)
Definition key_char (c : N) : bool :=
  negb (header_separator c) && lower_fixed c.

(** The alias table applied to a key, [HEADER_ALIASES.get(key, key)]. *)
Definition alias (key : str) : str :=
  Dict.get_default Str.eqb HEADER_ALIASES key key.

(** ** Header resolution *)

Definition starts_with_digit (s : str) : bool :=
  match s with
  | c :: _ => Str.is_digit c
  | [] => false
  end.

(** The group the digits after a prefix name: their number, and group 1
    when there are none. *)
Definition group_of (digits : str) : Z :=
  if Str.is_empty digits then 1%Z else Str.int_of_digits digits.

(** A header with the key productname followed by [n] digits 1. *)
Definition long_header (n : nat) : value :=
  VStr (txt "productname" ++ repeat 49%N n).

(** A header cell that resolves to the order id role. *)
Definition is_order_id_header (cell : value) : bool :=
  match normalize_header (py_or cell (VStr [])) with
  | Ok key => Str.eqb key (txt "order_id")
  | Raise _ => false
  end.

(** ** Row extraction *)

(** A group of a row whose product name and quantity cells are both empty. *)
Definition group_is_empty (cols : columns) (row : list value) (num : Z)
  : bool :=
  is_none (name_cell cols row num) && is_none (qty_cell cols row num).

(** The number a quantity cell stands for, when it has one. *)
Definition numeric (qty_raw : value) : option float :=
  match parse_quantity qty_raw with
  | Ok q => q
  | Raise _ => None
  end.

(** What is shown for a quantity cell. *)
Definition display_of (qty_raw : value) : value :=
  match numeric qty_raw with
  | Some q => format_number (VFloat q)
  | None => qty_raw
  end.

(** The record of group [num] of a row with order id [oid], but for its
    sequence number. *)
Definition record_of (cols : columns) (row : list value) (oid : value)
           (num : Z) (it : item) : Prop :=
  order_id it = oid
  /\ product_name it = name_cell cols row num
  /\ product_key it = normalize_product_name (name_cell cols row num)
  /\ quantity_display it = display_of (qty_cell cols row num).

Definition sample_columns : columns :=
  mk_columns [(1%Z, 1); (2%Z, 3)] [(1%Z, 2)] (Some 0).

Definition sample_row : list value :=
  [VInt 7; VStr (txt "Widget"); VInt 3; VNone].

(** ** Aggregation *)

(** The groups the extraction loop does not skip, in the order it meets
    them: order id, product name cell and quantity cell. *)
Definition event : Type := (value * value * value)%type.

Definition row_events (cols : columns) (row : list value) : list event :=
  let oid := cell_at row (order_col cols) in
  if is_none oid then []
  else map (fun num => (oid, name_cell cols row num, qty_cell cols row num))
           (filter (fun num => negb (group_is_empty cols row num))
                   (group_numbers cols)).

Definition events (cols : columns) (rows : list (list value)) : list event :=
  flat_map (row_events cols) rows.

Definition event_key (e : event) : str :=
  let '(_, name, _) := e in normalize_product_name name.

Definition event_number (e : event) : option float :=
  let '(_, _, qty_raw) := e in numeric qty_raw.

Definition record_event (st : aggregator) (e : event) : aggregator :=
  let '(oid, name, qty_raw) := e in
  add_record st oid name qty_raw (numeric qty_raw).

(** The record an event leaves, given its sequence number. *)
Definition event_item (e : event) (index : nat) : item :=
  let '(oid, name, qty_raw) := e in
  mk_item (normalize_product_name name) oid name (display_of qty_raw) index.

(** The quantities of the records of a key that are numbers, in order. *)
Definition numeric_quantities (key : str) (evs : list event) : list float :=
  flat_map (fun e =>
              if Str.eqb (event_key e) key then
                match event_number e with
                | Some q => [q]
                | None => []
                end
              else [])
           evs.

(** The records after a run of events: one per event, numbered in a row. *)
Fixpoint items_from (index : nat) (evs : list event) : list item :=
  match evs with
  | [] => []
  | e :: rest => event_item e index :: items_from (S index) rest
  end.

Definition scenario_columns : columns :=
  mk_columns [(1%Z, 1)] [(1%Z, 2)] (Some 0).

Definition scenario_rows : list (list value) :=
  [ [VInt 1; VStr (txt "Widget"); VInt 3];
    [VInt 2; VStr (txt "widget"); VInt 2];
    [VInt 3; VStr (txt "Gadget"); VNone] ].

Definition scenario_state : aggregator :=
  mk_aggregator
    [ mk_item (txt "widget") (VInt 1) (VStr (txt "Widget")) (VInt 3) 0;
      mk_item (txt "widget") (VInt 2) (VStr (txt "widget")) (VInt 2) 1;
      mk_item (txt "gadget") (VInt 3) (VStr (txt "Gadget")) VNone 2 ]
    [(txt "widget", 5%float); (txt "gadget", 0%float)]
    [(txt "widget", true)]
    [(txt "widget", VStr (txt "Widget")); (txt "gadget", VStr (txt "Gadget"))].

(** ** The grouped sheet *)

(** The decomposition of a list of records into runs of equal product key. *)
Fixpoint runs (l : list item) : list (list item) :=
  match l with
  | [] => []
  | x :: t =>
      match runs t with
      | (y :: r) :: rs =>
          if Str.eqb (product_key x) (product_key y)
          then (x :: y :: r) :: rs
          else [x] :: (y :: r) :: rs
      | _ => [[x]]
      end
  end.

(** Every run is a record followed by records of the same key. *)
Definition is_run (r : list item) : Prop :=
  exists x rest,
    r = x :: rest /\ Forall (fun y => product_key y = product_key x) rest.

(** No run can be extended: neighbours differ in their key. *)
Fixpoint maximal (rs : list (list item)) : Prop :=
  match rs with
  | r1 :: (r2 :: _) as rest =>
      (forall x y, In x r1 -> In y r2 -> product_key x <> product_key y)
      /\ maximal rest
  | _ => True
  end.

Definition plain_row (it : item) : list value :=
  [order_id it; product_name it; quantity_display it; VNone].

(** The rows of a run: the total of its key in the first, nothing below. *)
Definition render_run (st : aggregator) (r : list item) : list (list value) :=
  match r with
  | [] => []
  | it :: rest =>
      [order_id it; product_name it; quantity_display it;
       total_for_product_key st (product_key it)]
      :: map plain_row rest
  end.

(** The merged ranges of the runs, the first run starting on row [start]. *)
Fixpoint merges_from (start : nat) (rs : list (list item)) : list cell_range :=
  match rs with
  | [] => []
  | r :: rest =>
      (if Nat.leb 2 (List.length r)
       then [(start, 4, start + List.length r - 1, 4)]
       else [])
      ++ merges_from (start + List.length r) rest
  end.

(** ** Sorting *)

(** The insertion sort behind [sort_by]. *)
Definition isort {A : Type} (before : A -> A -> bool) (l : list A) : list A :=
  fold_right (insert_by before) [] l.

(** [x] may stay in front of [y]. *)
Definition in_order {A : Type} (before : A -> A -> bool) (x y : A) : Prop :=
  before y x = false.

(** ** The order of floats *)

(** A float that is not a NaN, placed in the lexicographic order of three
    integers: sign class, then exponent and mantissa. *)
Definition sf_rank (x : spec_float) : Z * Z * Z :=
  match x with
  | S754_zero _ => (0, 0, 0)
  | S754_infinity s => (if s then -2 else 2, 0, 0)
  | S754_nan => (0, 0, 0)
  | S754_finite s m e => if s then (-1, - e, - Zpos m) else (1, e, Zpos m)
  end%Z.

Definition lex_lt (a b : Z * Z * Z) : Prop :=
  let '(a1, a2, a3) := a in
  let '(b1, b2, b3) := b in
  (a1 < b1 \/ (a1 = b1 /\ (a2 < b2 \/ (a2 = b2 /\ a3 < b3))))%Z.

(** ** The summary *)

Definition total_of (st : aggregator) (key : str) : float :=
  Dict.get_default Str.eqb (product_totals st) key 0%float.

Definition display_name_of (st : aggregator) (key : str) : value :=
  Dict.get_default Str.eqb (product_display_names st) key (VStr key).

(** A key that enters the ranking: not empty, and seen with a number. *)
Definition is_ranked (st : aggregator) (key : str) : bool :=
  negb (Str.is_empty key)
  && match sget (product_has_numeric st) key with
     | Some true => true
     | _ => false
     end.

(** The keys of the ranking, in its order. *)
Definition ranked_keys (st : aggregator) : list str :=
  sort_by PrimFloat.ltb (total_of st) true
          (filter (is_ranked st) (Dict.keys (product_totals st))).

Definition summary_pair (st : aggregator) (key : str) : value * float :=
  (display_name_of st key, total_of st key).

(** The five rows the summary sheet starts with. *)
Definition summary_head (st : aggregator) : list (list value) :=
  [ [VStr (txt "Output Summary")];
    [VStr (txt "Total quantity (numeric)");
     format_number (sum_values (Dict.values (product_totals st)))];
    [VStr (txt "Unique products");
     VInt (Z.of_nat
             (List.length
                (filter (fun k => negb (Str.is_empty k))
                        (Dict.keys (product_totals st)))))];
    [];
    [VStr (txt "Product name"); VStr (txt "Total quantity (numeric)")] ].

Definition ranked_row (entry : value * float) : list value :=
  [fst entry; format_number (VFloat (snd entry))].

Definition best_selling_rows (ranked : list (value * float))
  : list (list value) :=
  match ranked with
  | [] => []
  | best :: _ =>
      [ [];
        [VStr (txt "Best-selling product"); fst best];
        [VStr (txt "Sales amount (numeric)");
         format_number (VFloat (snd best))] ]
  end.

(** Rows with four products: Widget sells 3 and 2, Gadget 5, Bolt 7, and
    Nut has no quantity. *)
Definition ranking_rows : list (list value) :=
  [ [VInt 1; VStr (txt "Widget"); VInt 3];
    [VInt 2; VStr (txt "Gadget"); VInt 5];
    [VInt 3; VStr (txt "widget"); VInt 2];
    [VInt 4; VStr (txt "Bolt"); VInt 7];
    [VInt 5; VStr (txt "Nut"); VNone] ].

Definition ranking_state : aggregator :=
  match extract_rows scenario_columns ranking_rows with
  | Ok st => st
  | Raise _ => empty_aggregator
  end.

(** The product keys that can enter the ranking, in the order in which the
    aggregator iterates over its keys. *)
Definition ranking_candidates (st : aggregator) : list str :=
  filter (is_ranked st) (Dict.keys (product_totals st)).

(** The ranked list descends by total. *)
Definition descending (ranked : list (value * float)) : Prop :=
  StronglySorted (fun a b => PrimFloat.leb (snd b) (snd a) = true) ranked.

(** The keys with the total [t], among [keys]. *)
Definition with_total (st : aggregator) (t : float) (keys : list str)
  : list str :=
  filter (fun key => PrimFloat.eqb t (total_of st key)) keys.

(** A sheet where the quantity of product a is the text nan, which [float]
    reads as a NaN. *)
Definition nan_sheet : worksheet :=
  mk_worksheet
    [VStr (txt "id"); VStr (txt "Product Name"); VStr (txt "Quantity")]
    [ [VInt 1; VStr (txt "b"); VInt 1];
      [VInt 2; VStr (txt "a"); VStr (txt "nan")];
      [VInt 3; VStr (txt "c"); VInt 2] ].

(** ** The order of the records *)

(** A sheet with a quantity that has no product name and a product whose
    name starts with the code point U+1F600, outside the basic multilingual
    plane. *)
Definition emoji_sheet : worksheet :=
  mk_worksheet
    [VStr (txt "id"); VStr (txt "Product Name"); VStr (txt "Quantity")]
    [ [VInt 1; VNone; VInt 1];
      [VInt 2; VStr (128512%N :: txt " Party"); VInt 4];
      [VInt 3; VStr (txt "apple"); VFloat 2.5] ].

(** ** The order of texts and of sort keys *)

(** The record [a] may be written before the record [b]. *)
Definition key_order (a b : item) : Prop :=
  tuple_ltb (sort_key b) (sort_key a) = false.

(** ** Errors on regular sheets *)

Definition is_some {A : Type} (o : option A) : bool :=
  match o with Some _ => true | None => false end.

(** A header cell that gets a product name or a quantity role. *)
Definition is_product_header (cell : value) : bool :=
  match normalize_header (py_or cell (VStr [])) with
  | Ok key => is_some (name_match key) || is_some (qty_match key)
  | Raise _ => false
  end.

Definition has_product_cols (cols : columns) : bool :=
  match product_name_cols cols, quantity_cols cols with
  | [], [] => false
  | _, _ => true
  end.

(** A header cell that holds a text, or a value that is false as a condition
    (an empty cell is one), for which the loop takes the empty text. *)
Definition header_is_text (cell : value) : Prop :=
  truthy cell = false \/ exists s, cell = VStr s.

(** The number of decimal digits of a text. *)
Definition digit_count (s : str) : nat :=
  List.length (filter Str.is_digit s).

(** A header cell whose text holds no more digits than [int] reads. *)
Definition header_in_limit (cell : value) : Prop :=
  forall s, cell = VStr s -> (Z.of_nat (digit_count s) <= max_str_digits)%Z.

(** A cell that is not an integer too large for a float. *)
Definition fits_float (cell : value) : Prop :=
  forall n, cell = VInt n -> Flt.of_int n <> None.

Definition scenario_sheet : worksheet :=
  mk_worksheet
    [VStr (txt "id"); VStr (txt "Product Name"); VStr (txt "Quantity")]
    scenario_rows.

(** The code points of the literals of a statement, written out. *)
Ltac literals :=
  repeat match goal with
         | |- context [txt ?s] =>
             let v := eval vm_compute in (txt s) in change (txt s) with v
         end.

Ltac regular_cell :=
  let n := fresh "n" in
  let H := fresh "H" in
  intros n H; inversion H; subst; vm_compute; discriminate.

(** ** Encounter order and display names *)

(** The keys of a stream in the order in which each is met first, the keys
    [seen] apart. *)
Fixpoint first_seen (seen : list str) (keys : list str) : list str :=
  match keys with
  | [] => []
  | k :: rest =>
      if existsb (Str.eqb k) seen then first_seen seen rest
      else k :: first_seen (seen ++ [k]) rest
  end.

(** The product name cell of the first event of a key. *)
Definition first_name (key : str) (evs : list event) : option value :=
  match find (fun e => Str.eqb (event_key e) key) evs with
  | Some (_, name, _) => Some name
  | None => None
  end.

(** ** Product keys *)

Definition starts_with_blank (s : str) : bool :=
  match s with
  | c :: _ => Str.is_space c
  | [] => false
  end.

(** A text in lower case in which all white space is single blanks, each
    followed by a code point that is no white space. *)
Fixpoint key_form (s : str) : bool :=
  match s with
  | [] => true
  | c :: t =>
      (if Str.is_space c
       then N.eqb c 32 && negb (Str.is_empty t)
            && negb (starts_with_blank t)
       else lower_fixed c)
      && key_form t
  end.

(** The form of a product key: words in lower case, one blank between two
    words, no white space at either end. *)
Definition is_product_key (s : str) : bool :=
  negb (starts_with_blank s) && key_form s.

(** ** Groups of the headers *)

(** The group a header cell names the product of, and the group it gives the
    quantity of, when the loop over the header cells gives it that role. *)
Definition group_of_match (matched : option str) : option Z :=
  match matched with
  | Some digits =>
      match group_number digits with
      | Ok num => Some num
      | Raise _ => None
      end
  | None => None
  end.

Definition name_group (cell : value) : option Z :=
  match normalize_header (py_or cell (VStr [])) with
  | Ok key =>
      if Str.eqb key (txt "order_id") then None
      else group_of_match (name_match key)
  | Raise _ => None
  end.

Definition quantity_group (cell : value) : option Z :=
  match normalize_header (py_or cell (VStr [])) with
  | Ok key =>
      if Str.eqb key (txt "order_id") then None
      else group_of_match (qty_match key)
  | Raise _ => None
  end.

(** Cell [i] of the header row has the role [role] for group [n], and no
    cell to its right has. *)
Definition last_with (role : value -> option Z) (n : Z) (header : list value)
           (i : nat) : Prop :=
  (exists cell, nth_error header i = Some cell /\ role cell = Some n)
  /\ forall j cell,
       i < j -> nth_error header j = Some cell -> role cell <> Some n.

(** ** Products in the sorted records *)

(** Order ids 9, 10 and 100 of one product, and another product between
    them in the sheet read. *)
Definition order_id_records : list item :=
  [ mk_item (txt "widget") (VInt 9) (VStr (txt "Widget")) (VInt 1) 0;
    mk_item (txt "gadget") (VInt 5) (VStr (txt "Gadget")) (VInt 1) 1;
    mk_item (txt "widget") (VInt 10) (VStr (txt "Widget")) (VInt 1) 2;
    mk_item (txt "widget") (VInt 100) (VStr (txt "Widget")) (VInt 1) 3 ].

(** ** Merged ranges *)

Definition first_row (r : cell_range) : nat := let '(a, _, _, _) := r in a.
Definition last_row (r : cell_range) : nat := let '(_, _, c, _) := r in c.
Definition first_column (r : cell_range) : nat := let '(_, b, _, _) := r in b.
Definition last_column (r : cell_range) : nat := let '(_, _, _, d) := r in d.

(** A range of two rows or more of the fourth column, between the rows
    [low] and [high]. *)
Definition total_range (low high : nat) (r : cell_range) : Prop :=
  first_column r = 4 /\ last_column r = 4
  /\ low <= first_row r /\ first_row r < last_row r /\ last_row r <= high.

(** The range [a] ends above the row where the range [b] starts. *)
Definition above (a b : cell_range) : Prop := last_row a < first_row b.

(** ** Column widths *)

(** The cells of column [c], counted from 0, that hold a value. *)
Definition column_cells (rows : list (list value)) (c : nat) : list value :=
  filter (fun v => negb (is_none v)) (map (fun row => nth c row VNone) rows).

(** The width a cell asks for: the length of its text and 2 more, 80 at
    most. *)
Definition cell_width (v : value) : nat :=
  Nat.min 80 (List.length (measured_text v) + 2).

(** ** Exact integers *)

(** The float of an integer, [float(n)] when the integer is not too large. *)
Definition int_float (n : Z) : float :=
  SF2Prim (binary_normalize prec emax n 0 false).

(** An integer below 2^53 in absolute value: a float holds it exactly. *)
Definition exact_int (n : Z) : Prop := (Z.abs n < 2 ^ 53)%Z.

(** [m * 2^j] for a shift [j] that is not negative. *)
Definition shift_left (m : positive) (j : Z) : positive :=
  match j with
  | Zpos j' => Pos.iter xO m j'
  | _ => m
  end.

(** The float with the value of [m] and the sign [s]: the mantissa is
    [m] shifted to 53 bits. *)
Definition canonical (s : bool) (m : positive) : spec_float :=
  S754_finite s
    (shift_left m (53 - Zpos (digits2_pos m)))
    (Zpos (digits2_pos m) - 53).

Definition canonical_int (n : Z) : spec_float :=
  match n with
  | Z0 => S754_zero false
  | Zpos m => canonical false m
  | Zneg m => canonical true m
  end.

(** The integer a cell holds: an [int], or a text made of digits. *)
Definition integer_cell (v : value) : option Z :=
  match v with
  | VInt n => Some n
  | VStr s =>
      if negb (Str.is_empty s) && forallb Str.is_digit s
      then Some (Str.int_of_digits s)
      else None
  | _ => None
  end.

(** The quantity cells of the records of a product that are not empty. *)
Definition quantity_cells (key : str) (evs : list event) : list value :=
  flat_map (fun e =>
              let '(_, _, qty_raw) := e in
              if Str.eqb (event_key e) key && negb (is_none qty_raw)
              then [qty_raw] else [])
           evs.

(** The sums of the first one, the first two, ... of the numbers. *)
Fixpoint running_sums (start : Z) (ns : list Z) : list Z :=
  match ns with
  | [] => []
  | n :: rest => (start + n)%Z :: running_sums (start + n)%Z rest
  end.

Definition sum_of (ns : list Z) : Z := fold_left Z.add ns 0%Z.

(** ** The rows of the sheet Cleaned *)

(** The first three cells a record is written with. *)
Definition record_cells (it : item) : list value :=
  [order_id it; product_name it; quantity_display it].

(** The first three cells a group that is not skipped is written with. *)
Definition event_cells (e : event) : list value :=
  let '(oid, name, qty_raw) := e in [oid; name; display_of qty_raw].

(** * Properties *)

(** ** Dictionaries *)

Section DictFacts.
Context {K V : Type} (eqb : K -> K -> bool).
Hypothesis eqb_eq : forall a b, eqb a b = true <-> a = b.

Lemma eqb_same : forall a, eqb a a = true.
Proof. intros a. apply eqb_eq. reflexivity. Qed.

Lemma eqb_sym : forall a b, eqb a b = eqb b a.
Proof.
  intros a b. destruct (eqb a b) eqn:E1, (eqb b a) eqn:E2; try reflexivity.
  - apply eqb_eq in E1. subst. rewrite eqb_same in E2. discriminate.
  - apply eqb_eq in E2. subst. rewrite eqb_same in E1. discriminate.
Qed.

Lemma get_set_same : forall (d : list (K * V)) k v,
  Dict.get eqb (Dict.set eqb d k v) k = Some v.
Proof.
  induction d as [|[k' v'] d IH]; intros k v; simpl.
  - rewrite eqb_same. reflexivity.
  - destruct (eqb k k') eqn:E; simpl; rewrite E; auto.
Qed.

Lemma get_set_other : forall (d : list (K * V)) k k' v,
  k <> k' -> Dict.get eqb (Dict.set eqb d k v) k' = Dict.get eqb d k'.
Proof.
  induction d as [|[k0 v0] d IH]; intros k k' v Hne; simpl.
  - destruct (eqb k' k) eqn:E; [|reflexivity].
    apply eqb_eq in E. congruence.
  - destruct (eqb k k0) eqn:E; simpl.
    + apply eqb_eq in E. subst k0.
      destruct (eqb k' k) eqn:E'; [|reflexivity].
      apply eqb_eq in E'. congruence.
    + destruct (eqb k' k0); auto.
Qed.

Lemma get_In_keys : forall (d : list (K * V)) k,
  Dict.get eqb d k <> None <-> In k (Dict.keys d).
Proof.
  induction d as [|[k0 v0] d IH]; intros k; simpl.
  - split; [congruence | tauto].
  - destruct (eqb k k0) eqn:E.
    + apply eqb_eq in E. subst. split; [auto | congruence].
    + rewrite IH. split; [auto|]. intros [H|H]; [|exact H].
      subst. rewrite eqb_same in E. discriminate.
Qed.

Lemma keys_set : forall (d : list (K * V)) k v,
  Dict.keys (Dict.set eqb d k v)
  = if Dict.mem eqb d k then Dict.keys d else Dict.keys d ++ [k].
Proof.
  unfold Dict.mem.
  induction d as [|[k0 v0] d IH]; intros k v; simpl.
  - reflexivity.
  - destruct (eqb k k0) eqn:E; simpl; [reflexivity|].
    rewrite IH. destruct (Dict.get eqb d k); reflexivity.
Qed.

Lemma keys_setdefault : forall (d : list (K * V)) k v,
  Dict.keys (Dict.setdefault eqb d k v)
  = if Dict.mem eqb d k then Dict.keys d else Dict.keys d ++ [k].
Proof.
  intros d k v. unfold Dict.setdefault.
  destruct (Dict.mem eqb d k) eqn:E; [reflexivity|].
  rewrite keys_set, E. reflexivity.
Qed.

Lemma get_setdefault : forall (d : list (K * V)) k k' v,
  Dict.get eqb (Dict.setdefault eqb d k v) k'
  = match Dict.get eqb d k' with
    | Some x => Some x
    | None => if eqb k k' then Some v else None
    end.
Proof.
  intros d k k' v. unfold Dict.setdefault, Dict.mem.
  destruct (Dict.get eqb d k) eqn:G.
  - destruct (Dict.get eqb d k') eqn:G'; [reflexivity|].
    destruct (eqb k k') eqn:E; [|reflexivity].
    apply eqb_eq in E. congruence.
  - destruct (eqb k k') eqn:E.
    + apply eqb_eq in E. subst k'. rewrite get_set_same, G. reflexivity.
    + rewrite get_set_other.
      * destruct (Dict.get eqb d k'); reflexivity.
      * intros ->. rewrite eqb_same in E. discriminate.
Qed.

Lemma mem_false_not_In : forall (d : list (K * V)) k,
  Dict.mem eqb d k = false <-> ~ In k (Dict.keys d).
Proof.
  intros d k. rewrite <- get_In_keys. unfold Dict.mem.
  destruct (Dict.get eqb d k); split; intros H; try congruence.
  exfalso. apply H. congruence.
Qed.

Lemma NoDup_keys_set : forall (d : list (K * V)) k v,
  NoDup (Dict.keys d) -> NoDup (Dict.keys (Dict.set eqb d k v)).
Proof.
  intros d k v H. rewrite keys_set.
  destruct (Dict.mem eqb d k) eqn:E; [exact H|].
  apply mem_false_not_In in E.
  apply NoDup_rev in H. rewrite <- (rev_involutive (Dict.keys d ++ [k])).
  apply NoDup_rev. rewrite rev_app_distr. simpl. constructor.
  - rewrite <- in_rev. exact E.
  - exact H.
Qed.

Lemma get_of_In : forall (d : list (K * V)) k v,
  NoDup (Dict.keys d) -> In (k, v) d -> Dict.get eqb d k = Some v.
Proof.
  induction d as [|[k0 v0] d IH]; intros k v Hnd Hin; simpl in *.
  - contradiction.
  - inversion Hnd as [|? ? Hnot Hnd']; subst.
    destruct Hin as [Heq|Hin].
    + inversion Heq; subst. rewrite eqb_same. reflexivity.
    + destruct (eqb k k0) eqn:E.
      * apply eqb_eq in E. subst k0. exfalso. apply Hnot.
        change k with (fst (k, v)). apply in_map. exact Hin.
      * apply IH; assumption.
Qed.

End DictFacts.

(** ** Texts *)

Lemma str_eqb_eq : forall a b : str, Str.eqb a b = true <-> a = b.
Proof.
  induction a as [|x a IH]; intros [|y b]; cbn [Str.eqb];
    try (split; [discriminate | congruence]).
  - split; reflexivity.
  - rewrite andb_true_iff, N.eqb_eq, IH. split.
    + intros [-> ->]. reflexivity.
    + intros H. injection H as -> ->. split; reflexivity.
Qed.

Lemma str_eqb_refl : forall a : str, Str.eqb a a = true.
Proof. intros a. apply str_eqb_eq. reflexivity. Qed.

Lemma str_eqb_neq : forall a b : str, Str.eqb a b = false <-> a <> b.
Proof.
  intros a b. rewrite <- str_eqb_eq.
  destruct (Str.eqb a b); split; congruence.
Qed.

Lemma str_eqb_spec : forall a b : str, reflect (a = b) (Str.eqb a b).
Proof. intros a b. apply iff_reflect. symmetry. apply str_eqb_eq. Qed.

(** ** The Unicode tables *)

Lemma in_ranges_points : forall ranges c,
  Uni.in_ranges ranges c = true -> In c (points ranges).
Proof.
  intros ranges c H. unfold Uni.in_ranges in H.
  apply existsb_exists in H. destruct H as ([first last] & Hin & Hc).
  apply andb_true_iff in Hc. destruct Hc as [H1 H2].
  apply N.leb_le in H1, H2.
  unfold points. apply in_flat_map. exists (first, last). split; [exact Hin|].
  apply in_map_iff. exists (N.to_nat (c - first)). split; [lia|].
  apply in_seq. lia.
Qed.

Lemma lower_lookup_images : forall ranges c x,
  Uni.lower_lookup ranges c = Some x -> In x (lower_images ranges).
Proof.
  induction ranges as [|[[[first count] step] image] rest IH]; intros c x H;
    cbn [Uni.lower_lookup] in H; [discriminate|].
  cbn [lower_images flat_map]. apply in_or_app.
  destruct (N.leb first c && N.eqb ((c - first) mod step) 0
            && N.ltb ((c - first) / step) count)%N eqn:E.
  - left. injection H as <-.
    apply andb_true_iff in E. destruct E as [E E3].
    apply andb_true_iff in E. destruct E as [E1 E2].
    apply N.leb_le in E1. apply N.eqb_eq in E2. apply N.ltb_lt in E3.
    apply in_map_iff. exists (N.to_nat ((c - first) / step)). split.
    + rewrite N2Nat.id. f_equal.
      pose proof (N.Div0.div_mod (c - first) step) as Hd.
      rewrite E2, N.add_0_r in Hd. symmetry. exact Hd.
    + apply in_seq. remember ((c - first) / step)%N as q. lia.
  - right. exact (IH c x H).
Qed.

(** A code point that [str.lower] changes becomes code points that it
    leaves as they are, and that are neither white space nor digits. *)
Lemma lower_images_facts :
  forallb (fun x => lower_fixed x && negb (Str.is_space x)
                    && negb (Str.is_digit x))
          ([105; 775; 962; 963]%N ++ lower_images Uni.lower_ranges) = true.
Proof. vm_compute. reflexivity. Qed.

(** White space and digits have no other lower case. *)
Lemma space_points_fixed :
  forallb lower_fixed (points Uni.space_ranges) = true.
Proof. vm_compute. reflexivity. Qed.

Lemma decimal_points_facts :
  forallb (fun c => lower_fixed c && negb (Str.is_space c)
                    && (if N.ltb c 128 then N.leb 48 c && N.leb c 57 else true))
          (points Uni.decimal_ranges) = true.
Proof. vm_compute. reflexivity. Qed.

Lemma lower_full_cases : forall c x,
  In x (Uni.lower_full c) ->
  x = c /\ Uni.lower_full c = [c]
  \/ In x ([105; 775; 962; 963]%N ++ lower_images Uni.lower_ranges).
Proof.
  intros c x H. unfold Uni.lower_full in *.
  destruct (N.eqb c 304).
  - right. apply in_or_app. left.
    destruct H as [<-|[<-|[]]]; [left | right; left]; reflexivity.
  - destruct (Uni.lower_lookup Uni.lower_ranges c) as [image|] eqn:E.
    + right. destruct H as [<-|[]]. apply in_or_app. right.
      eapply lower_lookup_images. exact E.
    + left. destruct H as [<-|[]]. split; reflexivity.
Qed.

Lemma image_facts : forall x,
  In x ([105; 775; 962; 963]%N ++ lower_images Uni.lower_ranges) ->
  lower_fixed x = true /\ Str.is_space x = false /\ Str.is_digit x = false.
Proof.
  intros x H.
  pose proof (proj1 (forallb_forall _ _) lower_images_facts x H) as Hx.
  cbv beta in Hx.
  apply andb_true_iff in Hx. destruct Hx as [Hx H3].
  apply andb_true_iff in Hx. destruct Hx as [H1 H2].
  apply negb_true_iff in H2, H3. auto.
Qed.

Lemma lower_from_cons : forall b c t,
  Str.lower_from b (c :: t)
  = lower_chunk b c t
    ++ Str.lower_from (if Uni.is_case_ignorable c then b else Uni.is_cased c) t.
Proof. reflexivity. Qed.

Lemma lower_chunk_cases : forall b c t x,
  In x (lower_chunk b c t) ->
  (x = c /\ lower_chunk b c t = [c] /\ lower_fixed c = true)
  \/ (lower_fixed x = true /\ Str.is_space x = false
      /\ Str.is_digit x = false
      /\ Str.is_space c = false /\ Str.is_digit c = false).
Proof.
  intros b c t x H. unfold lower_chunk in *.
  destruct (N.eqb_spec c 931) as [->|Hc].
  - right.
    assert (Hx : In x ([105; 775; 962; 963]%N ++ lower_images Uni.lower_ranges)).
    { apply in_or_app. left.
      destruct (b && negb (Str.cased_ahead t)); destruct H as [<-|[]];
        cbn [In]; auto. }
    apply image_facts in Hx. destruct Hx as (H1 & H2 & H3).
    repeat split; try assumption; vm_compute; reflexivity.
  - destruct (lower_full_cases c x H) as [[-> Hf]|Hx].
    + left. split; [reflexivity|]. split; [exact Hf|].
      unfold lower_fixed. rewrite Hf, str_eqb_refl.
      apply N.eqb_neq in Hc. rewrite Hc. reflexivity.
    + right. apply image_facts in Hx. destruct Hx as (H1 & H2 & H3).
      repeat split; try assumption.
      * destruct (Str.is_space c) eqn:Es; [|reflexivity].
        pose proof (in_ranges_points _ _ Es) as Ep.
        pose proof (proj1 (forallb_forall _ _) space_points_fixed c Ep) as Hs.
        unfold lower_fixed in Hs. apply andb_true_iff in Hs.
        destruct Hs as [Hs _]. apply str_eqb_eq in Hs.
        rewrite Hs in H. destruct H as [<-|[]]. congruence.
      * destruct (Str.is_digit c) eqn:Ed; [|reflexivity].
        pose proof (in_ranges_points _ _ Ed) as Ep.
        pose proof (proj1 (forallb_forall _ _) decimal_points_facts c Ep) as Hs.
        cbv beta in Hs. apply andb_true_iff in Hs. destruct Hs as [Hs _].
        apply andb_true_iff in Hs. destruct Hs as [Hs _].
        unfold lower_fixed in Hs. apply andb_true_iff in Hs.
        destruct Hs as [Hs _]. apply str_eqb_eq in Hs.
        rewrite Hs in H. destruct H as [<-|[]]. congruence.
Qed.

Lemma lower_chunk_fixed : forall b c t x,
  In x (lower_chunk b c t) -> lower_fixed x = true.
Proof.
  intros b c t x H.
  destruct (lower_chunk_cases b c t x H) as [(-> & _ & Hf)|(Hf & _)];
    exact Hf.
Qed.

(** The result of [str.lower] is in lower case. *)
Lemma lower_from_fixed : forall s b,
  forallb lower_fixed (Str.lower_from b s) = true.
Proof.
  induction s as [|c t IH]; intros b; [reflexivity|].
  rewrite lower_from_cons, forallb_app, IH, andb_true_r.
  apply forallb_forall. intros x Hx. eapply lower_chunk_fixed. exact Hx.
Qed.

(** A text in lower case is its own lower case. *)
Lemma lower_from_of_fixed : forall s b,
  forallb lower_fixed s = true -> Str.lower_from b s = s.
Proof.
  induction s as [|c t IH]; intros b H; [reflexivity|].
  cbn [forallb] in H. apply andb_true_iff in H. destruct H as [Hc Ht].
  rewrite lower_from_cons, IH by exact Ht.
  unfold lower_fixed in Hc. apply andb_true_iff in Hc. destruct Hc as [H1 H2].
  apply str_eqb_eq in H1. apply negb_true_iff in H2.
  unfold lower_chunk. rewrite H2, H1. reflexivity.
Qed.

(** ** Header normalization *)

Lemma key_char_not_space : forall c, key_char c = true -> Str.is_space c = false.
Proof.
  intros c H. unfold key_char, header_separator in H.
  destruct (Str.is_space c); [discriminate H | reflexivity].
Qed.

Lemma key_char_fixed : forall k,
  forallb key_char k = true -> forallb lower_fixed k = true.
Proof.
  intros k H. rewrite forallb_forall in *. intros c Hc.
  specialize (H c Hc). unfold key_char in H.
  apply andb_true_iff in H. apply H.
Qed.

Lemma sub_runs_fixed_key_chars : forall s b,
  forallb lower_fixed s = true ->
  forallb key_char (Str.sub_runs header_separator [] b s) = true.
Proof.
  induction s as [|c s IH]; intros b H; [reflexivity|].
  cbn [forallb] in H. apply andb_true_iff in H. destruct H as [Hc Hs].
  cbn [Str.sub_runs].
  destruct (header_separator c) eqn:E.
  - destruct b; cbn [app]; apply IH; exact Hs.
  - cbn [forallb]. unfold key_char at 1. rewrite E, Hc. apply IH. exact Hs.
Qed.

Lemma header_key_chars : forall s, forallb key_char (header_key s) = true.
Proof.
  intros s. unfold header_key, Str.re_sub_runs, Str.lower.
  apply sub_runs_fixed_key_chars. apply lower_from_fixed.
Qed.

Lemma rstrip_key_chars : forall k,
  forallb key_char k = true -> Str.rstrip Str.is_space k = k.
Proof.
  induction k as [|c k IH]; simpl; intros H.
  - reflexivity.
  - apply andb_true_iff in H. destruct H as [Hc Hk].
    rewrite (key_char_not_space c Hc), IH by exact Hk. reflexivity.
Qed.

Lemma strip_key_chars : forall k,
  forallb key_char k = true -> Str.strip k = k.
Proof.
  intros k H. unfold Str.strip.
  assert (Hl : Str.lstrip Str.is_space k = k).
  { destruct k as [|c k]; simpl in *; [reflexivity|].
    apply andb_true_iff in H. destruct H as [Hc _].
    rewrite (key_char_not_space c Hc). reflexivity. }
  rewrite Hl. apply rstrip_key_chars. exact H.
Qed.

Lemma sub_runs_key_chars : forall k b,
  forallb key_char k = true ->
  Str.sub_runs header_separator [] b k = k.
Proof.
  induction k as [|c k IH]; simpl; intros b H.
  - reflexivity.
  - apply andb_true_iff in H. destruct H as [Hc Hk].
    unfold key_char in Hc. apply andb_true_iff in Hc. destruct Hc as [Hc _].
    apply negb_true_iff in Hc. rewrite Hc, IH by exact Hk. reflexivity.
Qed.

Lemma header_key_fixed : forall k,
  forallb key_char k = true -> header_key k = k.
Proof.
  intros k H. unfold header_key, Str.re_sub_runs, Str.lower.
  rewrite strip_key_chars by exact H.
  rewrite lower_from_of_fixed by (apply key_char_fixed; exact H).
  apply sub_runs_key_chars. exact H.
Qed.

Lemma normalize_header_text : forall s,
  normalize_header (VStr s) = Ok (alias (header_key s)).
Proof.
  intros s. unfold normalize_header, py_or. destruct s; reflexivity.
Qed.

Lemma alias_cases : forall k,
  alias k = k \/ alias k = txt "order_id" \/ alias k = txt "quantity"
  \/ alias k = txt "total_quantity".
Proof.
  intros k. unfold alias, Dict.get_default, HEADER_ALIASES.
  cbn [Dict.get].
  repeat match goal with
         | |- context [Str.eqb k ?s] => destruct (Str.eqb k s)
         end; auto.
Qed.

(** C7. Header normalization is idempotent: normalizing the result of a
    normalization gives that result again, for every text; and the three
    spellings Order ID, orderid and ORDER_ID normalize to the same key. *)
Theorem normalize_header_idempotent :
  (forall x : str,
      exists y, normalize_header (VStr x) = Ok y
                /\ normalize_header (VStr y) = Ok y)
  /\ normalize_header (VStr (txt "Order ID"))
     = normalize_header (VStr (txt "orderid"))
  /\ normalize_header (VStr (txt "orderid"))
     = normalize_header (VStr (txt "ORDER_ID")).
Proof.
  split; [|split; vm_compute; reflexivity].
  intros x. exists (alias (header_key x)). split.
  - apply normalize_header_text.
  - rewrite normalize_header_text. f_equal.
    destruct (alias_cases (header_key x)) as [H|[H|[H|H]]].
    + rewrite H, header_key_fixed by apply header_key_chars. exact H.
    + rewrite H. vm_compute. reflexivity.
    + rewrite H. vm_compute. reflexivity.
    + rewrite H. vm_compute. reflexivity.
Qed.

(** ** Header resolution *)

(** C8. The header Total_Qty normalizes to the key totalqty: the alias table
    is consulted after the underscores are removed, so its entry total_qty
    is never found and the key is not turned into total_quantity.  The
    header gets no role; Product Name 2 gets the product name role of
    group 2. *)
Theorem total_qty_alias_not_reached :
  normalize_header (VStr (txt "Total_Qty")) = Ok (txt "totalqty")
  /\ sget HEADER_ALIASES (txt "total_qty") = Some (txt "total_quantity")
  /\ sget HEADER_ALIASES (txt "totalqty") = None
  /\ scan_headers [VStr (txt "Total_Qty"); VStr (txt "Product Name 2")]
     = Ok (mk_columns [(2%Z, 1)] [] None).
Proof. repeat split; vm_compute; reflexivity. Qed.

Lemma span_digits : forall digits rest,
  forallb Str.is_digit digits = true ->
  starts_with_digit rest = false ->
  Str.span Str.is_digit (digits ++ rest) = (digits, rest).
Proof.
  induction digits as [|c ds IH]; simpl; intros rest Hd Hr.
  - destruct rest as [|c r]; simpl in *; [reflexivity|].
    rewrite Hr. reflexivity.
  - apply andb_true_iff in Hd. destruct Hd as [Hc Hds].
    rewrite Hc, IH by assumption. reflexivity.
Qed.

Lemma normalize_header_or : forall h,
  normalize_header (py_or (VStr h) (VStr [])) = normalize_header (VStr h).
Proof. intros h. destruct h; reflexivity. Qed.

(** [int] of a run of digits: the group, up to the limit on the digits. *)
Lemma group_number_limit : forall digits,
  group_number digits
  = if (Z.of_nat (List.length digits) <=? max_str_digits)%Z
    then Ok (group_of digits) else Raise too_many_digits.
Proof.
  intros digits. unfold group_number, group_of.
  destruct digits as [|c ds]; [reflexivity|].
  cbn [Str.is_empty].
  destruct (Z.ltb_spec max_str_digits (Z.of_nat (List.length (c :: ds))));
    destruct (Z.leb_spec (Z.of_nat (List.length (c :: ds))) max_str_digits);
    try reflexivity; lia.
Qed.

Lemma header_step_name : forall cols idx h digits rest,
  forallb Str.is_digit digits = true ->
  starts_with_digit rest = false ->
  normalize_header (VStr h) = Ok (txt "productname" ++ digits ++ rest) ->
  header_step cols (idx, VStr h)
  = (num <- group_number digits ;;
     Ok (mk_columns (zset (product_name_cols cols) num idx)
                    (quantity_cols cols) (order_col cols))).
Proof.
  intros cols idx h digits rest Hd Hr Hk.
  unfold header_step. rewrite normalize_header_or, Hk.
  unfold name_match, qty_match, match_prefix_digits. literals.
  cbn [bind app Str.eqb N.eqb Pos.eqb andb Str.strip_prefix].
  rewrite span_digits by assumption. cbn [fst].
  destruct (group_number digits); reflexivity.
Qed.

Lemma header_step_quantity : forall cols idx h digits rest,
  forallb Str.is_digit digits = true ->
  starts_with_digit rest = false ->
  normalize_header (VStr h) = Ok (txt "quantity" ++ digits ++ rest)
  \/ normalize_header (VStr h) = Ok (txt "productquantity" ++ digits ++ rest) ->
  header_step cols (idx, VStr h)
  = (num <- group_number digits ;;
     Ok (mk_columns (product_name_cols cols)
                    (zset (quantity_cols cols) num idx) (order_col cols))).
Proof.
  intros cols idx h digits rest Hd Hr [Hk|Hk];
    unfold header_step; rewrite normalize_header_or, Hk;
    unfold name_match, qty_match, match_prefix_digits; literals;
    cbn [bind app Str.eqb N.eqb Pos.eqb andb Str.strip_prefix];
    rewrite span_digits by assumption; cbn [fst];
    destruct (group_number digits); reflexivity.
Qed.

(** C10, as the code has it.  Role matching looks at the start of the key
    only.  A header whose key is productname, then digits, then anything that
    does not go on with a digit, gets the product name role of the group the
    digits name (group 1 when there are none), provided there are at most
    4300 digits; likewise quantity and productquantity for the quantity
    role.  With more digits [int] raises a [ValueError], which ends the
    run. *)
Theorem role_matching_is_prefix_based :
  forall (cols : columns) (idx : nat) (h digits rest : str),
    forallb Str.is_digit digits = true ->
    starts_with_digit rest = false ->
    (normalize_header (VStr h) = Ok (txt "productname" ++ digits ++ rest) ->
     header_step cols (idx, VStr h)
     = if (Z.of_nat (List.length digits) <=? max_str_digits)%Z
       then Ok (mk_columns
                  (zset (product_name_cols cols) (group_of digits) idx)
                  (quantity_cols cols) (order_col cols))
       else Raise too_many_digits)
    /\ (normalize_header (VStr h) = Ok (txt "quantity" ++ digits ++ rest)
        \/ normalize_header (VStr h)
           = Ok (txt "productquantity" ++ digits ++ rest) ->
        header_step cols (idx, VStr h)
        = if (Z.of_nat (List.length digits) <=? max_str_digits)%Z
          then Ok (mk_columns
                     (product_name_cols cols)
                     (zset (quantity_cols cols) (group_of digits) idx)
                     (order_col cols))
          else Raise too_many_digits).
Proof.
  intros cols idx h digits rest Hd Hr. split; intros Hk.
  - rewrite (header_step_name cols idx h digits rest Hd Hr Hk).
    rewrite group_number_limit.
    destruct (Z.of_nat (List.length digits) <=? max_str_digits)%Z; reflexivity.
  - rewrite (header_step_quantity cols idx h digits rest Hd Hr Hk).
    rewrite group_number_limit.
    destruct (Z.of_nat (List.length digits) <=? max_str_digits)%Z; reflexivity.
Qed.

(** The headers Product Names and Quantity 2x: the product name role of
    group 1 and the quantity role of group 2. *)
Lemma role_matching_is_prefix_based_witness :
  header_step no_columns (0, VStr (txt "Product Names"))
  = Ok (mk_columns [(1%Z, 0)] [] None)
  /\ header_step no_columns (3, VStr (txt "Quantity 2x"))
     = Ok (mk_columns [] [(2%Z, 3)] None).
Proof.
  split.
  - apply (proj1 (role_matching_is_prefix_based
                    no_columns 0 (txt "Product Names") [] (txt "s")
                    eq_refl eq_refl)).
    vm_compute. reflexivity.
  - apply (proj2 (role_matching_is_prefix_based
                    no_columns 3 (txt "Quantity 2x") (txt "2") (txt "x")
                    eq_refl eq_refl)).
    left. vm_compute. reflexivity.
Defined.

(** C10, as stated, fails: the key of a header made of Product Name and 4301
    digits begins with productname followed by digits, and the header gets
    no role.  [int] refuses the digits, and the run ends with its
    [ValueError] although the sheet has an order id column. *)
Lemma role_matching_digit_limit :
  normalize_header (long_header 4301)
  = Ok (txt "productname" ++ repeat 49%N 4301)
  /\ header_step no_columns (1, long_header 4301) = Raise too_many_digits
  /\ clean_excel (Some (mk_worksheet [VStr (txt "id"); long_header 4301] []))
     = Raise too_many_digits
  /\ header_step no_columns (1, long_header 4300)
     = Ok (mk_columns [(Str.int_of_digits (repeat 49%N 4300), 1)] [] None).
Proof. repeat split; vm_compute; reflexivity. Qed.

Lemma header_step_order_col : forall cols i cell cols',
  header_step cols (i, cell) = Ok cols' ->
  order_col cols'
  = if is_order_id_header cell then Some i else order_col cols.
Proof.
  intros cols i cell cols'. unfold header_step, is_order_id_header.
  destruct (normalize_header (py_or cell (VStr []))) as [key|e]; cbn [bind];
    [|discriminate].
  destruct (Str.eqb key (txt "order_id")).
  - intros H. inversion H. reflexivity.
  - destruct (name_match key) as [d1|];
      [destruct (group_number d1); cbn [bind]; [|discriminate]|];
      (destruct (qty_match key) as [d2|];
       [destruct (group_number d2); cbn [bind]; [|discriminate]|]);
      intros H; inversion H; reflexivity.
Qed.

(** The order id column after the loop over the header cells numbered from
    [n]: the column it was, when no cell resolves to the order id; else the
    last cell that does. *)
Lemma scan_order_col : forall l n cols cols',
  for_each header_step (combine (seq n (List.length l)) l) cols = Ok cols' ->
  (order_col cols' = order_col cols
   /\ forall cell, In cell l -> is_order_id_header cell = false)
  \/ exists k cell,
       order_col cols' = Some (n + k)
       /\ nth_error l k = Some cell
       /\ is_order_id_header cell = true
       /\ forall j cell', k < j -> nth_error l j = Some cell' ->
                          is_order_id_header cell' = false.
Proof.
  induction l as [|c l IH]; intros n cols cols' H;
    cbn [for_each combine seq List.length] in H.
  - inversion H. left. split; [reflexivity | intros ? []].
  - destruct (header_step cols (n, c)) as [cols1|e] eqn:E; cbn [bind] in H;
      [|discriminate].
    apply header_step_order_col in E.
    destruct (IH _ _ _ H) as [[Ho Hall]|(k & cell & Ho & Hn & Hc & Hlater)].
    + destruct (is_order_id_header c) eqn:Ec.
      * right. exists 0, c.
        split; [rewrite Ho, E, Nat.add_0_r; reflexivity|].
        split; [reflexivity|]. split; [exact Ec|].
        intros j cell' Hj Hn. destruct j as [|j]; [lia|].
        simpl in Hn. apply Hall. eapply nth_error_In. exact Hn.
      * left. split; [congruence|].
        intros cell [<-|Hin]; auto.
    + right. exists (S k), cell.
      split; [rewrite Ho; f_equal; lia|].
      split; [exact Hn|]. split; [exact Hc|].
      intros j cell' Hj Hn'. destruct j as [|j]; [lia|].
      simpl in Hn'. eapply Hlater; [|exact Hn']. lia.
Qed.

(** C9, as the code has it.  Resolution needs at least one order id column,
    not exactly one: when it succeeds, the order id column is the last
    header that resolves to the order id role, whatever comes before it;
    when no header resolves to that role, it fails. *)
Theorem order_id_column_required :
  forall header : list value,
    (forall cols, resolve_headers header = Ok cols ->
       exists i cell,
         order_col cols = Some i
         /\ nth_error header i = Some cell
         /\ is_order_id_header cell = true
         /\ forall j cell', i < j -> nth_error header j = Some cell' ->
                            is_order_id_header cell' = false)
    /\ ((forall cell, In cell header -> is_order_id_header cell = false) ->
        is_ok (resolve_headers header) = false).
Proof.
  intros header. unfold resolve_headers, scan_headers, enumerate. split.
  - intros cols H.
    destruct (for_each header_step (combine (seq 0 (List.length header)) header)
                no_columns) as [cols1|e] eqn:E; cbn [bind] in H; [|discriminate].
    destruct (order_col cols1) as [oc|] eqn:Eo; [|discriminate].
    assert (cols = cols1).
    { destruct (product_name_cols cols1), (quantity_cols cols1);
        congruence. }
    subst cols1.
    destruct (scan_order_col _ _ _ _ E) as [[Ho _]|(k & cell & Ho & Hrest)].
    + rewrite Eo in Ho. discriminate.
    + exists k, cell. split; [exact Ho | exact Hrest].
  - intros Hall.
    destruct (for_each header_step (combine (seq 0 (List.length header)) header)
                no_columns) as [cols1|e] eqn:E; cbn [bind]; [|reflexivity].
    destruct (scan_order_col _ _ _ _ E) as [[Ho _]|(k & cell & _ & Hn & Hc & _)].
    + rewrite Ho. reflexivity.
    + apply nth_error_In in Hn. rewrite (Hall _ Hn) in Hc. discriminate.
Qed.

(** With the headers id, Order ID and Product Name the second column is the
    order id column; with Product Name alone resolution fails. *)
Lemma order_id_column_required_witness :
  (exists i cell,
      Some 1 = Some i
      /\ nth_error [VStr (txt "id"); VStr (txt "Order ID");
                    VStr (txt "Product Name")] i
         = Some cell
      /\ is_order_id_header cell = true
      /\ forall j cell', i < j ->
           nth_error [VStr (txt "id"); VStr (txt "Order ID");
                      VStr (txt "Product Name")] j
           = Some cell' ->
           is_order_id_header cell' = false)
  /\ is_ok (resolve_headers [VStr (txt "Product Name")]) = false.
Proof.
  split.
  - apply (proj1 (order_id_column_required
                    [VStr (txt "id"); VStr (txt "Order ID");
                     VStr (txt "Product Name")])
             (mk_columns [(1%Z, 2)] [] (Some 1))).
    vm_compute. reflexivity.
  - apply (proj2 (order_id_column_required [VStr (txt "Product Name")])).
    intros cell [<-|[]]. vm_compute. reflexivity.
Defined.

(** C9, as stated, fails: two headers resolve to the order id role and
    resolution succeeds, taking the second. *)
Lemma two_order_id_columns_resolve :
  resolve_headers [VStr (txt "id"); VStr (txt "Order ID");
                   VStr (txt "Product Name")]
  = Ok (mk_columns [(1%Z, 2)] [] (Some 1))
  /\ map is_order_id_header [VStr (txt "id"); VStr (txt "Order ID");
                             VStr (txt "Product Name")]
     = [true; true; false].
Proof. split; vm_compute; reflexivity. Qed.

(** ** Row extraction *)

Lemma for_each_app : forall {A S : Type} (body : S -> A -> outcome S) l1 l2 s,
  for_each body (l1 ++ l2) s = (s' <- for_each body l1 s ;; for_each body l2 s').
Proof.
  induction l1 as [|a l1 IH]; intros l2 s; simpl.
  - reflexivity.
  - destruct (body s a); simpl; auto.
Qed.

Lemma insert_sorted_In : forall n l x,
  In x (insert_sorted n l) <-> x = n \/ In x l.
Proof.
  induction l as [|m l IH]; intros x; simpl.
  - intuition.
  - destruct (Z.ltb_spec n m); simpl; [intuition|].
    destruct (Z.eqb_spec n m); simpl.
    + subst. intuition.
    + rewrite IH. intuition.
Qed.

Lemma insert_sorted_sorted : forall n l,
  StronglySorted Z.lt l -> StronglySorted Z.lt (insert_sorted n l).
Proof.
  induction l as [|m l IH]; intros H; simpl.
  - constructor; constructor.
  - inversion H as [|? ? Hl Hm]; subst.
    destruct (Z.ltb_spec n m).
    + constructor; [exact H|]. constructor; [assumption|].
      eapply Forall_impl; [|exact Hm]. intros; lia.
    + destruct (Z.eqb_spec n m); [exact H|].
      constructor; [auto|].
      apply Forall_forall. intros x Hx. apply insert_sorted_In in Hx.
      destruct Hx as [->|Hx]; [lia|].
      rewrite Forall_forall in Hm. auto.
Qed.

Lemma group_numbers_sorted : forall cols,
  StronglySorted Z.lt (group_numbers cols).
Proof.
  intros cols. unfold group_numbers.
  induction (Dict.keys (product_name_cols cols) ++ Dict.keys (quantity_cols cols));
    simpl.
  - constructor.
  - apply insert_sorted_sorted. assumption.
Qed.

Lemma group_numbers_In : forall cols n,
  In n (group_numbers cols)
  <-> zget (product_name_cols cols) n <> None
      \/ zget (quantity_cols cols) n <> None.
Proof.
  intros cols n. unfold zget.
  rewrite !(get_In_keys Z.eqb Z.eqb_eq), <- in_app_iff.
  unfold group_numbers.
  induction (Dict.keys (product_name_cols cols) ++ Dict.keys (quantity_cols cols));
    simpl.
  - tauto.
  - rewrite insert_sorted_In, IHl. intuition.
Qed.

Lemma extract_group_spec : forall cols row oid st num st',
  extract_group cols row oid st num = Ok st' ->
  st' = if group_is_empty cols row num then st
        else add_record st oid (name_cell cols row num) (qty_cell cols row num)
               (numeric (qty_cell cols row num)).
Proof.
  intros cols row oid st num st'. unfold extract_group, numeric, group_is_empty.
  destruct (parse_quantity (qty_cell cols row num)) as [q|e]; cbn [bind];
    [|discriminate].
  destruct (is_none (name_cell cols row num) && is_none (qty_cell cols row num));
    congruence.
Qed.

Lemma extract_group_ok : forall cols row oid st num,
  is_ok (extract_group cols row oid st num)
  = is_ok (parse_quantity (qty_cell cols row num)).
Proof.
  intros. unfold extract_group.
  destruct (parse_quantity (qty_cell cols row num)); cbn [bind]; [|reflexivity].
  destruct (is_none (name_cell cols row num) && is_none (qty_cell cols row num));
    reflexivity.
Qed.

Lemma extract_groups_records : forall cols row oid nums st st',
  for_each (extract_group cols row oid) nums st = Ok st' ->
  exists recs,
    extracted_rows st' = extracted_rows st ++ recs
    /\ Forall2 (record_of cols row oid)
         (filter (fun num => negb (group_is_empty cols row num)) nums) recs.
Proof.
  induction nums as [|num nums IH]; intros st st' H; cbn [for_each] in H.
  - inversion H. exists []. rewrite app_nil_r. split; constructor.
  - destruct (extract_group cols row oid st num) as [st1|e] eqn:E;
      cbn [bind] in H; [|discriminate].
    apply extract_group_spec in E.
    destruct (IH _ _ H) as (recs & Hrows & Hrecs).
    cbn [filter]. destruct (group_is_empty cols row num); cbn [negb].
    + subst st1. exists recs. split; assumption.
    + subst st1. cbn [add_record extracted_rows] in Hrows.
      rewrite <- app_assoc in Hrows. eexists. split; [exact Hrows|].
      constructor; [|exact Hrecs].
      repeat split.
Qed.

Lemma extract_groups_ok : forall cols row oid nums st,
  (forall num, In num nums ->
     is_ok (parse_quantity (qty_cell cols row num)) = true) ->
  is_ok (for_each (extract_group cols row oid) nums st) = true.
Proof.
  induction nums as [|num nums IH]; intros st H; cbn [for_each].
  - reflexivity.
  - pose proof (extract_group_ok cols row oid st num) as E.
    rewrite (H num (or_introl eq_refl)) in E.
    destruct (extract_group cols row oid st num); [|discriminate].
    cbn [bind]. apply IH. intros n Hn. apply H. right. exact Hn.
Qed.

(** C4. The group numbers of a row are the indices that have a product name
    or a quantity column, in ascending order.  A row whose order id cell is
    empty or missing leaves the records as they are.  A row with an order id
    adds, in the order of the group numbers, exactly one record for each
    group whose product name or quantity cell is not empty, and none for a
    group where both are empty; it does so whenever no quantity cell makes
    the conversion to a number fail with an error that is not caught. *)
Theorem extract_row_records :
  forall (cols : columns) (st : aggregator) (row : list value),
    (StronglySorted Z.lt (group_numbers cols)
     /\ forall n, In n (group_numbers cols)
                  <-> zget (product_name_cols cols) n <> None
                      \/ zget (quantity_cols cols) n <> None)
    /\ (is_none (cell_at row (order_col cols)) = true ->
        extract_row cols st row = Ok st)
    /\ (is_none (cell_at row (order_col cols)) = false ->
        forall st', extract_row cols st row = Ok st' ->
          exists recs,
            extracted_rows st' = extracted_rows st ++ recs
            /\ Forall2 (record_of cols row (cell_at row (order_col cols)))
                 (filter (fun num => negb (group_is_empty cols row num))
                         (group_numbers cols))
                 recs)
    /\ (is_none (cell_at row (order_col cols)) = false ->
        (forall num, In num (group_numbers cols) ->
           is_ok (parse_quantity (qty_cell cols row num)) = true) ->
        is_ok (extract_row cols st row) = true).
Proof.
  intros cols st row. split; [|split; [|split]].
  - split; [apply group_numbers_sorted | apply group_numbers_In].
  - intros H. unfold extract_row. rewrite H. reflexivity.
  - intros H st' E. unfold extract_row in E. rewrite H in E.
    eapply extract_groups_records. exact E.
  - intros H Hq. unfold extract_row. rewrite H.
    apply extract_groups_ok. exact Hq.
Qed.

(** A row without order id, and the row [7, Widget, 3, -] whose second group
    is empty. *)
Lemma extract_row_records_witness :
  extract_row sample_columns empty_aggregator
    [VNone; VStr (txt "Widget"); VInt 3]
  = Ok empty_aggregator
  /\ (exists recs,
        [mk_item (txt "widget") (VInt 7) (VStr (txt "Widget")) (VInt 3) 0]
        = [] ++ recs
        /\ Forall2 (record_of sample_columns sample_row (VInt 7)) [1%Z] recs)
  /\ is_ok (extract_row sample_columns empty_aggregator sample_row) = true.
Proof.
  split; [|split].
  - apply (proj1 (proj2 (extract_row_records sample_columns empty_aggregator
                           [VNone; VStr (txt "Widget"); VInt 3]))).
    reflexivity.
  - apply (proj1 (proj2 (proj2 (extract_row_records
                                  sample_columns empty_aggregator sample_row)))
             eq_refl
             (mk_aggregator
                [mk_item (txt "widget") (VInt 7) (VStr (txt "Widget"))
                   (VInt 3) 0]
                [(txt "widget", 3%float)] [(txt "widget", true)]
                [(txt "widget", VStr (txt "Widget"))])).
    reflexivity.
  - apply (proj2 (proj2 (proj2 (extract_row_records
                                  sample_columns empty_aggregator sample_row)))
             eq_refl).
    intros num Hnum. simpl in Hnum.
    destruct Hnum as [<-|[<-|[]]]; reflexivity.
Defined.

(** ** Aggregation *)

Lemma extract_groups_events : forall cols row oid nums st st',
  for_each (extract_group cols row oid) nums st = Ok st' ->
  st' = fold_left record_event
          (map (fun num => (oid, name_cell cols row num, qty_cell cols row num))
               (filter (fun num => negb (group_is_empty cols row num)) nums))
          st.
Proof.
  induction nums as [|num nums IH]; intros st st' H; cbn [for_each] in H.
  - inversion H. reflexivity.
  - destruct (extract_group cols row oid st num) as [st1|e] eqn:E;
      cbn [bind] in H; [|discriminate].
    apply extract_group_spec in E. apply IH in H.
    cbn [filter]. destruct (group_is_empty cols row num); cbn [negb].
    + subst st1. exact H.
    + subst st1. exact H.
Qed.

Lemma extract_rows_events : forall cols rows st st',
  for_each (extract_row cols) rows st = Ok st' ->
  st' = fold_left record_event (events cols rows) st.
Proof.
  induction rows as [|row rows IH]; intros st st' H; cbn [for_each] in H.
  - inversion H. reflexivity.
  - destruct (extract_row cols st row) as [st1|e] eqn:E; cbn [bind] in H;
      [|discriminate].
    apply IH in H. unfold events. cbn [flat_map]. rewrite fold_left_app.
    fold (events cols rows). rewrite H. f_equal.
    unfold extract_row in E. unfold row_events.
    destruct (is_none (cell_at row (order_col cols))).
    + inversion E. reflexivity.
    + apply extract_groups_events in E. exact E.
Qed.

Lemma record_event_rows : forall st e,
  extracted_rows (record_event st e)
  = extracted_rows st ++ [event_item e (List.length (extracted_rows st))].
Proof. intros st [[oid name] qty_raw]. reflexivity. Qed.

Lemma rows_after : forall evs st,
  extracted_rows (fold_left record_event evs st)
  = extracted_rows st ++ items_from (List.length (extracted_rows st)) evs.
Proof.
  induction evs as [|e evs IH]; intros st; cbn [fold_left items_from].
  - rewrite app_nil_r. reflexivity.
  - rewrite IH, record_event_rows, <- app_assoc, length_app, Nat.add_1_r.
    reflexivity.
Qed.

Lemma record_event_totals : forall st e key,
  sget (product_totals (record_event st e)) key
  = if Str.eqb (event_key e) key then
      match event_number e with
      | Some q =>
          Some (PrimFloat.add
                  (Dict.get_default Str.eqb (product_totals st) key 0%float) q)
      | None =>
          Some (Dict.get_default Str.eqb (product_totals st) key 0%float)
      end
    else sget (product_totals st) key.
Proof.
  intros st [[oid name] qty_raw] key.
  unfold record_event, add_record, event_key, event_number, sget, sset.
  cbn [product_totals].
  destruct (str_eqb_spec (normalize_product_name name) key) as [->|Hne].
  - destruct (numeric qty_raw).
    + apply (get_set_same Str.eqb str_eqb_eq).
    + rewrite (get_setdefault Str.eqb str_eqb_eq), str_eqb_refl.
      unfold Dict.get_default.
      destruct (Dict.get Str.eqb (product_totals st) key); reflexivity.
  - destruct (numeric qty_raw).
    + apply (get_set_other Str.eqb str_eqb_eq). exact Hne.
    + rewrite (get_setdefault Str.eqb str_eqb_eq).
      apply str_eqb_neq in Hne. rewrite Hne.
      destruct (Dict.get Str.eqb (product_totals st) key); reflexivity.
Qed.

Lemma record_event_numeric : forall st e key,
  sget (product_has_numeric (record_event st e)) key
  = if Str.eqb (event_key e) key then
      match event_number e with
      | Some _ => Some true
      | None => sget (product_has_numeric st) key
      end
    else sget (product_has_numeric st) key.
Proof.
  intros st [[oid name] qty_raw] key.
  unfold record_event, add_record, event_key, event_number, sget, sset.
  cbn [product_has_numeric].
  destruct (str_eqb_spec (normalize_product_name name) key) as [->|Hne];
    destruct (numeric qty_raw); try reflexivity.
  - apply (get_set_same Str.eqb str_eqb_eq).
  - apply (get_set_other Str.eqb str_eqb_eq). exact Hne.
Qed.

(** The total of a key after a run of events: the total it had, or 0.0 when
    the key is new, with the numeric quantities of the key added one after
    the other. *)
Lemma totals_after : forall evs st key,
  sget (product_totals (fold_left record_event evs st)) key
  = match sget (product_totals st) key with
    | Some t => Some (fold_left PrimFloat.add (numeric_quantities key evs) t)
    | None =>
        if existsb (fun e => Str.eqb (event_key e) key) evs
        then Some (fold_left PrimFloat.add (numeric_quantities key evs) 0%float)
        else None
    end.
Proof.
  induction evs as [|e evs IH]; intros st key;
    cbn [fold_left existsb numeric_quantities flat_map].
  - destruct (sget (product_totals st) key); reflexivity.
  - rewrite IH, record_event_totals. fold (numeric_quantities key evs).
    unfold Dict.get_default. fold (sget (product_totals st) key).
    destruct (Str.eqb (event_key e) key); cbn [orb].
    + destruct (event_number e), (sget (product_totals st) key); reflexivity.
    + destruct (sget (product_totals st) key); reflexivity.
Qed.

Lemma numeric_after : forall evs st key,
  sget (product_has_numeric (fold_left record_event evs st)) key
  = match numeric_quantities key evs with
    | [] => sget (product_has_numeric st) key
    | _ :: _ => Some true
    end.
Proof.
  induction evs as [|e evs IH]; intros st key;
    cbn [fold_left numeric_quantities flat_map].
  - reflexivity.
  - rewrite IH, record_event_numeric. fold (numeric_quantities key evs).
    destruct (Str.eqb (event_key e) key); cbn [app].
    + destruct (event_number e); cbn [app];
        destruct (numeric_quantities key evs); reflexivity.
    + reflexivity.
Qed.

Lemma numeric_quantities_key_seen : forall key evs,
  numeric_quantities key evs <> [] ->
  existsb (fun e => Str.eqb (event_key e) key) evs = true.
Proof.
  induction evs as [|e evs IH]; cbn [numeric_quantities flat_map existsb].
  - congruence.
  - fold (numeric_quantities key evs).
    destruct (Str.eqb (event_key e) key); cbn [orb app]; auto.
Qed.

(** C1. After the extraction the records are the groups that were not
    skipped, one record each and in the same order.  For every product key
    the total shown is the sum of the quantities of its records that are
    numbers, added in this order starting from 0.0 and shown as an integer
    when the sum is integral; a key none of whose records has a numeric
    quantity (a key without records too) shows no value. *)
Theorem total_is_sum_of_numeric_quantities :
  forall (cols : columns) (rows : list (list value)) (st : aggregator),
    extract_rows cols rows = Ok st ->
    extracted_rows st = items_from 0 (events cols rows)
    /\ forall key : str,
         total_for_product_key st key
         = match numeric_quantities key (events cols rows) with
           | [] => VNone
           | qs => format_number (VFloat (fold_left PrimFloat.add qs 0%float))
           end.
Proof.
  intros cols rows st H. apply extract_rows_events in H. subst st. split.
  - rewrite rows_after. reflexivity.
  - intros key. unfold total_for_product_key.
    rewrite numeric_after, totals_after. cbn [empty_aggregator
      product_has_numeric product_totals sget Dict.get].
    destruct (numeric_quantities key (events cols rows)) as [|q qs] eqn:E.
    + reflexivity.
    + rewrite numeric_quantities_key_seen by (rewrite E; discriminate).
      reflexivity.
Qed.

(** Widget sold 3 and 2, Gadget has an empty quantity: 5 and no value. *)
Lemma total_is_sum_of_numeric_quantities_witness :
  total_for_product_key scenario_state (txt "widget") = VInt 5
  /\ total_for_product_key scenario_state (txt "gadget") = VNone.
Proof.
  split.
  - exact (proj2 (total_is_sum_of_numeric_quantities
                    scenario_columns scenario_rows scenario_state eq_refl)
             (txt "widget")).
  - exact (proj2 (total_is_sum_of_numeric_quantities
                    scenario_columns scenario_rows scenario_state eq_refl)
             (txt "gadget")).
Defined.

(** ** The grouped sheet *)

Lemma runs_cons : forall x t, exists r rs, runs (x :: t) = (x :: r) :: rs.
Proof.
  intros x t. simpl. destruct (runs t) as [|[|y r] rs]; eauto.
  destruct (Str.eqb (product_key x) (product_key y)); eauto.
Qed.

Lemma runs_nil : forall t, runs t = [] -> t = [].
Proof.
  intros [|x t] H; [reflexivity|].
  destruct (runs_cons x t) as (r & rs & E). congruence.
Qed.

Lemma runs_no_empty : forall t rs, runs t <> [] :: rs.
Proof.
  intros [|x t] rs; [discriminate|].
  destruct (runs_cons x t) as (r & rs' & E). congruence.
Qed.

Lemma runs_concat : forall l, List.concat (runs l) = l.
Proof.
  induction l as [|x t IH]; simpl; [reflexivity|].
  destruct (runs t) as [|[|y r] rs] eqn:E; simpl in *.
  - subst. reflexivity.
  - exfalso. exact (runs_no_empty _ _ E).
  - destruct (Str.eqb (product_key x) (product_key y)); simpl;
      rewrite <- IH; reflexivity.
Qed.

Lemma runs_are_runs : forall l, Forall is_run (runs l).
Proof.
  induction l as [|x t IH]; simpl; [constructor|].
  destruct (runs t) as [|[|y r] rs] eqn:E.
  - constructor; [|constructor]. exists x, []. split; [reflexivity|constructor].
  - exfalso. exact (runs_no_empty _ _ E).
  - inversion IH as [|? ? Hr Hrs]; subst.
    destruct (str_eqb_spec (product_key x) (product_key y)) as [Heq|Hne].
    + constructor; [|exact Hrs].
      destruct Hr as (y' & rest & Hy & Hall). inversion Hy; subst y' rest.
      exists x, (y :: r). split; [reflexivity|].
      constructor; [congruence|].
      eapply Forall_impl; [|exact Hall]. simpl. congruence.
    + constructor; [|exact IH].
      exists x, []. split; [reflexivity|constructor].
Qed.

Lemma runs_maximal : forall l, maximal (runs l).
Proof.
  induction l as [|x t IH]; simpl; [exact I|].
  destruct (runs t) as [|[|y r] rs] eqn:E.
  - exact I.
  - exact I.
  - pose proof (runs_are_runs t) as Hruns. rewrite E in Hruns.
    inversion Hruns as [|? ? Hr Hrs]; subst.
    destruct Hr as (y' & rest & Hy & Hall). inversion Hy; subst y' rest.
    destruct (str_eqb_spec (product_key x) (product_key y)) as [Heq|Hne].
    + destruct rs as [|r2 rs]; [exact I|].
      destruct IH as [Hd Hm]. split; [|exact Hm].
      intros a b [<-|Ha] Hb.
      * rewrite Heq. apply Hd; [left; reflexivity | exact Hb].
      * apply Hd; [exact Ha | exact Hb].
    + split; [|exact IH].
      intros a b [<-|[]] [<-|Hb]; [exact Hne|].
      rewrite Forall_forall in Hall. rewrite (Hall b Hb). exact Hne.
Qed.

(** A run that ends where the records end, or where the key changes. *)
Lemma runs_app : forall cur rest,
  cur <> [] ->
  (forall x y, In x cur -> In y cur -> product_key x = product_key y) ->
  (forall x y, In x cur -> hd_error rest = Some y ->
               product_key x <> product_key y) ->
  runs (cur ++ rest) = cur :: runs rest.
Proof.
  induction cur as [|c cur IH]; intros rest Hne Hsame Hdiff; [congruence|].
  destruct cur as [|c' cur].
  - simpl. destruct rest as [|y rest]; [reflexivity|].
    destruct (runs_cons y rest) as (r & rs & E). rewrite E.
    destruct (str_eqb_spec (product_key c) (product_key y)) as [Heq|_];
      [|reflexivity].
    exfalso. apply (Hdiff c y); simpl; auto.
  - change (runs ((c :: c' :: cur) ++ rest))
      with (match runs ((c' :: cur) ++ rest) with
            | (y :: r) :: rs =>
                if Str.eqb (product_key c) (product_key y)
                then (c :: y :: r) :: rs
                else [c] :: (y :: r) :: rs
            | _ => [[c]]
            end).
    rewrite IH.
    + rewrite (Hsame c c'), str_eqb_refl by (simpl; auto). reflexivity.
    + discriminate.
    + intros x y Hx Hy. apply Hsame; right; assumption.
    + intros x y Hx Hy. apply Hdiff; [right; exact Hx | exact Hy].
Qed.

Lemma list_set_middle : forall {A : Type} (d : A) l x y l',
  list_set d (List.length l) y (l ++ x :: l') = l ++ y :: l'.
Proof.
  induction l as [|a l IH]; intros x y l'; simpl; [reflexivity|].
  rewrite IH. reflexivity.
Qed.

Lemma set_cell_total : forall done it rest v,
  set_cell (done ++ plain_row it :: rest) (S (List.length done)) 4 v
  = done ++ [order_id it; product_name it; quantity_display it; v] :: rest.
Proof.
  intros done it rest v. unfold set_cell.
  cbn [Nat.sub]. rewrite Nat.sub_0_r, nth_middle.
  rewrite list_set_middle. reflexivity.
Qed.

Lemma finalize_group_open : forall st done cur merges ck gs er k last,
  cur <> [] ->
  (forall x, In x cur -> product_key x = k) ->
  finalize_group st
    (mk_writer (done ++ map plain_row cur) merges ck gs er)
    k (S (List.length done)) last
  = mk_writer
      (done ++ render_run st cur)
      (if Nat.ltb (S (List.length done)) last
       then merges ++ [(S (List.length done), 4, last, 4)]
       else merges)
      ck gs er.
Proof.
  intros st done cur merges ck gs er k last Hne Hk.
  destruct cur as [|c cur]; [congruence|].
  unfold finalize_group. cbn [sheet_rows merged_cells current_product_key
    group_start_row excel_row map render_run].
  rewrite set_cell_total, (Hk c) by (left; reflexivity). reflexivity.
Qed.

Lemma render_run_length : forall st r,
  List.length (render_run st r) = List.length r.
Proof.
  intros st [|c r]; simpl; [reflexivity|]. rewrite length_map. reflexivity.
Qed.

Lemma merge_of_run : forall s n (merges : list cell_range),
  n <> 0 ->
  (if Nat.ltb s (s + n - 1) then merges ++ [(s, 4, s + n - 1, 4)] else merges)
  = merges ++ (if Nat.leb 2 n then [(s, 4, s + n - 1, 4)] else []).
Proof.
  intros s n merges Hn.
  destruct (Nat.ltb_spec s (s + n - 1)), (Nat.leb_spec 2 n);
    try lia; [reflexivity|].
  rewrite app_nil_r. reflexivity.
Qed.

Lemma write_item_same : forall st rows merges k gs er x,
  product_key x = k ->
  write_item st (mk_writer rows merges (Some k) gs er) x
  = mk_writer (rows ++ [plain_row x]) merges (Some k) gs (er + 1).
Proof.
  intros st rows merges k gs er x Hk. unfold write_item.
  cbn [current_product_key]. rewrite Hk, str_eqb_refl. reflexivity.
Qed.

Lemma write_item_other : forall st rows merges k s er x,
  product_key x <> k ->
  write_item st (mk_writer rows merges (Some k) (Some s) er) x
  = mk_writer
      (sheet_rows
         (finalize_group st (mk_writer rows merges (Some k) (Some s) er)
            k s (er - 1))
         ++ [plain_row x])
      (merged_cells
         (finalize_group st (mk_writer rows merges (Some k) (Some s) er)
            k s (er - 1)))
      (Some (product_key x)) (Some er) (er + 1).
Proof.
  intros st rows merges k s er x Hk. unfold write_item.
  cbn [current_product_key]. apply str_eqb_neq in Hk. rewrite Hk.
  reflexivity.
Qed.

(** The writing loop from a state whose open group holds the records [cur],
    all of key [k], written below the rows [done]. *)
Lemma write_open_group : forall st rows cur done merges k,
  cur <> [] ->
  (forall x, In x cur -> product_key x = k) ->
  let w := finalize_last st
             (fold_left (write_item st) rows
                (mk_writer (done ++ map plain_row cur) merges (Some k)
                   (Some (S (List.length done)))
                   (S (List.length done) + List.length cur))) in
  sheet_rows w = done ++ flat_map (render_run st) (runs (cur ++ rows))
  /\ merged_cells w
     = merges ++ merges_from (S (List.length done)) (runs (cur ++ rows)).
Proof.
  intros st rows. induction rows as [|x rows IH];
    intros cur done merges k Hne Hk; cbn zeta.
  - cbn [fold_left]. unfold finalize_last.
    cbn [current_product_key group_start_row excel_row].
    rewrite finalize_group_open by assumption.
    cbn [sheet_rows merged_cells].
    rewrite runs_app; [| assumption | | ].
    + cbn [runs flat_map merges_from]. rewrite !app_nil_r.
      split; [reflexivity|].
      apply merge_of_run. destruct cur; [congruence | discriminate].
    + intros a b Ha Hb. rewrite (Hk a Ha), (Hk b Hb). reflexivity.
    + intros a b _ Hb. discriminate Hb.
  - cbn [fold_left].
    destruct (str_eqb_spec (product_key x) k) as [Heq|Hdiff].
    + rewrite write_item_same by exact Heq.
      replace (mk_writer
                 ((done ++ map plain_row cur) ++ [plain_row x])
                 merges (Some k) (Some (S (List.length done)))
                 (S (List.length done) + List.length cur + 1))
        with (mk_writer (done ++ map plain_row (cur ++ [x])) merges (Some k)
                (Some (S (List.length done)))
                (S (List.length done) + List.length (cur ++ [x]))).
      * specialize (IH (cur ++ [x]) done merges k).
        cbn zeta in IH. rewrite <- (app_assoc cur [x] rows) in IH. apply IH.
        -- destruct cur; discriminate.
        -- intros a Ha. apply in_app_iff in Ha.
           destruct Ha as [Ha|[<-|[]]]; auto.
      * rewrite map_app, length_app, app_assoc. cbn [map List.length].
        f_equal. lia.
    + rewrite write_item_other by exact Hdiff.
      rewrite finalize_group_open by assumption.
      cbn [sheet_rows merged_cells].
      rewrite merge_of_run by (destruct cur; [congruence | discriminate]).
      replace (S (List.length done) + List.length cur)
        with (S (List.length (done ++ render_run st cur)))
        by (rewrite length_app, render_run_length; lia).
      change (S (List.length (done ++ render_run st cur)) + 1)
        with (S (List.length (done ++ render_run st cur)) + List.length [x]).
      change [plain_row x] with (map plain_row [x]).
      specialize (IH [x] (done ++ render_run st cur)
                    (merges
                       ++ (if Nat.leb 2 (List.length cur)
                           then [(S (List.length done), 4,
                                  S (List.length (done ++ render_run st cur)) - 1,
                                  4)]
                           else []))
                    (product_key x)).
      cbn zeta in IH.
      destruct IH as [IHrows IHmerges].
      * discriminate.
      * intros a [<-|[]]. reflexivity.
      * rewrite IHrows, IHmerges.
        rewrite (runs_app cur (x :: rows)).
        -- cbn [flat_map merges_from].
           rewrite <- !app_assoc, length_app, render_run_length.
           split; [reflexivity|].
           do 3 f_equal; lia.
        -- assumption.
        -- intros a b Ha Hb. rewrite (Hk a Ha), (Hk b Hb). reflexivity.
        -- intros a b Ha Hb. inversion Hb; subst b. rewrite (Hk a Ha).
           congruence.
Qed.

(** C3. The records written fall into maximal runs of equal product key
    ([runs]: the runs put end to end are the records, each run has one key,
    neighbouring runs differ in their key).  Below the header the sheet holds
    the rows of the runs: the first row of a run carries the total of the
    key in its fourth column and the other rows carry nothing there.  The
    merged ranges are, run by run, the range of the fourth column from the
    first to the last row of the run when the run has two rows or more, and
    none for a run of one row.  This holds of the writer on any records,
    and so of the workbook, whose records are the sorted ones. *)
Theorem merged_total_per_run :
  forall (st : aggregator) (rows : list item),
    (List.concat (runs rows) = rows
     /\ Forall is_run (runs rows)
     /\ maximal (runs rows))
    /\ sheet_rows (write_rows st rows)
       = header_titles :: flat_map (render_run st) (runs rows)
    /\ merged_cells (write_rows st rows) = merges_from 2 (runs rows)
    /\ (rows = sort_rows (extracted_rows st) ->
        cleaned (build_workbook st)
        = header_titles :: flat_map (render_run st) (runs rows)
        /\ cleaned_merges (build_workbook st) = merges_from 2 (runs rows)).
Proof.
  intros st rows.
  assert (H : sheet_rows (write_rows st rows)
              = header_titles :: flat_map (render_run st) (runs rows)
              /\ merged_cells (write_rows st rows) = merges_from 2 (runs rows)).
  { destruct rows as [|x rows]; [split; reflexivity|].
    unfold write_rows. cbn [fold_left].
    pose proof (write_open_group st rows [x] [header_titles] []
                  (product_key x)) as H.
    cbn zeta in H. apply H.
    - discriminate.
    - intros a [<-|[]]. reflexivity. }
  split.
  - split; [apply runs_concat|]. split; [apply runs_are_runs|apply runs_maximal].
  - split; [apply H|]. split; [apply H|].
    intros ->. exact H.
Qed.

(** The three records of scenario A in the order of the writer: the run of
    Gadget on row 2 and the run of Widget on rows 3 and 4, merged. *)
Lemma merged_total_per_run_witness :
  cleaned (build_workbook scenario_state)
  = [ header_titles;
      [VInt 3; VStr (txt "Gadget"); VNone; VNone];
      [VInt 1; VStr (txt "Widget"); VInt 3; VInt 5];
      [VInt 2; VStr (txt "widget"); VInt 2; VNone] ]
  /\ cleaned_merges (build_workbook scenario_state) = [(3, 4, 4, 4)].
Proof.
  apply (proj2 (proj2 (proj2 (merged_total_per_run
                                scenario_state
                                (sort_rows (extracted_rows scenario_state)))))).
  reflexivity.
Defined.

(** ** Sorting *)

Section SortFacts.
Context {A : Type} (before : A -> A -> bool).

Lemma insert_by_perm : forall x l, Permutation (insert_by before x l) (x :: l).
Proof.
  induction l as [|y t IH]; simpl.
  - apply Permutation_refl.
  - destruct (before y x); [|apply Permutation_refl].
    eapply Permutation_trans; [apply perm_skip, IH | apply perm_swap].
Qed.

Lemma isort_perm : forall l, Permutation (isort before l) l.
Proof.
  induction l as [|x l IH]; simpl.
  - apply Permutation_refl.
  - eapply Permutation_trans; [apply insert_by_perm | apply perm_skip, IH].
Qed.

Variable ok : A -> Prop.
Hypothesis before_asym : forall x y,
  ok x -> ok y -> before y x = true -> before x y = false.
Hypothesis before_trans : forall x y z,
  ok x -> ok y -> ok z ->
  before y x = false -> before z y = false -> before z x = false.

Lemma insert_by_sorted : forall x l,
  ok x -> Forall ok l ->
  StronglySorted (in_order before) l ->
  StronglySorted (in_order before) (insert_by before x l).
Proof.
  induction l as [|y t IH]; intros Hx Hl Hs; simpl.
  - constructor; constructor.
  - inversion Hs as [|? ? Hst Hyt]; subst.
    inversion Hl as [|? ? Hy Ht]; subst.
    destruct (before y x) eqn:E.
    + constructor; [apply IH; assumption|].
      apply Forall_forall. intros z Hz.
      apply (Permutation_in _ (insert_by_perm x t)) in Hz.
      destruct Hz as [<-|Hz].
      * apply before_asym; assumption.
      * rewrite Forall_forall in Hyt. apply Hyt. exact Hz.
    + constructor; [exact Hs|].
      constructor; [exact E|].
      rewrite Forall_forall in Hyt, Ht. apply Forall_forall. intros z Hz.
      apply (before_trans x y z); auto. apply Hyt. exact Hz.
Qed.

Lemma isort_sorted : forall l,
  Forall ok l -> StronglySorted (in_order before) (isort before l).
Proof.
  induction l as [|x l IH]; intros H; simpl.
  - constructor.
  - inversion H; subst. apply insert_by_sorted; auto.
    rewrite Forall_forall in *. intros z Hz.
    apply (Permutation_in _ (isort_perm l)) in Hz. auto.
Qed.

(** Stability: records none of which goes in front of another keep the
    order they had. *)
Lemma insert_by_stable : forall (p : A -> bool) x l,
  (forall a b, p a = true -> p b = true -> before b a = false) ->
  filter p (insert_by before x l) = filter p (x :: l).
Proof.
  intros p x l Hp. induction l as [|y t IH]; simpl.
  - reflexivity.
  - destruct (before y x) eqn:E; [|reflexivity].
    simpl in *. rewrite IH.
    destruct (p x) eqn:Px, (p y) eqn:Py; try reflexivity.
    rewrite (Hp x y Px Py) in E. discriminate.
Qed.

Lemma isort_stable : forall (p : A -> bool) l,
  (forall a b, p a = true -> p b = true -> before b a = false) ->
  filter p (isort before l) = filter p l.
Proof.
  intros p l Hp. induction l as [|x l IH]; simpl.
  - reflexivity.
  - rewrite insert_by_stable by exact Hp. simpl. rewrite IH. reflexivity.
Qed.

End SortFacts.

Lemma insert_by_map : forall {A B : Type} (f : A -> B) before x l,
  insert_by before (f x) (map f l)
  = map f (insert_by (fun a b => before (f a) (f b)) x l).
Proof.
  induction l as [|y t IH]; simpl.
  - reflexivity.
  - destruct (before (f y) (f x)); simpl; [rewrite IH|]; reflexivity.
Qed.

Lemma sort_by_map : forall {A B K : Type} (f : A -> B) lt (key : B -> K) rev l,
  sort_by lt key rev (map f l) = map f (sort_by lt (fun a => key (f a)) rev l).
Proof.
  intros A B K f lt key rev. unfold sort_by. induction l as [|x l IH]; simpl.
  - reflexivity.
  - rewrite IH, insert_by_map. reflexivity.
Qed.

(** ** The order of floats *)

Lemma SFcompare_rank : forall x y,
  x <> S754_nan -> y <> S754_nan ->
  (SFltb x y = true <-> lex_lt (sf_rank x) (sf_rank y))
  /\ (SFleb x y = true <-> ~ lex_lt (sf_rank y) (sf_rank x)).
Proof.
  intros x y Hx Hy. unfold SFltb, SFleb.
  destruct x as [sx|sx| |sx mx ex], y as [sy|sy| |sy my ey];
    try congruence; clear Hx Hy; cbn [SFcompare sf_rank lex_lt].
  all: try (destruct sx); try (destruct sy); cbn [lex_lt];
    try (split; split; intros; try discriminate; try reflexivity; lia).
  all: change (PosDef.Pos.compare_cont Eq mx my) with (Pos.compare mx my);
    destruct (Z.compare_spec ex ey); destruct (Pos.compare_spec mx my);
    cbn [CompOpp];
    split; split; intros; try discriminate; try reflexivity; try lia.
Qed.

Lemma not_nan_spec : forall f, Flt.is_nan f = false -> Prim2SF f <> S754_nan.
Proof.
  intros f H E. unfold Flt.is_nan, PrimFloat.is_nan in H.
  rewrite eqb_spec, E in H. discriminate.
Qed.

Lemma ltb_asym : forall a b,
  PrimFloat.ltb a b = true -> PrimFloat.ltb b a = false.
Proof.
  intros a b. rewrite !ltb_spec. unfold SFltb.
  destruct (Prim2SF a) as [sx|sx| |sx mx ex], (Prim2SF b) as [sy|sy| |sy my ey];
    cbn [SFcompare]; try discriminate; try reflexivity.
  all: try (destruct sx); try (destruct sy); try discriminate;
    try reflexivity.
  all: change (PosDef.Pos.compare_cont Eq mx my) with (Pos.compare mx my);
    change (PosDef.Pos.compare_cont Eq my mx) with (Pos.compare my mx);
    rewrite (Z.compare_antisym ex ey), (Pos.compare_antisym mx my);
    destruct (Z.compare ex ey), (Pos.compare mx my); cbn [CompOpp];
    try discriminate; reflexivity.
Qed.

Lemma ltb_trans_neg : forall a b c,
  Flt.is_nan a = false -> Flt.is_nan b = false -> Flt.is_nan c = false ->
  PrimFloat.ltb a b = false -> PrimFloat.ltb b c = false ->
  PrimFloat.ltb a c = false.
Proof.
  intros a b c Ha Hb Hc. rewrite !ltb_spec.
  apply not_nan_spec in Ha, Hb, Hc.
  pose proof (proj1 (SFcompare_rank _ _ Ha Hb)) as Hab.
  pose proof (proj1 (SFcompare_rank _ _ Hb Hc)) as Hbc.
  pose proof (proj1 (SFcompare_rank _ _ Ha Hc)) as Hac.
  destruct (SFltb (Prim2SF a) (Prim2SF b)); [discriminate|].
  destruct (SFltb (Prim2SF b) (Prim2SF c)); [discriminate|].
  destruct (SFltb (Prim2SF a) (Prim2SF c)); [|reflexivity].
  intros _ _. exfalso.
  assert (H1 : ~ lex_lt (sf_rank (Prim2SF a)) (sf_rank (Prim2SF b)))
    by (intros H; apply Hab in H; discriminate).
  assert (H2 : ~ lex_lt (sf_rank (Prim2SF b)) (sf_rank (Prim2SF c)))
    by (intros H; apply Hbc in H; discriminate).
  assert (H3 : lex_lt (sf_rank (Prim2SF a)) (sf_rank (Prim2SF c)))
    by (apply Hac; reflexivity).
  destruct (sf_rank (Prim2SF a)) as [[a1 a2] a3].
  destruct (sf_rank (Prim2SF b)) as [[b1 b2] b3].
  destruct (sf_rank (Prim2SF c)) as [[c1 c2] c3].
  unfold lex_lt in *. lia.
Qed.

Lemma leb_not_ltb : forall a b,
  Flt.is_nan a = false -> Flt.is_nan b = false ->
  PrimFloat.ltb a b = false -> PrimFloat.leb b a = true.
Proof.
  intros a b Ha Hb. rewrite ltb_spec, leb_spec.
  apply not_nan_spec in Ha, Hb.
  destruct (SFcompare_rank _ _ Ha Hb) as [Hlt _].
  destruct (SFcompare_rank _ _ Hb Ha) as [_ Hle].
  intros H. apply Hle. intros Hl. apply Hlt in Hl. congruence.
Qed.

Lemma eqb_ties : forall t a b,
  PrimFloat.eqb t a = true -> PrimFloat.eqb t b = true ->
  PrimFloat.ltb a b = false.
Proof.
  intros t a b. rewrite !eqb_spec, ltb_spec. unfold SFeqb, SFltb.
  destruct (Prim2SF t) as [st|st| |st mt et],
           (Prim2SF a) as [sx|sx| |sx mx ex],
           (Prim2SF b) as [sy|sy| |sy my ey];
    cbn [SFcompare]; try discriminate; try reflexivity.
  all: try (destruct st); try (destruct sx); try (destruct sy);
    try discriminate; try reflexivity.
  all: change (PosDef.Pos.compare_cont Eq mt mx) with (Pos.compare mt mx);
    change (PosDef.Pos.compare_cont Eq mt my) with (Pos.compare mt my);
    change (PosDef.Pos.compare_cont Eq mx my) with (Pos.compare mx my);
    destruct (Z.compare_spec et ex); try discriminate;
    destruct (Pos.compare_spec mt mx); try discriminate;
    destruct (Z.compare_spec et ey); try discriminate;
    destruct (Pos.compare_spec mt my); try discriminate;
    intros _ _; subst;
    rewrite Z.compare_refl, Pos.compare_refl; reflexivity.
Qed.

(** ** Encounter order and display names *)

Lemma mem_existsb : forall {V : Type} (d : sdict V) k,
  Dict.mem Str.eqb d k = existsb (Str.eqb k) (Dict.keys d).
Proof.
  intros V d k. unfold Dict.mem.
  induction d as [|[k' v] d IH]; simpl; [reflexivity|].
  destruct (Str.eqb k k'); [reflexivity | exact IH].
Qed.

Lemma record_event_keys : forall st e,
  Dict.keys (product_totals (record_event st e))
  = if existsb (Str.eqb (event_key e)) (Dict.keys (product_totals st))
    then Dict.keys (product_totals st)
    else Dict.keys (product_totals st) ++ [event_key e].
Proof.
  intros st [[oid name] qty_raw].
  unfold record_event, add_record, event_key. cbn [product_totals].
  rewrite <- mem_existsb. unfold sset.
  destruct (numeric qty_raw).
  - apply (keys_set Str.eqb).
  - apply (keys_setdefault Str.eqb).
Qed.

Lemma keys_after : forall evs st,
  Dict.keys (product_totals (fold_left record_event evs st))
  = Dict.keys (product_totals st)
      ++ first_seen (Dict.keys (product_totals st)) (map event_key evs).
Proof.
  induction evs as [|e evs IH]; intros st; cbn [fold_left map first_seen].
  - rewrite app_nil_r. reflexivity.
  - rewrite IH, record_event_keys.
    destruct (existsb (Str.eqb (event_key e)) (Dict.keys (product_totals st))).
    + reflexivity.
    + rewrite <- app_assoc. reflexivity.
Qed.

Lemma record_event_names : forall st e key,
  key <> [] ->
  sget (product_display_names (record_event st e)) key
  = match sget (product_display_names st) key with
    | Some v => Some v
    | None =>
        if Str.eqb (event_key e) key
        then Some (let '(_, name, _) := e in name)
        else None
    end.
Proof.
  intros st [[oid name] qty_raw] key Hkey.
  unfold record_event, add_record, event_key, sget, sset, Dict.mem.
  cbn [product_display_names].
  destruct (str_eqb_spec (normalize_product_name name) key) as [->|Hne].
  - destruct key as [|c key]; [congruence|]. cbn [Str.is_empty negb andb].
    destruct (Dict.get Str.eqb (product_display_names st) (c :: key))
      eqn:E; cbn [negb].
    + exact E.
    + apply (get_set_same Str.eqb str_eqb_eq).
  - destruct (negb (Str.is_empty (normalize_product_name name))
              && negb match Dict.get Str.eqb (product_display_names st)
                              (normalize_product_name name) with
                      | Some _ => true
                      | None => false
                      end).
    + rewrite (get_set_other Str.eqb str_eqb_eq) by exact Hne.
      destruct (Dict.get Str.eqb (product_display_names st) key);
        reflexivity.
    + destruct (Dict.get Str.eqb (product_display_names st) key);
        reflexivity.
Qed.

Lemma names_after : forall evs st key,
  key <> [] ->
  sget (product_display_names (fold_left record_event evs st)) key
  = match sget (product_display_names st) key with
    | Some v => Some v
    | None => first_name key evs
    end.
Proof.
  induction evs as [|e evs IH]; intros st key Hkey; cbn [fold_left].
  - destruct (sget (product_display_names st) key); reflexivity.
  - rewrite IH, record_event_names by exact Hkey.
    unfold first_name. cbn [find].
    destruct (sget (product_display_names st) key); [reflexivity|].
    destruct (Str.eqb (event_key e) key); [|reflexivity].
    destruct e as [[oid name] qty_raw]. reflexivity.
Qed.

(** The aggregator iterates over its keys in the order in which the records
    bring them up first, and the display name of a non-empty key is the
    product name cell of the first record of that key: later records of the
    key never replace it. *)
Theorem first_occurrence_wins :
  forall (cols : columns) (rows : list (list value)) (st : aggregator),
    extract_rows cols rows = Ok st ->
    Dict.keys (product_totals st)
    = first_seen [] (map event_key (events cols rows))
    /\ forall key, key <> [] ->
         sget (product_display_names st) key
         = first_name key (events cols rows).
Proof.
  intros cols rows st H. apply extract_rows_events in H. subst st. split.
  - rewrite keys_after. reflexivity.
  - intros key Hkey. rewrite names_after by exact Hkey. reflexivity.
Qed.

(** In scenario A the keys are widget, gadget, and the name shown for
    widget is Widget, as the first row spells it. *)
Lemma first_occurrence_wins_witness :
  Dict.keys (product_totals scenario_state) = [txt "widget"; txt "gadget"]
  /\ sget (product_display_names scenario_state) (txt "widget")
     = Some (VStr (txt "Widget")).
Proof.
  split.
  - exact (proj1 (first_occurrence_wins scenario_columns scenario_rows
                    scenario_state eq_refl)).
  - apply (proj2 (first_occurrence_wins scenario_columns scenario_rows
                    scenario_state eq_refl) (txt "widget")).
    discriminate.
Defined.

(** ** The summary *)

Lemma summary_entries_of_keys : forall st (d : sdict float),
  (forall k v, In (k, v) d -> sget (product_totals st) k = Some v) ->
  flat_map (summary_entry st) d
  = map (summary_pair st) (filter (is_ranked st) (Dict.keys d)).
Proof.
  intros st. induction d as [|[k v] d IH]; intros H; simpl.
  - reflexivity.
  - rewrite IH by (intros; apply H; right; assumption).
    unfold is_ranked at 2.
    destruct (Str.is_empty k); cbn [negb andb]; [reflexivity|].
    destruct (sget (product_has_numeric st) k) as [[|]|]; try reflexivity.
    cbn [app map]. f_equal. unfold summary_pair, total_of, Dict.get_default.
    fold (sget (product_totals st) k).
    rewrite (H k v) by (left; reflexivity). reflexivity.
Qed.

Lemma record_event_keys_nodup : forall st e,
  NoDup (Dict.keys (product_totals st)) ->
  NoDup (Dict.keys (product_totals (record_event st e))).
Proof.
  intros st [[oid name] qty_raw] H.
  unfold record_event, add_record. cbn [product_totals].
  destruct (numeric qty_raw).
  - apply (NoDup_keys_set Str.eqb str_eqb_eq). exact H.
  - unfold Dict.setdefault.
    destruct (Dict.mem Str.eqb (product_totals st)
                (normalize_product_name name)); [exact H|].
    apply (NoDup_keys_set Str.eqb str_eqb_eq). exact H.
Qed.

Lemma keys_nodup_after : forall evs st,
  NoDup (Dict.keys (product_totals st)) ->
  NoDup (Dict.keys (product_totals (fold_left record_event evs st))).
Proof.
  induction evs as [|e evs IH]; intros st H; cbn [fold_left]; [exact H|].
  apply IH, record_event_keys_nodup, H.
Qed.

Lemma summary_rows_of_keys : forall st,
  NoDup (Dict.keys (product_totals st)) ->
  summary_rows st = map (summary_pair st) (ranked_keys st).
Proof.
  intros st H. unfold summary_rows, ranked_keys.
  rewrite summary_entries_of_keys.
  - apply (sort_by_map (summary_pair st) PrimFloat.ltb snd true).
  - intros k v Hin. apply (get_of_In Str.eqb str_eqb_eq); assumption.
Qed.

Lemma sort_by_perm : forall {A K : Type} lt (key : A -> K) rev l,
  Permutation (sort_by lt key rev l) l.
Proof. intros. apply isort_perm. Qed.

Lemma is_ranked_after : forall evs key,
  is_ranked (fold_left record_event evs empty_aggregator) key = true
  <-> key <> [] /\ numeric_quantities key evs <> [].
Proof.
  intros evs key. unfold is_ranked. rewrite numeric_after.
  cbn [empty_aggregator product_has_numeric sget Dict.get].
  destruct key as [|c key]; cbn [Str.is_empty negb andb].
  - split; [discriminate | intros [H _]; congruence].
  - destruct (numeric_quantities (c :: key) evs).
    + split; [discriminate | intros [_ H]; congruence].
    + split; [intros _; split; discriminate | reflexivity].
Qed.

Lemma key_seen_after : forall evs key,
  In key (Dict.keys (product_totals (fold_left record_event evs empty_aggregator)))
  <-> existsb (fun e => Str.eqb (event_key e) key) evs = true.
Proof.
  intros evs key.
  rewrite <- (get_In_keys Str.eqb str_eqb_eq).
  fold (sget (product_totals (fold_left record_event evs empty_aggregator)) key).
  rewrite totals_after.
  cbn [empty_aggregator product_totals sget Dict.get].
  destruct (existsb (fun e => Str.eqb (event_key e) key) evs);
    split; congruence.
Qed.

Lemma summary_sheet_parts : forall st,
  summary_sheet st
  = summary_head st ++ map ranked_row (summary_rows st)
      ++ best_selling_rows (summary_rows st).
Proof.
  intros st. unfold summary_sheet, summary_head. f_equal. f_equal.
  - apply map_ext. intros [name total]. reflexivity.
  - destruct (summary_rows st) as [|[name total] rest]; reflexivity.
Qed.

Lemma StronglySorted_weaken : forall {A : Type} (R R' : A -> A -> Prop)
                                     (ok : A -> Prop) l,
  (forall x y, ok x -> ok y -> R x y -> R' x y) ->
  Forall ok l -> StronglySorted R l -> StronglySorted R' l.
Proof.
  intros A R R' ok l H. induction l as [|x l IH]; intros Hok Hs.
  - constructor.
  - inversion Hok; subst. inversion Hs as [|? ? Hl Hx]; subst.
    constructor; [auto|].
    rewrite Forall_forall in *. intros y Hy. apply H; auto.
Qed.

Lemma no_nan_candidates : forall st,
  (forall entry, In entry (summary_rows st) ->
                 Flt.is_nan (snd entry) = false) ->
  Forall (fun e => Flt.is_nan (snd e) = false)
         (flat_map (summary_entry st) (product_totals st)).
Proof.
  intros st Hnan. apply Forall_forall. intros e He. apply Hnan.
  unfold summary_rows.
  apply (Permutation_in _ (Permutation_sym (sort_by_perm _ _ _ _))).
  exact He.
Qed.

(** C6, as the code has it.  The ranked list holds, each once, the pairs of
    display name and total of the keys that are not empty and have at least
    one numeric quantity, and of no other key.  The sheet shows the ranked
    pairs and then the best-selling product, which is the first pair, when
    there is a pair, and nothing otherwise.  When no total in the list is a
    NaN, the list descends by total, and the keys of equal total stand in
    the order in which the aggregator iterates over its keys, which is the
    order in which the records bring the keys up first. *)
Theorem summary_ranking :
  forall (cols : columns) (rows : list (list value)) (st : aggregator),
    extract_rows cols rows = Ok st ->
    Permutation (summary_rows st)
                (map (summary_pair st) (ranking_candidates st))
    /\ NoDup (ranking_candidates st)
    /\ (forall key, In key (ranking_candidates st)
                    <-> key <> []
                        /\ numeric_quantities key (events cols rows) <> [])
    /\ Dict.keys (product_totals st)
       = first_seen [] (map event_key (events cols rows))
    /\ summary_sheet st
       = summary_head st ++ map ranked_row (summary_rows st)
           ++ best_selling_rows (summary_rows st)
    /\ ((forall entry, In entry (summary_rows st) ->
                       Flt.is_nan (snd entry) = false) ->
        descending (summary_rows st)
        /\ exists ranked,
             summary_rows st = map (summary_pair st) ranked
             /\ forall t, with_total st t ranked
                          = with_total st t (ranking_candidates st)).
Proof.
  intros cols rows st H.
  apply extract_rows_events in H.
  assert (Hnd : NoDup (Dict.keys (product_totals st))).
  { subst st. apply keys_nodup_after. constructor. }
  assert (Hflat : flat_map (summary_entry st) (product_totals st)
                  = map (summary_pair st) (ranking_candidates st)).
  { apply summary_entries_of_keys.
    intros k v Hin. apply (get_of_In Str.eqb str_eqb_eq); assumption. }
  split.
  { unfold summary_rows. rewrite <- Hflat. apply sort_by_perm. }
  split; [apply NoDup_filter; exact Hnd|].
  split.
  { intros key. unfold ranking_candidates. rewrite filter_In. subst st.
    rewrite is_ranked_after. split.
    - intros [_ Hr]. exact Hr.
    - intros Hk. split; [|exact Hk].
      apply key_seen_after. apply numeric_quantities_key_seen. apply Hk. }
  split.
  { subst st. rewrite keys_after. reflexivity. }
  split; [apply summary_sheet_parts|].
  intros Hnan. split.
  { apply (StronglySorted_weaken
             (in_order (fun y x : value * float => PrimFloat.ltb (snd x) (snd y)))
             _ (fun e => Flt.is_nan (snd e) = false)).
    - intros x y Hx Hy Hxy. apply leb_not_ltb; assumption.
    - apply Forall_forall. exact Hnan.
    - apply (isort_sorted
               (fun y x : value * float => PrimFloat.ltb (snd x) (snd y))
               (fun e => Flt.is_nan (snd e) = false)).
      + intros x y _ _. apply ltb_asym.
      + intros x y z Hx Hy Hz. unfold in_order. apply ltb_trans_neg; assumption.
      + apply no_nan_candidates. exact Hnan. }
  exists (ranked_keys st). split.
  { apply summary_rows_of_keys. exact Hnd. }
  intros t. unfold with_total, ranked_keys, ranking_candidates.
  apply (isort_stable
           (fun y x : str => PrimFloat.ltb (total_of st x) (total_of st y))).
  intros a b Ha Hb. eapply eqb_ties; eassumption.
Qed.

(** Four products of which three are ranked: Bolt with 7, then Widget and
    Gadget with 5 each, Widget first since its first record comes first.
    Nut, which never had a number, is not ranked. *)
Lemma summary_ranking_witness :
  Permutation
    [(VStr (txt "Bolt"), 7%float); (VStr (txt "Widget"), 5%float);
     (VStr (txt "Gadget"), 5%float)]
    [(VStr (txt "Widget"), 5%float); (VStr (txt "Gadget"), 5%float);
     (VStr (txt "Bolt"), 7%float)]
  /\ Dict.keys (product_totals ranking_state)
     = [txt "widget"; txt "gadget"; txt "bolt"; txt "nut"]
  /\ summary_sheet ranking_state
     = summary_head ranking_state
         ++ [ [VStr (txt "Bolt"); VInt 7];
              [VStr (txt "Widget"); VInt 5];
              [VStr (txt "Gadget"); VInt 5] ]
         ++ [ [];
              [VStr (txt "Best-selling product"); VStr (txt "Bolt")];
              [VStr (txt "Sales amount (numeric)"); VInt 7] ]
  /\ descending
       [(VStr (txt "Bolt"), 7%float); (VStr (txt "Widget"), 5%float);
        (VStr (txt "Gadget"), 5%float)]
  /\ exists ranked,
       [(VStr (txt "Bolt"), 7%float); (VStr (txt "Widget"), 5%float);
        (VStr (txt "Gadget"), 5%float)]
       = map (summary_pair ranking_state) ranked
       /\ forall t, with_total ranking_state t ranked
                    = with_total ranking_state t
                        [txt "widget"; txt "gadget"; txt "bolt"].
Proof.
  assert (Hst : extract_rows scenario_columns ranking_rows = Ok ranking_state).
  { vm_compute. reflexivity. }
  assert (Hnan : forall entry, In entry (summary_rows ranking_state) ->
                               Flt.is_nan (snd entry) = false).
  { intros entry [<-|[<-|[<-|[]]]]; vm_compute; reflexivity. }
  pose proof (summary_ranking scenario_columns ranking_rows ranking_state Hst)
    as (Hperm & _ & _ & Hkeys & Hsheet & Horder).
  split; [exact Hperm|].
  split; [exact Hkeys|].
  split; [exact Hsheet|].
  exact (Horder Hnan).
Defined.

Lemma leb_nan_l : forall x, PrimFloat.leb nan x = false.
Proof.
  intros x. rewrite leb_spec. unfold SFleb, SFcompare.
  change (Prim2SF nan) with S754_nan. reflexivity.
Qed.

Lemma leb_nan_r : forall x, PrimFloat.leb x nan = false.
Proof.
  intros x. rewrite leb_spec. unfold SFleb, SFcompare.
  change (Prim2SF nan) with S754_nan. destruct (Prim2SF x); reflexivity.
Qed.

(** C6, as stated, fails: with a NaN among the totals the ranked list is b,
    a, c with the totals 1, NaN, 2.  It does not descend, and the
    best-selling product shown is b although c sold more.  (No comparison
    with a NaN holds, so the sort finds nothing to move: the three pairs
    stay in the order of the rows.  No order of these three pairs
    descends.) *)
Lemma ranking_not_descending_with_nan :
  exists st,
    aggregate nan_sheet = Ok st
    /\ summary_rows st
       = [(VStr (txt "b"), 1%float); (VStr (txt "a"), nan);
          (VStr (txt "c"), 2%float)]
    /\ ~ descending (summary_rows st)
    /\ (forall ranked, Permutation ranked (summary_rows st) ->
                       ~ descending ranked)
    /\ best_selling_rows (summary_rows st)
       = [ [];
           [VStr (txt "Best-selling product"); VStr (txt "b")];
           [VStr (txt "Sales amount (numeric)"); VInt 1] ].
Proof.
  assert (Hany : forall ranked,
            Permutation ranked
              [(VStr (txt "b"), 1%float); (VStr (txt "a"), nan);
               (VStr (txt "c"), 2%float)] ->
            ~ descending ranked).
  { intros ranked Hp Hd.
    assert (Hin : In (VStr (txt "a"), nan) ranked).
    { apply (Permutation_in _ (Permutation_sym Hp)). right. left. reflexivity. }
    assert (Hlen : List.length ranked = 3).
    { rewrite (Permutation_length Hp). reflexivity. }
    unfold descending in Hd.
    destruct ranked as [|x [|y [|z [|]]]]; try discriminate Hlen.
    inversion Hd as [|? ? Hd1 Hf1]; subst.
    inversion Hd1 as [|? ? Hd2 Hf2]; subst.
    inversion Hf1 as [|? ? Hxy Hf1']; subst.
    inversion Hf1' as [|? ? Hxz _]; subst.
    inversion Hf2 as [|? ? Hyz _]; subst.
    destruct Hin as [Hn|[Hn|[Hn|[]]]]; subst; cbn [snd] in *.
    - rewrite leb_nan_r in Hxy. discriminate Hxy.
    - rewrite leb_nan_l in Hxy. discriminate Hxy.
    - rewrite leb_nan_l in Hxz. discriminate Hxz. }
  eexists. split; [vm_compute; reflexivity|].
  split; [vm_compute; reflexivity|].
  split; [|split; [|vm_compute; reflexivity]].
  - apply Hany. apply Permutation_refl.
  - exact Hany.
Qed.

(** ** The order of the records *)

(** C2 on [emoji_sheet]: the record without product name, whose key is
    empty, is written before the record of the product named with U+1F600,
    because that key is greater than the text U+FFFF put in place of the
    empty key. *)
Theorem empty_key_not_last :
  Str.ltb sentinel (128512%N :: txt " party") = true
  /\ exists st,
       aggregate emoji_sheet = Ok st
       /\ map product_key (sort_rows (extracted_rows st))
          = [txt "apple"; []; 128512%N :: txt " party"]
       /\ cleaned (build_workbook st)
          = [ header_titles;
              [VInt 3; VStr (txt "apple"); VFloat 2.5; VFloat 2.5];
              [VInt 1; VNone; VInt 1; VInt 1];
              [VInt 2; VStr (128512%N :: txt " Party"); VInt 4; VInt 4] ].
Proof.
  split; [vm_compute; reflexivity|].
  eexists. split; [vm_compute; reflexivity|].
  split; vm_compute; reflexivity.
Qed.

(** ** Errors *)

(** C5 on two sheets that have an order id column and a product column.  A
    header cell holding a number makes [normalize_header] fail, since a
    number has no [strip]; an integer quantity too large for a float makes
    [float] fail with an error that [parse_quantity] does not catch.  Both
    end the run. *)
Theorem errors_beyond_the_fatal_three :
  clean_excel
    (Some (mk_worksheet
             [VInt 2024; VStr (txt "id"); VStr (txt "Product Name")] []))
  = Raise (AttributeError "object has no attribute 'strip'")
  /\ resolve_headers
       [VStr (txt "id"); VStr (txt "Product Name"); VStr (txt "Quantity")]
     = Ok (mk_columns [(1%Z, 1)] [(1%Z, 2)] (Some 0))
  /\ clean_excel
       (Some (mk_worksheet
                [VStr (txt "id"); VStr (txt "Product Name");
                 VStr (txt "Quantity")]
                [[VInt 1; VStr (txt "Widget"); VInt (10 ^ 400)]]))
     = Raise (OverflowError "int too large to convert to float").
Proof. split; [|split]; vm_compute; reflexivity. Qed.

(** ** The order of texts and of sort keys *)

Lemma str_ltb_irrefl : forall a, Str.ltb a a = false.
Proof.
  induction a as [|x a IH]; simpl; [reflexivity|].
  rewrite N.ltb_irrefl. exact IH.
Qed.

Lemma str_ltb_trans : forall a b c,
  Str.ltb a b = true -> Str.ltb b c = true -> Str.ltb a c = true.
Proof.
  induction a as [|x a IH]; intros [|y b] [|z c]; simpl; try discriminate;
    try reflexivity.
  destruct (N.ltb_spec x y),
           (N.ltb_spec y x),
           (N.ltb_spec y z),
           (N.ltb_spec z y),
           (N.ltb_spec x z),
           (N.ltb_spec z x);
    try discriminate; try reflexivity; try lia.
  apply IH.
Qed.

Lemma str_ltb_total : forall a b,
  Str.ltb a b = false -> Str.ltb b a = false -> a = b.
Proof.
  induction a as [|x a IH]; intros [|y b]; simpl; try discriminate;
    try reflexivity.
  destruct (N.ltb_spec x y),
           (N.ltb_spec y x);
    try discriminate; try lia.
  intros Hab Hba. f_equal; [lia | apply IH; assumption].
Qed.

Lemma tuple_ltb_irrefl : forall a, tuple_ltb a a = false.
Proof.
  intros [[a1 a2] a3]. unfold tuple_ltb.
  rewrite !str_eqb_refl. apply Nat.ltb_irrefl.
Qed.

Lemma tuple_ltb_total : forall a b,
  tuple_ltb a b = false -> tuple_ltb b a = false -> a = b.
Proof.
  intros [[a1 a2] a3] [[b1 b2] b3]. unfold tuple_ltb.
  destruct (str_eqb_spec a1 b1) as [->|H1].
  - rewrite str_eqb_refl.
    destruct (str_eqb_spec a2 b2) as [->|H2].
    + rewrite str_eqb_refl. intros Hab Hba.
      apply Nat.ltb_ge in Hab, Hba. f_equal. lia.
    + destruct (str_eqb_spec b2 a2) as [->|_]; [congruence|].
      intros Hab Hba. elim H2. apply str_ltb_total; assumption.
  - destruct (str_eqb_spec b1 a1) as [->|_]; [congruence|].
    intros Hab Hba. elim H1. apply str_ltb_total; assumption.
Qed.

Lemma str_ltb_neq : forall a b, Str.ltb a b = true -> a <> b.
Proof. intros a b H ->. rewrite str_ltb_irrefl in H. discriminate. Qed.

Lemma tuple_ltb_trans : forall a b c,
  tuple_ltb a b = true -> tuple_ltb b c = true -> tuple_ltb a c = true.
Proof.
  intros [[a1 a2] a3] [[b1 b2] b3] [[c1 c2] c3]. unfold tuple_ltb.
  destruct (str_eqb_spec a1 b1) as [->|H1].
  - destruct (str_eqb_spec b1 c1) as [->|H2]; [|auto].
    destruct (str_eqb_spec a2 b2) as [->|H3].
    + destruct (str_eqb_spec b2 c2) as [->|H4]; [|auto].
      intros Hab Hbc. apply Nat.ltb_lt in Hab, Hbc. apply Nat.ltb_lt. lia.
    + destruct (str_eqb_spec b2 c2) as [->|H4].
      * apply str_eqb_neq in H3. rewrite H3. auto.
      * intros Hab Hbc. pose proof (str_ltb_trans _ _ _ Hab Hbc) as Hac.
        pose proof (str_ltb_neq _ _ Hac) as Hn.
        apply str_eqb_neq in Hn. rewrite Hn. exact Hac.
  - destruct (str_eqb_spec b1 c1) as [->|H2].
    + apply str_eqb_neq in H1. rewrite H1. auto.
    + intros Hab Hbc. pose proof (str_ltb_trans _ _ _ Hab Hbc) as Hac.
      pose proof (str_ltb_neq _ _ Hac) as Hn.
      apply str_eqb_neq in Hn. rewrite Hn. exact Hac.
Qed.

Lemma sort_rows_sorted : forall rows, StronglySorted key_order (sort_rows rows).
Proof.
  intros rows.
  apply (isort_sorted (fun y x => tuple_ltb (sort_key y) (sort_key x))
                      (fun _ => True)).
  - intros x y _ _ H.
    destruct (tuple_ltb (sort_key x) (sort_key y)) eqn:E; [|reflexivity].
    pose proof (tuple_ltb_trans _ _ _ H E) as Hyy.
    rewrite tuple_ltb_irrefl in Hyy. discriminate.
  - intros x y z _ _ _ Hyx Hzy.
    destruct (tuple_ltb (sort_key z) (sort_key x)) eqn:E; [|reflexivity].
    destruct (tuple_ltb (sort_key x) (sort_key y)) eqn:Exy.
    + rewrite (tuple_ltb_trans _ _ _ E Exy) in Hzy. discriminate.
    + rewrite <- (tuple_ltb_total _ _ Exy Hyx) in Hzy. congruence.
  - apply Forall_forall. intros; exact I.
Qed.

Lemma sorted_after : forall (R : item -> item -> Prop) before a after,
  StronglySorted R (before ++ a :: after) -> Forall (R a) after.
Proof.
  induction before as [|x before IH]; intros a after H; simpl in H;
    inversion H; subst; auto.
Qed.

(** The writer's order.  The records are written in an order that is a
    rearrangement of the extracted records and ascends by the key triple:
    product key with U+FFFF in place of the empty key, text of the order id,
    sequence number.  No record whose key is non-empty and below U+FFFF
    comes after a record with the empty key. *)
Theorem sort_rows_ascending :
  forall rows : list item,
    Permutation (sort_rows rows) rows
    /\ StronglySorted key_order (sort_rows rows)
    /\ forall before a after b,
         sort_rows rows = before ++ a :: after ->
         product_key a = [] ->
         In b after ->
         product_key b <> [] ->
         Str.ltb (product_key b) sentinel = false.
Proof.
  intros rows. split; [apply sort_by_perm|].
  split; [apply sort_rows_sorted|].
  intros before a after b Hs Ha Hb Hkey.
  pose proof (sort_rows_sorted rows) as H. rewrite Hs in H.
  apply sorted_after in H. rewrite Forall_forall in H.
  specialize (H b Hb). unfold key_order, sort_key, tuple_ltb in H.
  rewrite Ha in H. cbn [Str.is_empty] in H.
  destruct (product_key b) as [|c k] eqn:E; [congruence|].
  cbn [Str.is_empty] in H.
  destruct (str_eqb_spec (c :: k) sentinel) as [->|_].
  - apply str_ltb_irrefl.
  - exact H.
Qed.

(** The two records of [emoji_sheet] with the empty key and with the key
    above U+FFFF: the second is written after the first. *)
Lemma sort_rows_ascending_witness :
  Str.ltb (128512%N :: txt " party") sentinel = false.
Proof.
  apply (proj2 (proj2 (sort_rows_ascending
                         [ mk_item [] (VInt 1) VNone (VInt 1) 0;
                           mk_item (128512%N :: txt " party") (VInt 2)
                             (VStr (128512%N :: txt " Party")) (VInt 4) 1 ]))
           [] (mk_item [] (VInt 1) VNone (VInt 1) 0)
           [mk_item (128512%N :: txt " party") (VInt 2)
              (VStr (128512%N :: txt " Party")) (VInt 4) 1]
           (mk_item (128512%N :: txt " party") (VInt 2)
              (VStr (128512%N :: txt " Party")) (VInt 4) 1)).
  - vm_compute. reflexivity.
  - reflexivity.
  - left. reflexivity.
  - discriminate.
Defined.

(** ** Errors on regular sheets *)

Lemma set_not_nil : forall {V : Type} (d : zdict V) k v, zset d k v <> [].
Proof.
  intros V [|[k' v'] d] k v; unfold zset; simpl; [discriminate|].
  destruct (Z.eqb k k'); discriminate.
Qed.

Lemma header_step_product_cols : forall cols i cell cols',
  header_step cols (i, cell) = Ok cols' ->
  has_product_cols cols' = has_product_cols cols || is_product_header cell.
Proof.
  intros cols i cell cols'. unfold header_step, is_product_header.
  destruct (normalize_header (py_or cell (VStr []))) as [key|e]; cbn [bind];
    [|discriminate].
  destruct (str_eqb_spec key (txt "order_id")) as [->|_].
  - intros H. inversion H. unfold has_product_cols.
    cbn [product_name_cols quantity_cols].
    change (is_some (name_match (txt "order_id"))) with false.
    change (is_some (qty_match (txt "order_id"))) with false.
    rewrite orb_false_r. reflexivity.
  - destruct cols as [pn q oc]. cbn [product_name_cols quantity_cols order_col].
    destruct (name_match key) as [d1|];
      [destruct (group_number d1) as [n1|]; cbn [bind]; [|discriminate]|];
      (destruct (qty_match key) as [d2|];
       [destruct (group_number d2) as [n2|]; cbn [bind]; [|discriminate]|]);
      intros H; inversion H; unfold has_product_cols;
      cbn [product_name_cols quantity_cols order_col is_some orb].
    + pose proof (set_not_nil pn n1 i).
      destruct (zset pn n1 i); [congruence|].
      rewrite orb_true_r. reflexivity.
    + pose proof (set_not_nil pn n1 i).
      destruct (zset pn n1 i); [congruence|].
      rewrite orb_true_r. reflexivity.
    + pose proof (set_not_nil q n2 i).
      destruct (zset q n2 i); [congruence|].
      rewrite orb_true_r. destruct pn; reflexivity.
    + rewrite orb_false_r. reflexivity.
Qed.

(** The digits of a header key are digits of the header text. *)
Lemma digit_count_cons : forall c s,
  digit_count s <= digit_count (c :: s) <= S (digit_count s).
Proof.
  intros c s. unfold digit_count. cbn [filter].
  destruct (Str.is_digit c); cbn [List.length]; lia.
Qed.

Lemma digit_count_app : forall a b,
  digit_count (a ++ b) = digit_count a + digit_count b.
Proof.
  intros a b. unfold digit_count. rewrite filter_app, length_app. reflexivity.
Qed.

Lemma digit_count_lstrip : forall s,
  digit_count (Str.lstrip Str.is_space s) <= digit_count s.
Proof.
  induction s as [|c s IH]; cbn [Str.lstrip]; [lia|].
  destruct (Str.is_space c); [|lia].
  pose proof (digit_count_cons c s). lia.
Qed.

Lemma digit_count_rstrip : forall s,
  digit_count (Str.rstrip Str.is_space s) <= digit_count s.
Proof.
  induction s as [|c s IH]; cbn [Str.rstrip]; [lia|].
  destruct (Str.is_space c && Str.is_empty (Str.rstrip Str.is_space s)).
  - cbn. lia.
  - unfold digit_count in *. cbn [filter].
    destruct (Str.is_digit c); cbn [List.length]; lia.
Qed.

Lemma digit_count_zero : forall l,
  digit_count l = 0 \/ exists x, In x l /\ Str.is_digit x = true.
Proof.
  induction l as [|x l IH]; [left; reflexivity|].
  destruct (Str.is_digit x) eqn:Ex.
  - right. exists x. split; [left; reflexivity | exact Ex].
  - destruct IH as [H0|(y & Hy & Hd)].
    + left. unfold digit_count in *. cbn [filter]. rewrite Ex. exact H0.
    + right. exists y. split; [right; exact Hy | exact Hd].
Qed.

Lemma digit_count_lower : forall s b,
  digit_count (Str.lower_from b s) <= digit_count s.
Proof.
  induction s as [|c t IH]; intros b; [cbn; lia|].
  rewrite lower_from_cons, digit_count_app.
  specialize (IH (if Uni.is_case_ignorable c then b else Uni.is_cased c)).
  assert (Hc : digit_count (lower_chunk b c t) <= digit_count [c]).
  { destruct (digit_count_zero (lower_chunk b c t)) as [H0|(x & Hx & Hd)];
      [lia|].
    destruct (lower_chunk_cases b c t x Hx)
      as [(_ & -> & _)|(_ & _ & Hnd & _)]; [lia | congruence]. }
  change (c :: t) with ([c] ++ t). rewrite digit_count_app. lia.
Qed.

Lemma digit_count_sub_runs : forall s b,
  digit_count (Str.sub_runs header_separator [] b s) <= digit_count s.
Proof.
  induction s as [|c s IH]; intros b; cbn [Str.sub_runs]; [lia|].
  destruct (header_separator c).
  - pose proof (digit_count_cons c s).
    destruct b; cbn [app]; [specialize (IH true) | specialize (IH true)]; lia.
  - specialize (IH false). unfold digit_count in *. cbn [filter].
    destruct (Str.is_digit c); cbn [List.length]; lia.
Qed.

Lemma digit_count_header_key : forall s,
  digit_count (header_key s) <= digit_count s.
Proof.
  intros s. unfold header_key, Str.re_sub_runs, Str.lower, Str.strip.
  pose proof (digit_count_sub_runs
                (Str.lower_from false
                   (Str.rstrip Str.is_space (Str.lstrip Str.is_space s)))
                false).
  pose proof (digit_count_lower
                (Str.rstrip Str.is_space (Str.lstrip Str.is_space s)) false).
  pose proof (digit_count_rstrip (Str.lstrip Str.is_space s)).
  pose proof (digit_count_lstrip s). lia.
Qed.

Lemma match_prefix_digit_count : forall prefix key digits,
  match_prefix_digits prefix key = Some digits ->
  List.length digits <= digit_count key.
Proof.
  intros prefix key digits. unfold match_prefix_digits.
  destruct (Str.strip_prefix prefix key) as [rest|] eqn:E; [|discriminate].
  intros H. injection H as <-.
  assert (Hrest : digit_count rest <= digit_count key).
  { revert key E. induction prefix as [|a p IH]; intros key E.
    - injection E as <-. lia.
    - destruct key as [|c k]; [discriminate E|]. cbn [Str.strip_prefix] in E.
      destruct (N.eqb a c); [|discriminate E].
      specialize (IH k E). pose proof (digit_count_cons c k). lia. }
  assert (Hspan : List.length (fst (Str.span Str.is_digit rest))
                  <= digit_count rest).
  { clear. induction rest as [|c r IH]; [cbn; lia|].
    cbn [Str.span]. unfold digit_count in *. cbn [filter].
    destruct (Str.is_digit c); [|cbn; lia].
    destruct (Str.span Str.is_digit r) as [a b0]. cbn [fst List.length] in *.
    lia. }
  lia.
Qed.

Lemma group_number_ok : forall digits,
  (Z.of_nat (List.length digits) <= max_str_digits)%Z ->
  is_ok (group_number digits) = true.
Proof.
  intros digits H. rewrite group_number_limit.
  destruct (Z.leb_spec (Z.of_nat (List.length digits)) max_str_digits);
    [reflexivity | lia].
Qed.

(** The body of the loop on a key whose digits are within the limit. *)
Lemma header_step_key_ok : forall cols i key,
  (Z.of_nat (digit_count key) <= max_str_digits)%Z ->
  is_ok (if Str.eqb key (txt "order_id") then
           Ok (mk_columns (product_name_cols cols) (quantity_cols cols) (Some i))
         else
           cols1 <-
             match name_match key with
             | Some digits =>
                 num <- group_number digits ;;
                 Ok (mk_columns (zset (product_name_cols cols) num i)
                                (quantity_cols cols) (order_col cols))
             | None => Ok cols
             end ;;
           match qty_match key with
           | Some digits =>
               num <- group_number digits ;;
               Ok (mk_columns (product_name_cols cols1)
                              (zset (quantity_cols cols1) num i)
                              (order_col cols1))
           | None => Ok cols1
           end) = true.
Proof.
  intros cols i key Hk.
  destruct (Str.eqb key (txt "order_id")); [reflexivity|].
  assert (Hn : forall d, name_match key = Some d ->
                         is_ok (group_number d) = true).
  { intros d Hd. apply group_number_ok.
    apply match_prefix_digit_count in Hd. lia. }
  assert (Hq : forall d, qty_match key = Some d ->
                         is_ok (group_number d) = true).
  { intros d Hd. apply group_number_ok. unfold qty_match in Hd.
    destruct (match_prefix_digits (txt "productquantity") key) as [d'|] eqn:E.
    - injection Hd as <-. apply match_prefix_digit_count in E. lia.
    - apply match_prefix_digit_count in Hd. lia. }
  destruct (name_match key) as [d1|].
  - specialize (Hn d1 eq_refl).
    destruct (group_number d1); [|discriminate Hn]. cbn [bind].
    destruct (qty_match key) as [d2|]; [|reflexivity].
    specialize (Hq d2 eq_refl).
    destruct (group_number d2); [reflexivity | discriminate Hq].
  - cbn [bind]. destruct (qty_match key) as [d2|]; [|reflexivity].
    specialize (Hq d2 eq_refl).
    destruct (group_number d2); [reflexivity | discriminate Hq].
Qed.

Lemma header_step_regular : forall cols i cell,
  header_is_text cell -> header_in_limit cell ->
  is_ok (header_step cols (i, cell)) = true.
Proof.
  intros cols i cell Ht Hl. unfold header_step.
  assert (Hkey : exists key,
            normalize_header (py_or cell (VStr [])) = Ok key
            /\ (Z.of_nat (digit_count key) <= max_str_digits)%Z).
  { destruct Ht as [H|[s Hs]].
    - exists []. unfold py_or. rewrite H. split; [reflexivity|].
      vm_compute. discriminate.
    - subst cell. exists (alias (header_key s)).
      rewrite normalize_header_or, normalize_header_text.
      split; [reflexivity|].
      destruct (alias_cases (header_key s)) as [H|[H|[H|H]]]; rewrite H.
      + pose proof (digit_count_header_key s).
        specialize (Hl s eq_refl). lia.
      + vm_compute. discriminate.
      + vm_compute. discriminate.
      + vm_compute. discriminate. }
  destruct Hkey as (key & -> & Hk). cbn [bind].
  apply header_step_key_ok. exact Hk.
Qed.

(** The loop over header cells that are empty or texts: it ends without an
    error, and tells whether an order id and a product column were met. *)
Lemma scan_regular : forall l n cols,
  Forall header_is_text l ->
  Forall header_in_limit l ->
  exists cols',
    for_each header_step (combine (seq n (List.length l)) l) cols = Ok cols'
    /\ is_some (order_col cols')
       = is_some (order_col cols) || existsb is_order_id_header l
    /\ has_product_cols cols'
       = has_product_cols cols || existsb is_product_header l.
Proof.
  induction l as [|c l IH]; intros n cols H H';
    cbn [for_each combine seq List.length existsb].
  - exists cols. rewrite !orb_false_r. auto.
  - inversion H as [|? ? Hc Hl]; subst.
    inversion H' as [|? ? Hc' Hl']; subst.
    pose proof (header_step_regular cols n c Hc Hc') as Hok.
    destruct (header_step cols (n, c)) as [cols1|e] eqn:E; [|discriminate].
    cbn [bind].
    destruct (IH (S n) cols1 Hl Hl') as (cols' & Hrun & Ho & Hp).
    exists cols'. split; [exact Hrun|].
    rewrite Ho, Hp, (header_step_order_col _ _ _ _ E),
      (header_step_product_cols _ _ _ _ E).
    split.
    + destruct (is_order_id_header c); cbn [is_some orb].
      * rewrite orb_true_r. reflexivity.
      * reflexivity.
    + rewrite orb_assoc. reflexivity.
Qed.

Lemma parse_quantity_fits : forall v,
  fits_float v -> is_ok (parse_quantity v) = true.
Proof.
  intros v H. destruct v as [|b|n|f|s|t]; try reflexivity.
  - unfold parse_quantity, py_float.
    destruct (Flt.of_int n) eqn:E; [reflexivity|]. elim (H n eq_refl E).
  - unfold parse_quantity, py_float. destruct (Flt.of_string s); reflexivity.
Qed.

Lemma cell_at_fits : forall row idx,
  Forall fits_float row -> fits_float (cell_at row idx).
Proof.
  intros row [i|] H; unfold cell_at; [|intros n Hn; discriminate Hn].
  destruct (nth_in_or_default i row VNone) as [Hin|Heq].
  - rewrite Forall_forall in H. apply H. exact Hin.
  - rewrite Heq. intros n Hn. discriminate Hn.
Qed.

Lemma extract_rows_regular : forall cols rows st,
  Forall (Forall fits_float) rows ->
  is_ok (for_each (extract_row cols) rows st) = true.
Proof.
  induction rows as [|row rows IH]; intros st H; cbn [for_each].
  - reflexivity.
  - inversion H as [|? ? Hrow Hrows]; subst.
    assert (Hok : is_ok (extract_row cols st row) = true).
    { unfold extract_row.
      destruct (is_none (cell_at row (order_col cols))); [reflexivity|].
      apply extract_groups_ok. intros num _.
      apply parse_quantity_fits, cell_at_fits, Hrow. }
    destruct (extract_row cols st row); [|discriminate].
    cbn [bind]. apply IH. exact Hrows.
Qed.

(** On a sheet whose header cells are empty or texts with at most 4300
    digits each and whose integer cells fit a float, the transformation ends
    with an error exactly in the fatal cases: no file, no header that
    resolves to the order id, no header that gets a product name or quantity
    role.  In every other case it produces a workbook. *)
Theorem fatal_errors_on_regular_sheets :
  forall sheet : worksheet,
    Forall header_is_text (header_cells sheet) ->
    Forall header_in_limit (header_cells sheet) ->
    Forall (Forall fits_float) (data_rows sheet) ->
    clean_excel None = Raise (FileNotFoundError "File not found")
    /\ match clean_excel (Some sheet) with
       | Ok _ =>
           existsb is_order_id_header (header_cells sheet) = true
           /\ existsb is_product_header (header_cells sheet) = true
       | Raise e =>
           (e = missing_order_id
            /\ existsb is_order_id_header (header_cells sheet) = false)
           \/ (e = no_product_columns
               /\ existsb is_order_id_header (header_cells sheet) = true
               /\ existsb is_product_header (header_cells sheet) = false)
       end.
Proof.
  intros [header data] Hh Hl Hd. cbn [header_cells data_rows] in *.
  split; [reflexivity|].
  unfold clean_excel, aggregate, resolve_headers, scan_headers, enumerate.
  cbn [header_cells data_rows].
  destruct (scan_regular header 0 no_columns Hh Hl) as (cols & Hrun & Ho & Hp).
  rewrite Hrun. cbn [bind]. cbn [no_columns order_col is_some orb] in Ho.
  change (has_product_cols no_columns) with false in Hp. cbn [orb] in Hp.
  destruct (order_col cols) as [oc|] eqn:Eo; cbn [is_some] in Ho.
  - unfold has_product_cols in Hp.
    destruct (product_name_cols cols) as [|p pn] eqn:Epn;
      [destruct (quantity_cols cols) as [|q qs] eqn:Eq|].
    + cbn [bind]. right. auto.
    + cbn [bind]. unfold extract_rows.
      pose proof (extract_rows_regular cols data empty_aggregator Hd) as Hok.
      destruct (for_each (extract_row cols) data empty_aggregator);
        [|discriminate].
      cbn [bind]. auto.
    + cbn [bind]. unfold extract_rows.
      pose proof (extract_rows_regular cols data empty_aggregator Hd) as Hok.
      destruct (for_each (extract_row cols) data empty_aggregator);
        [|discriminate].
      cbn [bind]. auto.
  - cbn [bind]. left. auto.
Qed.

(** Scenario A is a regular sheet with both kinds of header: no error. *)
Lemma fatal_errors_on_regular_sheets_witness :
  clean_excel None = Raise (FileNotFoundError "File not found")
  /\ match clean_excel (Some scenario_sheet) with
     | Ok _ =>
         existsb is_order_id_header (header_cells scenario_sheet) = true
         /\ existsb is_product_header (header_cells scenario_sheet) = true
     | Raise e =>
         (e = missing_order_id
          /\ existsb is_order_id_header (header_cells scenario_sheet) = false)
         \/ (e = no_product_columns
             /\ existsb is_order_id_header (header_cells scenario_sheet) = true
             /\ existsb is_product_header (header_cells scenario_sheet) = false)
     end.
Proof.
  apply (fatal_errors_on_regular_sheets scenario_sheet).
  - repeat (apply Forall_cons; [right; eexists; reflexivity|]).
    apply Forall_nil.
  - repeat (apply Forall_cons;
            [intros s Hs; injection Hs as <-; vm_compute; discriminate|]).
    apply Forall_nil.
  - repeat (apply Forall_cons;
            [repeat (apply Forall_cons; [regular_cell|]); apply Forall_nil|]).
    apply Forall_nil.
Defined.

(** Scenario A of the specification, from the sheet to the workbook: the
    two Widget rows are grouped under the merged total 5, the Gadget row has
    no total, and the summary ranks Widget alone. *)
Theorem scenario_a_workbook :
  clean_excel (Some scenario_sheet)
  = Ok (mk_workbook
          [ [VStr (txt "Order Id"); VStr (txt "Product Name");
             VStr (txt "Quantity");
             VStr (txt "Total Quantity")];
            [VInt 3; VStr (txt "Gadget"); VNone; VNone];
            [VInt 1; VStr (txt "Widget"); VInt 3; VInt 5];
            [VInt 2; VStr (txt "widget"); VInt 2; VNone] ]
          [(3, 4, 4, 4)]
          [ [VStr (txt "Output Summary")];
            [VStr (txt "Total quantity (numeric)"); VInt 5];
            [VStr (txt "Unique products"); VInt 2];
            [];
            [VStr (txt "Product name"); VStr (txt "Total quantity (numeric)")];
            [VStr (txt "Widget"); VInt 5];
            [];
            [VStr (txt "Best-selling product"); VStr (txt "Widget")];
            [VStr (txt "Sales amount (numeric)"); VInt 5] ]).
Proof. vm_compute. reflexivity. Qed.

(** A sheet with a header row only: the sheet Cleaned has just its header
    row, and the summary has no ranked entry and no best-selling product. *)
Theorem header_only_workbook :
  forall (header : list value) (cols : columns),
    resolve_headers header = Ok cols ->
    clean_excel (Some (mk_worksheet header []))
    = Ok (mk_workbook
            [header_titles] []
            [ [VStr (txt "Output Summary")];
              [VStr (txt "Total quantity (numeric)"); VInt 0];
              [VStr (txt "Unique products"); VInt 0];
              [];
              [VStr (txt "Product name");
               VStr (txt "Total quantity (numeric)")] ]).
Proof.
  intros header cols H. unfold clean_excel, aggregate.
  cbn [header_cells data_rows]. rewrite H. reflexivity.
Qed.

Lemma header_only_workbook_witness :
  clean_excel
    (Some (mk_worksheet
             [VStr (txt "id"); VStr (txt "Product Name");
              VStr (txt "Quantity")] []))
  = Ok (mk_workbook
          [header_titles] []
          [ [VStr (txt "Output Summary")];
            [VStr (txt "Total quantity (numeric)"); VInt 0];
            [VStr (txt "Unique products"); VInt 0];
            [];
            [VStr (txt "Product name");
             VStr (txt "Total quantity (numeric)")] ]).
Proof.
  apply (header_only_workbook
           [VStr (txt "id"); VStr (txt "Product Name"); VStr (txt "Quantity")]
           (mk_columns [(1%Z, 1)] [(1%Z, 2)] (Some 0))).
  reflexivity.
Defined.

(** In the writing loop [current_product_key] and [group_start_row] are
    set together, so that [start_of] is the row the open group starts on. *)
Lemma group_start_row_set : forall st rows,
  is_some (current_product_key (fold_left (write_item st) rows new_writer))
  = is_some (group_start_row (fold_left (write_item st) rows new_writer)).
Proof.
  intros st rows.
  assert (H : forall w,
             is_some (current_product_key w) = is_some (group_start_row w) ->
             is_some (current_product_key (fold_left (write_item st) rows w))
             = is_some (group_start_row (fold_left (write_item st) rows w))).
  { induction rows as [|x rows IH]; intros w Hw; cbn [fold_left]; [exact Hw|].
    apply IH. unfold write_item.
    destruct (current_product_key w) as [k|] eqn:E; cbn [is_some] in *.
    - destruct (Str.eqb (product_key x) k);
        cbn [current_product_key group_start_row]; [|reflexivity].
      rewrite E. exact Hw.
    - reflexivity. }
  apply H. reflexivity.
Qed.

(** ** Product keys *)

Lemma rstrip_cons_fixed : forall cls c t,
  Str.rstrip cls (c :: t) = c :: t ->
  Str.rstrip cls t = t /\ cls c && Str.is_empty t = false.
Proof.
  intros cls c t. cbn [Str.rstrip].
  destruct (cls c && Str.is_empty (Str.rstrip cls t)) eqn:E; [discriminate|].
  intros H. injection H as Ht. rewrite Ht in E. auto.
Qed.

Lemma rstrip_fixed : forall cls s,
  Str.rstrip cls (Str.rstrip cls s) = Str.rstrip cls s.
Proof.
  induction s as [|c t IH]; cbn [Str.rstrip]; [reflexivity|].
  destruct (cls c && Str.is_empty (Str.rstrip cls t)) eqn:E; [reflexivity|].
  cbn [Str.rstrip]. rewrite IH, E. reflexivity.
Qed.

Lemma rstrip_app : forall cls a b,
  b <> [] -> Str.rstrip cls b = b -> Str.rstrip cls (a ++ b) = a ++ b.
Proof.
  intros cls a b Hne Hb. induction a as [|x a IH]; [exact Hb|].
  cbn [app Str.rstrip]. rewrite IH.
  destruct (a ++ b) as [|y l] eqn:E.
  - destruct a; [cbn in E; congruence | discriminate E].
  - cbn [Str.is_empty]. rewrite andb_false_r. reflexivity.
Qed.

Lemma rstrip_no_space : forall l,
  forallb (fun x => negb (Str.is_space x)) l = true ->
  Str.rstrip Str.is_space l = l.
Proof.
  induction l as [|x l IH]; intros H; [reflexivity|].
  cbn [forallb] in H. apply andb_true_iff in H. destruct H as [Hx Hl].
  apply negb_true_iff in Hx. cbn [Str.rstrip]. rewrite IH by exact Hl.
  rewrite Hx. reflexivity.
Qed.

Lemma lstrip_starts : forall s,
  starts_with_blank (Str.lstrip Str.is_space s) = false.
Proof.
  induction s as [|c t IH]; cbn [Str.lstrip]; [reflexivity|].
  destruct (Str.is_space c) eqn:E; [exact IH|]. exact E.
Qed.

Lemma strip_starts : forall s, starts_with_blank (Str.strip s) = false.
Proof.
  intros s. unfold Str.strip. pose proof (lstrip_starts s) as H.
  destruct (Str.lstrip Str.is_space s) as [|c t]; [reflexivity|].
  cbn [starts_with_blank] in H. cbn [Str.rstrip]. rewrite H. exact H.
Qed.

Lemma strip_ends : forall s,
  Str.rstrip Str.is_space (Str.strip s) = Str.strip s.
Proof. intros s. apply rstrip_fixed. Qed.

(** What [str.lower] puts for a code point is never empty; it is white
    space only when it is that code point itself. *)
Lemma lower_chunk_nonempty : forall b c t, lower_chunk b c t <> [].
Proof.
  intros b c t. unfold lower_chunk, Uni.lower_full.
  destruct (N.eqb c 931); [discriminate|].
  destruct (N.eqb c 304); [discriminate|].
  destruct (Uni.lower_lookup Uni.lower_ranges c); discriminate.
Qed.

Lemma lower_chunk_no_space : forall b c t,
  Str.is_space c = false ->
  forallb (fun x => negb (Str.is_space x)) (lower_chunk b c t) = true.
Proof.
  intros b c t Hc. apply forallb_forall. intros x Hx.
  apply negb_true_iff.
  destruct (lower_chunk_cases b c t x Hx) as [(-> & _)|(_ & Hs & _)];
    assumption.
Qed.

Lemma lower_chunk_space : forall b c t,
  Str.is_space c = true -> lower_chunk b c t = [c].
Proof.
  intros b c t Hc. pose proof (lower_chunk_nonempty b c t) as Hne.
  destruct (lower_chunk b c t) as [|x l] eqn:E; [congruence|].
  assert (Hx : In x (lower_chunk b c t)) by (rewrite E; left; reflexivity).
  destruct (lower_chunk_cases b c t x Hx) as [(_ & H & _)|(_ & _ & _ & Hs & _)].
  - rewrite <- E. exact H.
  - congruence.
Qed.

Lemma lower_from_nonempty : forall s b, s <> [] -> Str.lower_from b s <> [].
Proof.
  intros [|c t] b H; [congruence|]. rewrite lower_from_cons.
  pose proof (lower_chunk_nonempty b c t).
  destruct (lower_chunk b c t); [congruence | discriminate].
Qed.

(** [str.lower] keeps a text free of white space at its ends. *)
Lemma lower_from_ends : forall s b,
  Str.rstrip Str.is_space s = s ->
  Str.rstrip Str.is_space (Str.lower_from b s) = Str.lower_from b s.
Proof.
  induction s as [|c t IH]; intros b H; [reflexivity|].
  apply rstrip_cons_fixed in H. destruct H as [Ht Hc].
  rewrite lower_from_cons. destruct t as [|d t'].
  - cbn [Str.lower_from]. rewrite app_nil_r.
    apply rstrip_no_space. apply lower_chunk_no_space.
    destruct (Str.is_space c); [discriminate Hc | reflexivity].
  - apply rstrip_app.
    + apply lower_from_nonempty. discriminate.
    + apply IH. exact Ht.
Qed.

Lemma lower_from_starts : forall s b,
  starts_with_blank s = false ->
  starts_with_blank (Str.lower_from b s) = false.
Proof.
  intros [|c t] b H; [reflexivity|]. cbn [starts_with_blank] in H.
  rewrite lower_from_cons.
  pose proof (lower_chunk_nonempty b c t) as Hne.
  pose proof (lower_chunk_no_space b c t H) as Hns.
  destruct (lower_chunk b c t) as [|x l]; [congruence|].
  cbn [forallb] in Hns. apply andb_true_iff in Hns. destruct Hns as [Hx _].
  apply negb_true_iff in Hx. exact Hx.
Qed.

(** After a blank the substitution goes on with a code point that is no
    white space, when the text does not end with white space. *)
Lemma sub_runs_after_blank : forall s,
  Str.rstrip Str.is_space s = s -> s <> [] ->
  Str.is_empty (Str.sub_runs Str.is_space (txt " ") true s) = false
  /\ starts_with_blank (Str.sub_runs Str.is_space (txt " ") true s) = false.
Proof.
  induction s as [|c t IH]; intros H Hne; [congruence|].
  apply rstrip_cons_fixed in H. destruct H as [Ht Hc].
  cbn [Str.sub_runs].
  destruct (Str.is_space c) eqn:E.
  - apply IH; [exact Ht|]. destruct t; [discriminate Hc | discriminate].
  - cbn [Str.is_empty starts_with_blank]. auto.
Qed.

Lemma key_form_sub_runs : forall s b,
  Str.rstrip Str.is_space s = s ->
  forallb lower_fixed s = true ->
  key_form (Str.sub_runs Str.is_space (txt " ") b s) = true.
Proof.
  induction s as [|c t IH]; intros b H Hf; [reflexivity|].
  apply rstrip_cons_fixed in H. destruct H as [Ht Hc].
  cbn [forallb] in Hf. apply andb_true_iff in Hf. destruct Hf as [Hfc Hft].
  cbn [Str.sub_runs].
  destruct (Str.is_space c) eqn:E.
  - destruct b; [apply IH; assumption|].
    change (txt " ") with [32%N]. cbn [app key_form].
    change (Str.is_space 32) with true. change [32%N] with (txt " ").
    rewrite IH by assumption.
    destruct (sub_runs_after_blank t Ht) as [H1 H2].
    { destruct t; [discriminate Hc | discriminate]. }
    rewrite H1, H2. reflexivity.
  - cbn [key_form]. rewrite E, Hfc, IH by assumption. reflexivity.
Qed.

Lemma product_key_of_text : forall s,
  is_product_key
    (Str.re_sub_runs Str.is_space (txt " ") (Str.lower (Str.strip s))) = true.
Proof.
  intros s. unfold is_product_key, Str.re_sub_runs, Str.lower.
  rewrite key_form_sub_runs
    by (apply lower_from_ends, strip_ends || apply lower_from_fixed).
  pose proof (lower_from_starts (Str.strip s) false (strip_starts s)) as H.
  destruct (Str.lower_from false (Str.strip s)) as [|c t]; [reflexivity|].
  cbn [starts_with_blank] in H.
  cbn [Str.sub_runs]. rewrite H.
  cbn [starts_with_blank]. rewrite H. reflexivity.
Qed.

Lemma key_form_rstrip : forall k,
  key_form k = true -> Str.rstrip Str.is_space k = k.
Proof.
  induction k as [|c t IH]; cbn [key_form Str.rstrip]; intros H;
    [reflexivity|].
  apply andb_true_iff in H. destruct H as [Hc Ht].
  rewrite IH by exact Ht.
  destruct (Str.is_space c); [|reflexivity].
  apply andb_true_iff in Hc. destruct Hc as [Hc _].
  apply andb_true_iff in Hc. destruct Hc as [_ Hc].
  apply negb_true_iff in Hc. rewrite Hc. reflexivity.
Qed.

Lemma key_form_fixed : forall k,
  key_form k = true -> forallb lower_fixed k = true.
Proof.
  induction k as [|c t IH]; cbn [key_form forallb]; intros H;
    [reflexivity|].
  apply andb_true_iff in H. destruct H as [Hc Ht].
  rewrite IH by exact Ht. rewrite andb_true_r.
  destruct (Str.is_space c); [|exact Hc].
  apply andb_true_iff in Hc. destruct Hc as [Hc _].
  apply andb_true_iff in Hc. destruct Hc as [Hc _].
  apply N.eqb_eq in Hc. subst c. vm_compute. reflexivity.
Qed.

Lemma key_form_sub_runs_fixed : forall k b,
  key_form k = true ->
  (b = true -> starts_with_blank k = false) ->
  Str.sub_runs Str.is_space (txt " ") b k = k.
Proof.
  induction k as [|c t IH]; cbn [key_form Str.sub_runs]; intros b H Hb;
    [reflexivity|].
  apply andb_true_iff in H. destruct H as [Hc Ht].
  destruct (Str.is_space c) eqn:E.
  - destruct b.
    { cbn [starts_with_blank] in Hb. rewrite Hb in E by reflexivity.
      discriminate. }
    apply andb_true_iff in Hc. destruct Hc as [Hc Hs].
    apply andb_true_iff in Hc. destruct Hc as [Hc _].
    apply N.eqb_eq in Hc. subst c.
    apply negb_true_iff in Hs.
    rewrite IH by auto. reflexivity.
  - rewrite IH; [reflexivity | exact Ht | discriminate].
Qed.

Lemma product_key_fixed : forall k,
  is_product_key k = true ->
  Str.re_sub_runs Str.is_space (txt " ") (Str.lower (Str.strip k)) = k.
Proof.
  intros k H. unfold is_product_key in H.
  apply andb_true_iff in H. destruct H as [Hs Hk].
  apply negb_true_iff in Hs.
  assert (Hl : Str.lstrip Str.is_space k = k).
  { destruct k as [|c t]; [reflexivity|].
    cbn [starts_with_blank] in Hs. cbn [Str.lstrip]. rewrite Hs.
    reflexivity. }
  unfold Str.strip, Str.re_sub_runs, Str.lower.
  rewrite Hl, key_form_rstrip by exact Hk.
  rewrite lower_from_of_fixed by (apply key_form_fixed; exact Hk).
  apply key_form_sub_runs_fixed; [exact Hk | discriminate].
Qed.

(** The product key of a cell is a text in the form of a key: words in
    lower case, one blank between two words, no white space at either end.
    A text in this form is its own key, so taking the key of a key changes
    nothing. *)
Theorem normalize_product_name_idempotent :
  forall v : value,
    is_product_key (normalize_product_name v) = true
    /\ normalize_product_name (VStr (normalize_product_name v))
       = normalize_product_name v
    /\ forall k : str,
         is_product_key k = true -> normalize_product_name (VStr k) = k.
Proof.
  intros v.
  assert (Hfix : forall k : str,
             is_product_key k = true -> normalize_product_name (VStr k) = k).
  { intros k Hk. exact (product_key_fixed k Hk). }
  assert (Hkey : is_product_key (normalize_product_name v) = true).
  { destruct v; try apply product_key_of_text. reflexivity. }
  split; [exact Hkey|]. split; [|exact Hfix].
  apply Hfix. exact Hkey.
Qed.

(** The name Blue WIDGET with blanks around and between: its key is in the
    form of a key, and the text blue widget is its own key. *)
Lemma normalize_product_name_idempotent_witness :
  is_product_key (normalize_product_name (VStr (txt "  Blue   WIDGET "))) = true
  /\ normalize_product_name
       (VStr (normalize_product_name (VStr (txt "  Blue   WIDGET "))))
     = normalize_product_name (VStr (txt "  Blue   WIDGET "))
  /\ normalize_product_name (VStr (txt "blue widget")) = txt "blue widget".
Proof.
  destruct (normalize_product_name_idempotent (VStr (txt "  Blue   WIDGET ")))
    as (H1 & H2 & H3).
  split; [exact H1|]. split; [exact H2|]. apply H3. vm_compute. reflexivity.
Defined.

(** ** The alias table *)

Lemma header_key_not : forall s k,
  forallb key_char k = false -> header_key s <> k.
Proof.
  intros s k Hk H. rewrite <- H, header_key_chars in Hk. discriminate.
Qed.

(** Of the ten entries of the alias table only five can be met: a header
    key holds no blank and no underscore, so a key that is in the table is
    one of orderid, id, qty, quantity and totalquantity. *)
Theorem reachable_aliases :
  forall s : str,
    Dict.mem Str.eqb HEADER_ALIASES (header_key s) = true ->
    In (header_key s)
       [txt "orderid"; txt "id"; txt "qty"; txt "quantity";
        txt "totalquantity"].
Proof.
  intros s.
  pose proof (header_key_not s (txt "order_id")
                ltac:(vm_compute; reflexivity)).
  pose proof (header_key_not s (txt "order id")
                ltac:(vm_compute; reflexivity)).
  pose proof (header_key_not s (txt "total_quantity")
                ltac:(vm_compute; reflexivity)).
  pose proof (header_key_not s (txt "total quantity")
                ltac:(vm_compute; reflexivity)).
  pose proof (header_key_not s (txt "total_qty")
                ltac:(vm_compute; reflexivity)).
  unfold Dict.mem, HEADER_ALIASES. cbn [Dict.get].
  repeat match goal with
         | |- context [Str.eqb (header_key s) ?lit] =>
             destruct (str_eqb_spec (header_key s) lit)
         end; try congruence; intros _; cbn [In]; intuition congruence.
Qed.

Lemma reachable_aliases_witness :
  In (header_key (txt "Order ID"))
     [txt "orderid"; txt "id"; txt "qty"; txt "quantity"; txt "totalquantity"].
Proof.
  apply (reachable_aliases (txt "Order ID")). vm_compute. reflexivity.
Defined.

(** The headers that give the order id column: those whose key, the text
    stripped, in lower case and without blanks, underscores and hyphens, is
    orderid or id. *)
Theorem order_id_header_keys :
  forall s : str,
    is_order_id_header (VStr s) = true
    <-> header_key s = txt "orderid" \/ header_key s = txt "id".
Proof.
  intros s. unfold is_order_id_header.
  rewrite normalize_header_or, normalize_header_text.
  pose proof (header_key_not s (txt "order_id")
                ltac:(vm_compute; reflexivity)).
  pose proof (header_key_not s (txt "order id")
                ltac:(vm_compute; reflexivity)).
  pose proof (header_key_not s (txt "total_quantity")
                ltac:(vm_compute; reflexivity)).
  pose proof (header_key_not s (txt "total quantity")
                ltac:(vm_compute; reflexivity)).
  pose proof (header_key_not s (txt "total_qty")
                ltac:(vm_compute; reflexivity)).
  unfold alias, Dict.get_default, HEADER_ALIASES. cbn [Dict.get].
  repeat match goal with
         | |- context [Str.eqb (header_key s) ?lit] =>
             destruct (str_eqb_spec (header_key s) lit) as [E|?]
         end;
    try congruence;
    try (split; [intros _; tauto | reflexivity]);
    try (split; [discriminate | intros [?|?]; congruence]).
Qed.

(** ** Groups of the headers *)

(** The alias table changes the role of one key only.  For the product name
    and quantity roles the key of a header, the text stripped, in lower case
    and without blanks, underscores and hyphens, decides as if there were no
    table, but for the key qty, which gives the quantity of group 1: qty
    followed by a number gives no role. *)
Theorem header_groups_by_key :
  forall s : str,
    name_group (VStr s) = group_of_match (name_match (header_key s))
    /\ quantity_group (VStr s)
       = if Str.eqb (header_key s) (txt "qty") then Some 1%Z
         else group_of_match (qty_match (header_key s)).
Proof.
  intros s. unfold name_group, quantity_group.
  rewrite normalize_header_or, normalize_header_text.
  unfold alias, Dict.get_default, HEADER_ALIASES. cbn [Dict.get].
  repeat match goal with
         | |- context [Str.eqb (header_key s) ?lit] =>
             destruct (str_eqb_spec (header_key s) lit) as [E|?]
         end;
    try (rewrite E; split; vm_compute; reflexivity).
  split.
  - destruct (str_eqb_spec (header_key s) (txt "order_id")); [congruence|].
    reflexivity.
  - destruct (str_eqb_spec (header_key s) (txt "order_id")); [congruence|].
    reflexivity.
Qed.

Lemma zget_zset : forall (d : zdict nat) k v n,
  zget (zset d k v) n = if Z.eqb k n then Some v else zget d n.
Proof.
  intros d k v n. unfold zget, zset.
  destruct (Z.eqb_spec k n) as [->|Hne].
  - apply (get_set_same Z.eqb Z.eqb_eq).
  - apply (get_set_other Z.eqb Z.eqb_eq). exact Hne.
Qed.

Lemma header_step_name_cols : forall cols i cell cols' n,
  header_step cols (i, cell) = Ok cols' ->
  zget (product_name_cols cols') n
  = match name_group cell with
    | Some m => if Z.eqb m n then Some i else zget (product_name_cols cols) n
    | None => zget (product_name_cols cols) n
    end.
Proof.
  intros cols i cell cols' n. unfold header_step, name_group.
  destruct (normalize_header (py_or cell (VStr []))) as [key|e]; cbn [bind];
    [|discriminate].
  destruct (Str.eqb key (txt "order_id")).
  - intros H. inversion H. reflexivity.
  - unfold group_of_match.
    destruct (name_match key) as [d1|];
      [destruct (group_number d1) as [n1|]; cbn [bind]; [|discriminate]|];
      (destruct (qty_match key) as [d2|];
       [destruct (group_number d2) as [n2|]; cbn [bind]; [|discriminate]|]);
      intros H; inversion H; cbn [product_name_cols];
      try reflexivity; apply zget_zset.
Qed.

Lemma header_step_quantity_cols : forall cols i cell cols' n,
  header_step cols (i, cell) = Ok cols' ->
  zget (quantity_cols cols') n
  = match quantity_group cell with
    | Some m => if Z.eqb m n then Some i else zget (quantity_cols cols) n
    | None => zget (quantity_cols cols) n
    end.
Proof.
  intros cols i cell cols' n. unfold header_step, quantity_group.
  destruct (normalize_header (py_or cell (VStr []))) as [key|e]; cbn [bind];
    [|discriminate].
  destruct (Str.eqb key (txt "order_id")).
  - intros H. inversion H. reflexivity.
  - unfold group_of_match.
    destruct (name_match key) as [d1|];
      [destruct (group_number d1) as [n1|]; cbn [bind]; [|discriminate]|];
      (destruct (qty_match key) as [d2|];
       [destruct (group_number d2) as [n2|]; cbn [bind]; [|discriminate]|]);
      intros H; inversion H; cbn [quantity_cols];
      try reflexivity; apply zget_zset.
Qed.

Section GroupColumns.

Variable proj : columns -> zdict nat.
Variable role : value -> option Z.
Hypothesis step : forall cols i cell cols' n,
  header_step cols (i, cell) = Ok cols' ->
  zget (proj cols') n
  = match role cell with
    | Some m => if Z.eqb m n then Some i else zget (proj cols) n
    | None => zget (proj cols) n
    end.

(** The column of group [n] after the loop over the header cells numbered
    from [start]: the one it was, when no cell has the role for [n]; else
    the last cell that has. *)
Lemma scan_group : forall l start cols cols' n,
  for_each header_step (combine (seq start (List.length l)) l) cols
  = Ok cols' ->
  (zget (proj cols') n = zget (proj cols) n
   /\ forall cell, In cell l -> role cell <> Some n)
  \/ exists k, zget (proj cols') n = Some (start + k) /\ last_with role n l k.
Proof.
  induction l as [|c l IH]; intros start cols cols' n H;
    cbn [for_each combine seq List.length] in H.
  - inversion H. left. split; [reflexivity | intros ? []].
  - destruct (header_step cols (start, c)) as [cols1|e] eqn:E;
      cbn [bind] in H; [|discriminate].
    apply (step _ _ _ _ n) in E.
    destruct (IH _ _ _ n H) as [[Hz Hall]|(k & Hz & (cell & Hn & Hc) & Hlater)].
    + rewrite Hz, E.
      destruct (role c) as [m|] eqn:Er;
        [destruct (Z.eqb_spec m n) as [->|Hne]|].
      * right. exists 0. split; [rewrite Nat.add_0_r; reflexivity|].
        split; [exists c; auto|].
        intros j cell Hj Hn. destruct j as [|j]; [lia|].
        simpl in Hn. apply Hall. eapply nth_error_In. exact Hn.
      * left. split; [reflexivity|].
        intros cell [<-|Hin]; [congruence | auto].
      * left. split; [reflexivity|].
        intros cell [<-|Hin]; [congruence | auto].
    + right. exists (S k). split; [rewrite Hz; f_equal; lia|].
      split; [exists cell; auto|].
      intros j cell' Hj Hn'. destruct j as [|j]; [lia|].
      simpl in Hn'. eapply Hlater; [|exact Hn']. lia.
Qed.

Lemma scan_headers_group : forall header cols n i,
  proj no_columns = [] ->
  scan_headers header = Ok cols ->
  zget (proj cols) n = Some i <-> last_with role n header i.
Proof.
  intros header cols n i H0 H. unfold scan_headers, enumerate in H.
  destruct (scan_group header 0 no_columns cols n H)
    as [[Hz Hall]|(k & Hz & Hk)].
  - rewrite Hz, H0. split; [discriminate|].
    intros [(cell & Hn & Hc) _]. exfalso.
    apply (Hall cell); [eapply nth_error_In; exact Hn | exact Hc].
  - rewrite Hz. cbn [Nat.add]. split.
    + intros Hi. injection Hi as <-. exact Hk.
    + intros Hi. f_equal.
      destruct Hk as [(ck & Hnk & Hck) Hlk], Hi as [(ci & Hni & Hci) Hli].
      destruct (Nat.lt_trichotomy k i) as [Hlt|[Heq|Hgt]]; [|exact Heq|].
      * exfalso. exact (Hlk i ci Hlt Hni Hci).
      * exfalso. exact (Hli k ck Hgt Hnk Hck).
Qed.

End GroupColumns.

(** Headers of one group.  When the header row resolves, the product name
    column of a group is the last header cell with the product name role
    for this group, and the quantity column of a group is the last header
    cell with the quantity role for it: of two headers with the same role
    and group the right one is read and the left one is ignored. *)
Theorem rightmost_header_wins :
  forall (header : list value) (cols : columns) (n : Z) (i : nat),
    scan_headers header = Ok cols ->
    (zget (product_name_cols cols) n = Some i
     <-> last_with name_group n header i)
    /\ (zget (quantity_cols cols) n = Some i
        <-> last_with quantity_group n header i).
Proof.
  intros header cols n i H. split.
  - apply (scan_headers_group product_name_cols name_group
             header_step_name_cols header cols n i eq_refl H).
  - apply (scan_headers_group quantity_cols quantity_group
             header_step_quantity_cols header cols n i eq_refl H).
Qed.

(** The headers Product Name and product_name 1 both name the product of
    group 1: the column read is the second of them, column 3. *)
Lemma rightmost_header_wins_witness :
  (zget [(1%Z, 3)] 1%Z = Some 3
   <-> last_with name_group 1%Z
         [VStr (txt "id"); VStr (txt "Product Name"); VStr (txt "Quantity");
          VStr (txt "product_name 1")] 3)
  /\ (zget [(1%Z, 2)] 1%Z = Some 3
      <-> last_with quantity_group 1%Z
            [VStr (txt "id"); VStr (txt "Product Name"); VStr (txt "Quantity");
             VStr (txt "product_name 1")] 3).
Proof.
  apply (rightmost_header_wins
           [VStr (txt "id"); VStr (txt "Product Name"); VStr (txt "Quantity");
            VStr (txt "product_name 1")]
           (mk_columns [(1%Z, 3)] [(1%Z, 2)] (Some 0)) 1%Z 3).
  vm_compute. reflexivity.
Defined.

(** ** Products in the sorted records *)

Lemma sorted_between : forall (R : item -> item -> Prop) l1 a l2 b l3,
  StronglySorted R (l1 ++ a :: l2 ++ b :: l3) ->
  R a b /\ Forall (fun x => R a x /\ R x b) l2.
Proof.
  intros R l1 a l2 b l3 H.
  pose proof (sorted_after R l1 a (l2 ++ b :: l3) H) as Ha.
  rewrite Forall_forall in Ha. split.
  - apply Ha. apply in_app_iff. right. left. reflexivity.
  - apply Forall_forall. intros x Hx. split.
    + apply Ha. apply in_app_iff. left. exact Hx.
    + destruct (in_split x l2 Hx) as (m1 & m2 & ->).
      assert (E : l1 ++ a :: (m1 ++ x :: m2) ++ b :: l3
                  = (l1 ++ a :: m1) ++ x :: (m2 ++ b :: l3)).
      { rewrite <- !app_assoc. reflexivity. }
      rewrite E in H. apply sorted_after in H. rewrite Forall_forall in H.
      apply H. apply in_app_iff. right. left. reflexivity.
Qed.

(** The first component of the sort key tells the product key, as long as
    no product key is the text U+FFFF. *)
Lemma sort_key_product : forall a b,
  product_key a <> sentinel -> product_key b <> sentinel ->
  fst (fst (sort_key a)) = fst (fst (sort_key b)) ->
  product_key a = product_key b.
Proof.
  intros a b Ha Hb. unfold sort_key. cbn [fst].
  destruct (product_key a) as [|c k], (product_key b) as [|c' k'];
    cbn [Str.is_empty]; congruence.
Qed.

(** The rows of a product in the sheet Cleaned.  When no product key is the
    text U+FFFF, the records of a product are written one after the other:
    between two records of a product there are only records of this
    product.  Of two records of a product the one written first is the one
    whose order id, as a text, is not the greater (so order id 10 is written
    before order id 9); records whose order ids have the same text keep the
    order in which they were extracted. *)
Theorem product_rows_contiguous :
  forall (recs l1 : list item) (a : item) (l2 : list item) (b : item)
         (l3 : list item),
    (forall r, In r recs -> product_key r <> sentinel) ->
    sort_rows recs = l1 ++ a :: l2 ++ b :: l3 ->
    product_key a = product_key b ->
    Forall (fun x => product_key x = product_key a) l2
    /\ Str.ltb (py_str (order_id b)) (py_str (order_id a)) = false
    /\ (py_str (order_id a) = py_str (order_id b) ->
        row_index a <= row_index b).
Proof.
  intros recs l1 a l2 b l3 Hs E Hab.
  assert (Hin : forall x, In x (l1 ++ a :: l2 ++ b :: l3) -> In x recs).
  { intros x Hx. rewrite <- E in Hx.
    unfold sort_rows in Hx.
    exact (Permutation_in _ (sort_by_perm _ _ _ _) Hx). }
  pose proof (sort_rows_sorted recs) as H. rewrite E in H.
  apply sorted_between in H. destruct H as [Hba Hmid].
  assert (Hk : fst (fst (sort_key a)) = fst (fst (sort_key b))).
  { unfold sort_key. cbn [fst]. rewrite Hab. reflexivity. }
  split; [|split].
  - apply Forall_forall. intros x Hx.
    rewrite Forall_forall in Hmid. destruct (Hmid x Hx) as [Hax Hxb].
    apply sort_key_product.
    + apply Hs, Hin. apply in_app_iff. right. right.
      apply in_app_iff. left. exact Hx.
    + apply Hs, Hin. apply in_app_iff. right. left. reflexivity.
    + unfold key_order in Hax, Hxb.
      destruct (sort_key a) as [[ka ia] na], (sort_key b) as [[kb ib] nb],
               (sort_key x) as [[kx ix] nx].
      cbn [fst] in *. subst kb. unfold tuple_ltb in Hax, Hxb.
      destruct (str_eqb_spec kx ka) as [->|Hne]; [reflexivity|].
      destruct (str_eqb_spec ka kx) as [->|_]; [congruence|].
      apply str_ltb_total; assumption.
  - unfold key_order in Hba.
    destruct (sort_key a) as [[ka ia] na] eqn:Ea,
             (sort_key b) as [[kb ib] nb] eqn:Eb.
    cbn [fst] in Hk. subst kb. unfold tuple_ltb in Hba.
    rewrite str_eqb_refl in Hba.
    assert (Ia : py_str (order_id a) = ia)
      by (unfold sort_key in Ea; congruence).
    assert (Ib : py_str (order_id b) = ib)
      by (unfold sort_key in Eb; congruence).
    rewrite Ia, Ib.
    destruct (str_eqb_spec ib ia) as [->|_];
      [apply str_ltb_irrefl | exact Hba].
  - intros Hid. unfold key_order in Hba.
    destruct (sort_key a) as [[ka ia] na] eqn:Ea,
             (sort_key b) as [[kb ib] nb] eqn:Eb.
    cbn [fst] in Hk. subst kb. unfold tuple_ltb in Hba.
    rewrite str_eqb_refl in Hba.
    assert (Ia : py_str (order_id a) = ia /\ row_index a = na)
      by (unfold sort_key in Ea; split; congruence).
    assert (Ib : py_str (order_id b) = ib /\ row_index b = nb)
      by (unfold sort_key in Eb; split; congruence).
    destruct Ia as [Ia ->], Ib as [Ib ->].
    rewrite Ia, Ib in Hid. subst ib. rewrite str_eqb_refl in Hba.
    apply Nat.ltb_ge in Hba. exact Hba.
Qed.

(** Order ids 10, 100 and 9 of Widget, in this order. *)
Lemma product_rows_contiguous_witness :
  Forall (fun x => product_key x = txt "widget")
         [mk_item (txt "widget") (VInt 100) (VStr (txt "Widget")) (VInt 1) 3]
  /\ Str.ltb (txt "9") (txt "10") = false
  /\ (txt "10" = txt "9" -> 2 <= 0).
Proof.
  apply (product_rows_contiguous
           order_id_records
           [mk_item (txt "gadget") (VInt 5) (VStr (txt "Gadget")) (VInt 1) 1]
           (mk_item (txt "widget") (VInt 10) (VStr (txt "Widget")) (VInt 1) 2)
           [mk_item (txt "widget") (VInt 100) (VStr (txt "Widget")) (VInt 1) 3]
           (mk_item (txt "widget") (VInt 9) (VStr (txt "Widget")) (VInt 1) 0)
           []).
  - intros r Hr. unfold order_id_records in Hr. cbn [In] in Hr.
    destruct Hr as [<-|[<-|[<-|[<-|[]]]]]; discriminate.
  - vm_compute. reflexivity.
  - reflexivity.
Defined.

(** ** Merged ranges *)

Lemma write_rows_merges : forall st rows,
  merged_cells (write_rows st rows) = merges_from 2 (runs rows).
Proof.
  intros st [|x rows]; [reflexivity|].
  unfold write_rows. cbn [fold_left].
  pose proof (write_open_group st rows [x] [header_titles] []
                (product_key x)) as H.
  cbn zeta in H. apply H.
  - discriminate.
  - intros a [<-|[]]. reflexivity.
Qed.

Lemma merges_from_bounds : forall rs start,
  Forall (total_range start (start + List.length (List.concat rs) - 1))
         (merges_from start rs).
Proof.
  induction rs as [|r rs IH]; intros start; cbn [merges_from List.concat].
  - constructor.
  - rewrite length_app. apply Forall_app. split.
    + destruct (Nat.leb_spec 2 (List.length r)); constructor; [|constructor].
      unfold total_range. cbn [first_row last_row first_column last_column].
      lia.
    + eapply Forall_impl; [|apply IH].
      intros rg (H1 & H2 & H3 & H4 & H5). unfold total_range. lia.
Qed.

Lemma merges_from_apart : forall rs start,
  StronglySorted above (merges_from start rs).
Proof.
  induction rs as [|r rs IH]; intros start; cbn [merges_from].
  - constructor.
  - destruct (Nat.leb_spec 2 (List.length r)); cbn [app]; [|apply IH].
    constructor; [apply IH|].
    eapply Forall_impl; [|apply merges_from_bounds].
    intros rg (_ & _ & H3 & _). unfold above. cbn [last_row]. lia.
Qed.

Lemma merges_from_count : forall rs start,
  List.length (merges_from start rs) * 2 <= List.length (List.concat rs).
Proof.
  induction rs as [|r rs IH]; intros start; cbn [merges_from List.concat].
  - simpl. lia.
  - rewrite !length_app. specialize (IH (start + List.length r)).
    unfold cell_range in *.
    destruct (Nat.leb_spec 2 (List.length r)); cbn [List.length]; lia.
Qed.

(** The merged ranges of the sheet Cleaned, for any records written.  Every
    range lies in the fourth column, spans two rows or more and stays
    within the rows of the records, below the header row.  The ranges come
    in the order of their rows and no two of them share a row. *)
Theorem merged_ranges_apart :
  forall (st : aggregator) (rows : list item),
    Forall (total_range 2 (List.length rows + 1))
           (merged_cells (write_rows st rows))
    /\ StronglySorted above (merged_cells (write_rows st rows))
    /\ List.length (merged_cells (write_rows st rows)) * 2
       <= List.length rows.
Proof.
  intros st rows. rewrite write_rows_merges.
  split; [|split].
  - pose proof (merges_from_bounds (runs rows) 2) as H.
    rewrite runs_concat in H.
    replace (List.length rows + 1) with (2 + List.length rows - 1) by lia.
    exact H.
  - apply merges_from_apart.
  - rewrite <- (runs_concat rows) at 2. apply merges_from_count.
Qed.

(** ** Column widths *)

(** The sheet the writer leaves, for any records. *)
Lemma write_rows_sheet : forall st rows,
  sheet_rows (write_rows st rows)
  = header_titles :: flat_map (render_run st) (runs rows).
Proof.
  intros st [|x rows]; [reflexivity|].
  unfold write_rows. cbn [fold_left].
  pose proof (write_open_group st rows [x] [header_titles] []
                (product_key x)) as H.
  cbn zeta in H. apply H.
  - discriminate.
  - intros a [<-|[]]. reflexivity.
Qed.

(** The loop of [autosize_columns] over the rows, from any [max_len]: the
    result is the greatest of [max_len] and the lengths met. *)
Lemma longest_from : forall rows c acc,
  let r :=
    fold_left
      (fun max_len row =>
         let v := nth c row VNone in
         if is_none v then max_len
         else
           let n := List.length (measured_text v) in
           if Nat.ltb max_len n then n else max_len)
      rows acc in
  acc <= r
  /\ (forall v, In v (column_cells rows c) ->
                List.length (measured_text v) <= r)
  /\ (r = acc
      \/ exists v, In v (column_cells rows c)
                   /\ r = List.length (measured_text v)).
Proof.
  induction rows as [|row rows IH]; intros c acc; cbn zeta; cbn [fold_left].
  - split; [lia|]. split; [intros v []|]. left. reflexivity.
  - unfold column_cells. cbn [map filter]. fold (column_cells rows c).
    destruct (is_none (nth c row VNone)) eqn:E; cbn [negb].
    + apply IH.
    + specialize (IH c (if Nat.ltb acc (List.length (measured_text (nth c row VNone)))
                        then List.length (measured_text (nth c row VNone))
                        else acc)).
      cbn zeta in IH. destruct IH as (Hacc & Hall & Hex).
      destruct (Nat.ltb_spec acc (List.length (measured_text (nth c row VNone))))
        as [Hlt|Hge].
      * split; [lia|]. split.
        -- intros v [<-|Hv]; [exact Hacc | apply Hall; exact Hv].
        -- right. destruct Hex as [Hr|(v & Hv & Hr)].
           ++ exists (nth c row VNone). split; [left; reflexivity | exact Hr].
           ++ exists v. split; [right; exact Hv | exact Hr].
      * split; [exact Hacc|]. split.
        -- intros v [<-|Hv]; [lia | apply Hall; exact Hv].
        -- destruct Hex as [Hr|(v & Hv & Hr)]; [left; exact Hr|].
           right. exists v. split; [right; exact Hv | exact Hr].
Qed.

Lemma longest_text_cells : forall rows c,
  (forall v, In v (column_cells rows c) ->
             List.length (measured_text v) <= longest_text rows (S c))
  /\ (longest_text rows (S c) = 0
      \/ exists v, In v (column_cells rows c)
                   /\ longest_text rows (S c) = List.length (measured_text v)).
Proof.
  intros rows c. unfold longest_text. cbn [Nat.sub]. rewrite Nat.sub_0_r.
  pose proof (longest_from rows c 0) as H. cbn zeta in H.
  destruct H as (_ & Hall & Hex). split; assumption.
Qed.

(** The widths of the columns of the sheet Cleaned.  There are four.  The
    width of a column is the width its widest cell asks for, the title of
    the column included: the length of the text and 2 more, 80 at most.  The
    titles being 8 characters long or more, the floor of 8 never applies. *)
Theorem cleaned_column_widths :
  forall (st : aggregator) (c : nat),
    c < 4 ->
    List.length (cleaned_widths (build_workbook st)) = 4
    /\ In (nth c header_titles VNone)
          (column_cells (cleaned (build_workbook st)) c)
    /\ 10 <= nth c (cleaned_widths (build_workbook st)) 0 <= 80
    /\ (forall v, In v (column_cells (cleaned (build_workbook st)) c) ->
                  cell_width v <= nth c (cleaned_widths (build_workbook st)) 0)
    /\ exists v, In v (column_cells (cleaned (build_workbook st)) c)
                 /\ nth c (cleaned_widths (build_workbook st)) 0 = cell_width v.
Proof.
  intros st c Hc.
  unfold cleaned_widths, build_workbook. cbn [cleaned].
  rewrite write_rows_sheet.
  set (rows := header_titles
               :: flat_map (render_run st)
                    (runs (sort_rows (extracted_rows st)))).
  assert (Ht : In (nth c header_titles VNone) (column_cells rows c)
               /\ 8 <= List.length (measured_text (nth c header_titles VNone))).
  { destruct c as [|[|[|[|c]]]]; try lia;
      (split; [left; reflexivity | vm_compute; lia]). }
  destruct Ht as [Ht Hlen].
  destruct (longest_text_cells rows c) as [Hall Hex].
  pose proof (Hall _ Ht) as Hlong.
  assert (Hw : nth c (autosize_columns rows 8 80 2) 0
               = Nat.min 80 (longest_text rows (S c) + 2)).
  { unfold autosize_columns.
    destruct c as [|[|[|[|c]]]]; try lia; cbn [DESIRED_COLUMNS List.length
      seq map nth]; lia. }
  split; [reflexivity|]. split; [exact Ht|].
  rewrite Hw. unfold cell_width. split; [lia|]. split.
  - intros v Hv. specialize (Hall v Hv). lia.
  - destruct Hex as [H0|(v & Hv & Hr)]; [lia|].
    exists v. split; [exact Hv|]. rewrite Hr. reflexivity.
Qed.

(** Scenario A, the second column: the names Widget and Gadget are shorter
    than the title of the column. *)
Lemma cleaned_column_widths_witness :
  List.length (cleaned_widths (build_workbook scenario_state)) = 4
  /\ In (nth 1 header_titles VNone)
        (column_cells (cleaned (build_workbook scenario_state)) 1)
  /\ 10 <= nth 1 (cleaned_widths (build_workbook scenario_state)) 0 <= 80
  /\ (forall v,
        In v (column_cells (cleaned (build_workbook scenario_state)) 1) ->
        cell_width v
        <= nth 1 (cleaned_widths (build_workbook scenario_state)) 0)
  /\ exists v,
       In v (column_cells (cleaned (build_workbook scenario_state)) 1)
       /\ nth 1 (cleaned_widths (build_workbook scenario_state)) 0
          = cell_width v.
Proof. apply (cleaned_column_widths scenario_state 1). lia. Defined.

(** ** The count of products *)

Lemma filter_length_le : forall {A : Type} (p q : A -> bool) l,
  (forall x, p x = true -> q x = true) ->
  List.length (filter p l) <= List.length (filter q l).
Proof.
  intros A p q l H. induction l as [|x l IH]; cbn [filter]; [lia|].
  destruct (p x) eqn:E.
  - rewrite (H x E). cbn [List.length]. lia.
  - destruct (q x); cbn [List.length]; lia.
Qed.

Lemma items_from_keys : forall evs index key,
  (exists it, In it (items_from index evs) /\ product_key it = key)
  <-> existsb (fun e => Str.eqb (event_key e) key) evs = true.
Proof.
  induction evs as [|e evs IH]; intros index key;
    cbn [items_from existsb In].
  - split; [intros (it & [] & _) | discriminate].
  - rewrite orb_true_iff, <- (IH (S index) key), str_eqb_eq.
    assert (Hk : product_key (event_item e index) = event_key e)
      by (destruct e as [[oid name] qty_raw]; reflexivity).
    split.
    + intros (it & [<-|Hin] & Hit); [left; congruence|].
      right. exists it. auto.
    + intros [He|(it & Hin & Hit)].
      * exists (event_item e index). split; [left; reflexivity | congruence].
      * exists it. auto.
Qed.

(** The count of products of the summary.  It is the number of the product
    keys of the records that are not empty, each counted once, whether a
    quantity of the product is a number or not.  The ranking, which keeps
    the products with a numeric quantity only, has as many rows or less. *)
Theorem unique_products_counts_keys :
  forall (cols : columns) (rows : list (list value)) (st : aggregator),
    extract_rows cols rows = Ok st ->
    exists keys : list str,
      nth 2 (summary_sheet st) []
      = [VStr (txt "Unique products"); VInt (Z.of_nat (List.length keys))]
      /\ NoDup keys
      /\ (forall key,
            In key keys
            <-> key <> []
                /\ exists it, In it (extracted_rows st) /\ product_key it = key)
      /\ List.length (summary_rows st) <= List.length keys.
Proof.
  intros cols rows st H. apply extract_rows_events in H.
  exists (filter (fun k => negb (Str.is_empty k))
                 (Dict.keys (product_totals st))).
  assert (Hnd : NoDup (Dict.keys (product_totals st))).
  { subst st. apply keys_nodup_after. constructor. }
  split; [reflexivity|]. split; [apply NoDup_filter; exact Hnd|]. split.
  - intros key. rewrite filter_In. subst st.
    rewrite key_seen_after, rows_after. cbn [empty_aggregator extracted_rows
      app List.length]. rewrite items_from_keys.
    destruct key as [|c key]; cbn [Str.is_empty negb].
    + split; [intros [_ H2]; discriminate H2 | intros [H1 _]; congruence].
    + split.
      * intros [H1 _]. split; [discriminate | exact H1].
      * intros [_ H2]. split; [exact H2 | reflexivity].
  - rewrite summary_rows_of_keys by exact Hnd. rewrite length_map.
    unfold ranked_keys.
    rewrite (Permutation_length (sort_by_perm _ _ _ _)).
    apply filter_length_le. intros k Hk. unfold is_ranked in Hk.
    apply andb_true_iff in Hk. apply Hk.
Qed.

(** Scenario A: Widget and Gadget are counted, Widget alone is ranked. *)
Lemma unique_products_counts_keys_witness :
  exists keys : list str,
    nth 2 (summary_sheet scenario_state) []
    = [VStr (txt "Unique products"); VInt (Z.of_nat (List.length keys))]
    /\ NoDup keys
    /\ (forall key,
          In key keys
          <-> key <> []
              /\ exists it,
                   In it (extracted_rows scenario_state)
                   /\ product_key it = key)
    /\ List.length (summary_rows scenario_state) <= List.length keys.
Proof.
  apply (unique_products_counts_keys scenario_columns scenario_rows).
  reflexivity.
Defined.

(** ** The name of the file written *)

(** The last dot of a name cuts it into what comes before it and a rest
    that holds no dot. *)
Lemma rfind_dot_split : forall name i,
  rfind_dot name = Some i ->
  exists before rest,
    name = before ++ 46%N :: rest
    /\ List.length before = i
    /\ rfind_dot rest = None.
Proof.
  induction name as [|c t IH]; intros i H; cbn [rfind_dot] in H;
    [discriminate|].
  destruct (rfind_dot t) as [j|] eqn:E.
  - injection H as <-.
    destruct (IH j eq_refl) as (before & rest & Hn & Hl & Hr).
    exists (c :: before), rest. subst t j. auto.
  - destruct (N.eqb_spec c 46) as [Hc|_]; [|discriminate].
    injection H as <-. subst c. exists [], t. auto.
Qed.

Lemma rfind_dot_append : forall before rest,
  rfind_dot rest = None ->
  rfind_dot (before ++ 46%N :: rest) = Some (List.length before).
Proof.
  induction before as [|c t IH]; intros rest H; cbn [app rfind_dot].
  - rewrite H. reflexivity.
  - rewrite IH by exact H. reflexivity.
Qed.

Lemma firstn_prefix : forall (a b : str), firstn (List.length a) (a ++ b) = a.
Proof.
  intros a b. rewrite firstn_app, Nat.sub_diag, firstn_all.
  cbn [firstn]. apply app_nil_r.
Qed.

(** The workbook written never has the name of the workbook read. *)
Theorem output_name_differs : forall name : str, output_name name <> name.
Proof.
  intros name. unfold output_name, stem.
  assert (Hlen : name ++ txt "_cleaned.xlsx" <> name).
  { intros H. apply (f_equal (@List.length N)) in H.
    rewrite length_app in H. vm_compute (List.length (txt _)) in H. lia. }
  destruct (rfind_dot name) as [i|] eqn:E; [|exact Hlen].
  destruct (Nat.ltb 0 i && Nat.ltb i (List.length name - 1)); [|exact Hlen].
  destruct (rfind_dot_split name i E) as (before & rest & Hn & Hl & _).
  subst name i. rewrite firstn_prefix. intros H.
  apply app_inv_head in H. vm_compute in H. discriminate H.
Qed.

(** The name written is the name read with its last suffix replaced: a
    name made of a base that is not empty, a dot and a suffix that is not
    empty and holds no dot gives the base followed by _cleaned.xlsx.  So the
    workbooks read from files that differ in their suffix only are written
    to the same file. *)
Theorem output_name_replaces_suffix :
  forall base suffix : str,
    base <> [] -> suffix <> [] -> rfind_dot suffix = None ->
    output_name (base ++ txt "." ++ suffix) = base ++ txt "_cleaned.xlsx".
Proof.
  intros base suffix Hb Hs Hd. unfold output_name, stem.
  change (txt "." ++ suffix) with (46%N :: suffix).
  rewrite rfind_dot_append by exact Hd.
  rewrite length_app. cbn [List.length].
  assert (H1 : Nat.ltb 0 (List.length base) = true).
  { apply Nat.ltb_lt. destruct base; [congruence | simpl; lia]. }
  assert (H2 : Nat.ltb (List.length base)
                 (List.length base + S (List.length suffix) - 1) = true).
  { apply Nat.ltb_lt. destruct suffix; [congruence | simpl; lia]. }
  rewrite H1, H2. cbn [andb]. rewrite firstn_prefix. reflexivity.
Qed.

(** The workbooks sales.xlsx and sales.xlsm are both written to
    sales_cleaned.xlsx. *)
Lemma output_name_replaces_suffix_witness :
  output_name (txt "sales.xlsx") = txt "sales_cleaned.xlsx"
  /\ output_name (txt "sales.xlsm") = txt "sales_cleaned.xlsx".
Proof.
  split.
  - apply (output_name_replaces_suffix (txt "sales") (txt "xlsx"));
      [discriminate | discriminate | vm_compute; reflexivity].
  - apply (output_name_replaces_suffix (txt "sales") (txt "xlsm"));
      [discriminate | discriminate | vm_compute; reflexivity].
Defined.

(** ** Exact integers *)

Section ExactIntegers.
Local Open Scope Z_scope.

Lemma digits2_bounds : forall p,
  2 ^ (Zpos (digits2_pos p) - 1) <= Zpos p < 2 ^ Zpos (digits2_pos p).
Proof.
  induction p as [p IH|p IH|]; cbn [digits2_pos].
  - rewrite Pos2Z.inj_succ. change (Zpos p~1) with (2 * Zpos p + 1).
    replace (Z.succ (Zpos (digits2_pos p)) - 1)
      with (Z.succ (Zpos (digits2_pos p) - 1)) by lia.
    rewrite !Z.pow_succ_r by lia.
    set (X := 2 ^ (Zpos (digits2_pos p) - 1)) in *.
    set (Y := 2 ^ Zpos (digits2_pos p)) in *. lia.
  - rewrite Pos2Z.inj_succ. change (Zpos p~0) with (2 * Zpos p).
    replace (Z.succ (Zpos (digits2_pos p)) - 1)
      with (Z.succ (Zpos (digits2_pos p) - 1)) by lia.
    rewrite !Z.pow_succ_r by lia.
    set (X := 2 ^ (Zpos (digits2_pos p) - 1)) in *.
    set (Y := 2 ^ Zpos (digits2_pos p)) in *. lia.
  - simpl. lia.
Qed.

Lemma digits2_small : forall p,
  Zpos p < 2 ^ 53 -> Zpos (digits2_pos p) <= 53.
Proof.
  intros p H. destruct (digits2_bounds p) as [Hlow _].
  destruct (Z.le_gt_cases (Zpos (digits2_pos p)) 53) as [Hle|Hgt];
    [exact Hle|].
  assert (2 ^ 53 <= 2 ^ (Zpos (digits2_pos p) - 1))
    by (apply Z.pow_le_mono_r; lia).
  lia.
Qed.

Lemma shift_left_value : forall m j,
  0 <= j -> Zpos (shift_left m j) = Zpos m * 2 ^ j.
Proof.
  intros m [|k|k] Hj; cbn [shift_left]; [simpl; lia | | lia].
  induction k as [|k IH] using Pos.peano_ind.
  - simpl. lia.
  - rewrite Pos.iter_succ.
    change (Zpos (Pos.iter xO m k)~0) with (2 * Zpos (Pos.iter xO m k)).
    rewrite Pos2Z.inj_succ, IH, Z.pow_succ_r by lia. lia.
Qed.

Lemma shift_left_digits : forall m j,
  0 <= j ->
  Zpos (digits2_pos (shift_left m j)) = Zpos (digits2_pos m) + j.
Proof.
  intros m [|k|k] Hj; cbn [shift_left]; [lia | | lia].
  induction k as [|k IH] using Pos.peano_ind.
  - cbn [Pos.iter digits2_pos]. rewrite Pos2Z.inj_succ. lia.
  - rewrite Pos.iter_succ. cbn [digits2_pos].
    rewrite Pos2Z.inj_succ, IH, Pos2Z.inj_succ by lia. lia.
Qed.

Lemma shift_left_twice : forall m a b,
  0 <= a -> 0 <= b -> shift_left (shift_left m a) b = shift_left m (a + b).
Proof.
  intros m a b Ha Hb. apply Pos2Z.inj.
  rewrite !shift_left_value by lia. rewrite Z.pow_add_r by lia. lia.
Qed.

Lemma iter_pos_iter : forall {A : Type} (f : A -> A) n x,
  iter_pos f n x = Pos.iter f x n.
Proof.
  intros A f. induction n as [n IH|n IH|]; intros x; cbn [iter_pos Pos.iter].
  - rewrite !IH, !Pos.iter_swap. reflexivity.
  - rewrite !IH. reflexivity.
  - reflexivity.
Qed.

(** Shifting a mantissa that ends with [k] zeros by [k] places loses
    nothing. *)
Lemma shr_shifted : forall k m,
  Pos.iter shr_1 (Build_shr_record (Zpos (Pos.iter xO m k)) false false) k
  = Build_shr_record (Zpos m) false false.
Proof.
  induction k as [|k IH] using Pos.peano_ind; intros m.
  - reflexivity.
  - rewrite Pos.iter_succ_r, Pos.iter_succ. cbn [shr_1 orb]. apply IH.
Qed.

(** A mantissa of 53 bits with an exponent in range is left as it is. *)
Lemma round_aligned : forall s mz t,
  Zpos (digits2_pos mz) = 53 -> -1074 <= t <= 971 ->
  binary_round_aux prec emax s (Zpos mz) t loc_Exact = S754_finite s mz t.
Proof.
  intros s mz t Hd Ht.
  assert (Hf : fexp prec emax (Zpos (digits2_pos mz) + t) - t = 0).
  { unfold fexp, SpecFloat.emin, prec, emax. rewrite Hd. lia. }
  unfold binary_round_aux, shr_fexp.
  cbn [Zdigits2 shr_record_of_loc]. rewrite Hf.
  cbn [shr shr_m loc_of_shr_record round_nearest_even Zdigits2
       shr_record_of_loc].
  rewrite Hf. cbn [shr shr_m].
  replace (Z.leb t (emax - prec)) with true; [reflexivity|].
  symmetry. apply Z.leb_le. unfold emax, prec. lia.
Qed.

(** A mantissa of 53 bits followed by [n] zeros is shifted back. *)
Lemma round_shifted : forall s mz t n,
  Zpos (digits2_pos mz) = 53 -> -1074 <= t <= 971 -> 0 <= n ->
  binary_round_aux prec emax s (Zpos (shift_left mz n)) (t - n) loc_Exact
  = S754_finite s mz t.
Proof.
  intros s mz t [|k|k] Hd Ht Hn; [| |lia].
  - cbn [shift_left]. rewrite Z.sub_0_r. apply round_aligned; assumption.
  - assert (Hf : fexp prec emax
                   (Zpos (digits2_pos (shift_left mz (Zpos k)))
                    + (t - Zpos k)) - (t - Zpos k) = Zpos k).
    { rewrite shift_left_digits by lia.
      unfold fexp, SpecFloat.emin, prec, emax. rewrite Hd. lia. }
    assert (Hf' : fexp prec emax (Zpos (digits2_pos mz) + t) - t = 0).
    { unfold fexp, SpecFloat.emin, prec, emax. rewrite Hd. lia. }
    unfold binary_round_aux, shr_fexp.
    cbn [Zdigits2 shr_record_of_loc]. rewrite Hf.
    cbn [shr shift_left]. rewrite iter_pos_iter, shr_shifted.
    cbn [shr_m loc_of_shr_record round_nearest_even Zdigits2
         shr_record_of_loc].
    replace (t - Zpos k + Zpos k) with t by lia.
    rewrite Hf'. cbn [shr shr_m].
    replace (Z.leb t (emax - prec)) with true; [reflexivity|].
    symmetry. apply Z.leb_le. unfold emax, prec. lia.
Qed.

Lemma shl_align_shift : forall m e e',
  shl_align m e e' = if Z.ltb e' e then (shift_left m (e - e'), e') else (m, e).
Proof.
  intros m e e'. unfold shl_align.
  destruct (Z.ltb_spec e' e) as [Hlt|Hge].
  - destruct (e' - e) as [|p|p] eqn:E; try lia.
    replace (e - e') with (Zpos p) by lia. reflexivity.
  - destruct (e' - e) as [|p|p] eqn:E; try lia; reflexivity.
Qed.

(** Rounding the mantissa [m] shifted by [k] places, with the exponent
    [- k], gives the float of [m], when [m] has 53 bits at most. *)
Lemma binary_round_exact : forall s m k,
  Zpos m < 2 ^ 53 -> 0 <= k ->
  binary_round prec emax s (shift_left m k) (- k) = canonical s m.
Proof.
  intros s m k Hm Hk.
  pose proof (digits2_small m Hm) as Hd.
  assert (Hd1 : 1 <= Zpos (digits2_pos m)) by lia.
  unfold binary_round, canonical.
  assert (Hf : fexp prec emax (Zpos (digits2_pos (shift_left m k)) + - k)
               = Zpos (digits2_pos m) - 53).
  { rewrite shift_left_digits by lia.
    unfold fexp, SpecFloat.emin, prec, emax. lia. }
  rewrite Hf, shl_align_shift.
  destruct (Z.ltb_spec (Zpos (digits2_pos m) - 53) (- k)) as [Hlt|Hge].
  - rewrite shift_left_twice by lia.
    replace (k + (- k - (Zpos (digits2_pos m) - 53)))
      with (53 - Zpos (digits2_pos m)) by lia.
    apply round_aligned; [|lia].
    rewrite shift_left_digits by lia. lia.
  - replace (shift_left m k)
      with (shift_left (shift_left m (53 - Zpos (digits2_pos m)))
              (k - (53 - Zpos (digits2_pos m))))
      by (rewrite shift_left_twice by lia; f_equal; lia).
    replace (- k)
      with (Zpos (digits2_pos m) - 53 - (k - (53 - Zpos (digits2_pos m))))
      by lia.
    apply round_shifted; [|lia|lia].
    rewrite shift_left_digits by lia. lia.
Qed.

Lemma normalize_int : forall n,
  exact_int n -> binary_normalize prec emax n 0 false = canonical_int n.
Proof.
  intros [|m|m] Hn; unfold exact_int in Hn;
    cbn [binary_normalize canonical_int].
  - reflexivity.
  - apply (binary_round_exact false m 0); lia.
  - apply (binary_round_exact true m 0); lia.
Qed.

(** The float of [n * 2^k] with the exponent [- k] is the float of [n]. *)
Lemma normalize_scaled : forall n k,
  exact_int n -> 0 <= k ->
  binary_normalize prec emax (n * 2 ^ k) (- k) false = canonical_int n.
Proof.
  intros [|m|m] k Hn Hk; unfold exact_int in Hn; cbn [canonical_int].
  - reflexivity.
  - rewrite <- shift_left_value by exact Hk. cbn [binary_normalize].
    apply binary_round_exact; lia.
  - replace (Zneg m * 2 ^ k) with (Zneg (shift_left m k)).
    + cbn [binary_normalize]. apply binary_round_exact; lia.
    + rewrite <- !Pos2Z.opp_pos, shift_left_value by exact Hk. lia.
Qed.

Lemma canonical_value : forall s m,
  Zpos m < 2 ^ 53 ->
  exists mz t,
    canonical s m = S754_finite s mz t
    /\ Zpos (digits2_pos mz) = 53
    /\ - 52 <= t <= 0
    /\ Zpos mz = Zpos m * 2 ^ (- t).
Proof.
  intros s m Hm. pose proof (digits2_small m Hm) as Hd.
  exists (shift_left m (53 - Zpos (digits2_pos m))),
         (Zpos (digits2_pos m) - 53).
  split; [reflexivity|].
  rewrite shift_left_digits, shift_left_value by lia.
  split; [lia|]. split; [lia|]. f_equal. f_equal. lia.
Qed.

Lemma canonical_int_valid : forall n,
  exact_int n -> SpecFloat.valid_binary prec emax (canonical_int n) = true.
Proof.
  intros [|m|m] Hn; unfold exact_int in Hn; cbn [canonical_int];
    [reflexivity| |].
  - destruct (canonical_value false m) as (mz & t & -> & Hd & Ht & _); [lia|].
    cbn [SpecFloat.valid_binary]. unfold bounded, canonical_mantissa.
    rewrite Hd.
    apply andb_true_iff. split.
    + apply Z.eqb_eq. unfold fexp, SpecFloat.emin, prec, emax. lia.
    + apply Z.leb_le. unfold prec, emax. lia.
  - destruct (canonical_value true m) as (mz & t & -> & Hd & Ht & _); [lia|].
    cbn [SpecFloat.valid_binary]. unfold bounded, canonical_mantissa.
    rewrite Hd.
    apply andb_true_iff. split.
    + apply Z.eqb_eq. unfold fexp, SpecFloat.emin, prec, emax. lia.
    + apply Z.leb_le. unfold prec, emax. lia.
Qed.

(** The mantissa of the float of a non-zero integer, brought to an exponent
    [e] that is not above its own, has the value of the integer scaled. *)
Lemma canonical_aligned : forall s m mz t e,
  canonical s m = S754_finite s mz t ->
  Zpos m < 2 ^ 53 -> e <= t ->
  cond_Zopp s (Zpos (fst (shl_align mz t e)))
  = cond_Zopp s (Zpos m) * 2 ^ (- e).
Proof.
  intros s m mz t e Hc Hm He.
  destruct (canonical_value s m Hm) as (mz' & t' & Hc' & _ & Ht & Hv).
  rewrite Hc in Hc'. injection Hc' as <- <-.
  assert (Hz : Zpos (fst (shl_align mz t e)) = Zpos m * 2 ^ (- e)).
  { rewrite shl_align_shift.
    destruct (Z.ltb_spec e t) as [Hlt|Hge]; cbn [fst].
    - rewrite shift_left_value, Hv by lia.
      rewrite <- Z.mul_assoc, <- Z.pow_add_r by lia. f_equal. f_equal. lia.
    - rewrite Hv. f_equal. f_equal. lia. }
  rewrite Hz. destruct s; cbn [cond_Zopp]; lia.
Qed.

Lemma canonical_int_signed : forall n,
  n <> 0 ->
  exists s m,
    canonical_int n = canonical s m /\ n = cond_Zopp s (Zpos m).
Proof.
  intros [|m|m] Hn; [congruence | exists false, m | exists true, m];
    split; reflexivity.
Qed.

(** Adding the floats of two integers gives the float of their sum, when
    the integers and their sum are below 2^53 in absolute value. *)
Lemma SFadd_int : forall a b,
  exact_int a -> exact_int b -> exact_int (a + b) ->
  SFadd prec emax (canonical_int a) (canonical_int b) = canonical_int (a + b).
Proof.
  intros a b Ha Hb Hab.
  destruct (Z.eq_dec a 0) as [->|Hna].
  { cbn [canonical_int Z.add].
    destruct b as [|m|m]; cbn [canonical_int]; reflexivity. }
  destruct (Z.eq_dec b 0) as [->|Hnb].
  { rewrite Z.add_0_r. destruct a as [|m|m]; cbn [canonical_int];
      [congruence | reflexivity | reflexivity]. }
  destruct (canonical_int_signed a Hna) as (sa & ma & Ea & Hva).
  destruct (canonical_int_signed b Hnb) as (sb & mb & Eb & Hvb).
  assert (Hma : Zpos ma < 2 ^ 53)
    by (unfold exact_int in Ha; destruct sa; cbn [cond_Zopp] in Hva; lia).
  assert (Hmb : Zpos mb < 2 ^ 53)
    by (unfold exact_int in Hb; destruct sb; cbn [cond_Zopp] in Hvb; lia).
  destruct (canonical_value sa ma Hma) as (mza & ta & Eca & _ & Hta & _).
  destruct (canonical_value sb mb Hmb) as (mzb & tb & Ecb & _ & Htb & _).
  rewrite Ea, Eb, Eca, Ecb. cbn [SFadd].
  rewrite (canonical_aligned sa ma mza ta (Z.min ta tb) Eca Hma) by lia.
  rewrite (canonical_aligned sb mb mzb tb (Z.min ta tb) Ecb Hmb) by lia.
  rewrite <- Hva, <- Hvb, <- Z.mul_add_distr_r.
  replace (Z.min ta tb) with (- - Z.min ta tb) at 2 by lia.
  apply normalize_scaled; [exact Hab | lia].
Qed.

Lemma Prim2SF_int_float : forall n,
  exact_int n -> Prim2SF (int_float n) = canonical_int n.
Proof.
  intros n Hn. unfold int_float. rewrite normalize_int by exact Hn.
  apply Prim2SF_SF2Prim, canonical_int_valid, Hn.
Qed.

Lemma int_float_add : forall a b,
  exact_int a -> exact_int b -> exact_int (a + b) ->
  PrimFloat.add (int_float a) (int_float b) = int_float (a + b).
Proof.
  intros a b Ha Hb Hab. apply Prim2SF_inj.
  rewrite add_spec, !Prim2SF_int_float by assumption.
  apply SFadd_int; assumption.
Qed.

Lemma int_float_sum : forall ns start,
  exact_int start -> Forall exact_int ns ->
  Forall exact_int (running_sums start ns) ->
  fold_left PrimFloat.add (map int_float ns) (int_float start)
  = int_float (fold_left Z.add ns start).
Proof.
  induction ns as [|n ns IH]; intros start Hs Hns Hsums;
    cbn [map fold_left running_sums] in *; [reflexivity|].
  inversion Hns as [|? ? Hn Hns']; subst.
  inversion Hsums as [|? ? Hsum Hsums']; subst.
  rewrite int_float_add by assumption.
  apply IH; assumption.
Qed.

Lemma of_int_exact : forall n,
  exact_int n -> Flt.of_int n = Some (int_float n).
Proof.
  intros n Hn. unfold Flt.of_int, Flt.is_inf.
  change (SF2Prim (binary_normalize prec emax n 0 false)) with (int_float n).
  rewrite Prim2SF_int_float by exact Hn.
  destruct n as [|m|m]; reflexivity.
Qed.

Lemma format_int_float : forall n,
  exact_int n -> format_number (VFloat (int_float n)) = VInt n.
Proof.
  intros n Hn. unfold format_number, Flt.is_integer, Flt.to_int.
  rewrite Prim2SF_int_float by exact Hn.
  destruct n as [|m|m]; unfold exact_int in Hn; cbn [canonical_int];
    [reflexivity| |].
  - destruct (canonical_value false m) as (mz & t & -> & _ & Ht & Hv); [lia|].
    assert (Hp : 0 < 2 ^ (- t)) by (apply Z.pow_pos_nonneg; lia).
    rewrite Hv, Z.mod_mul, Z.eqb_refl, orb_true_r by lia.
    destruct (Z.leb_spec 0 t) as [H0|H0].
    + replace t with 0 by lia. f_equal. simpl. lia.
    + rewrite Z.div_mul by lia. reflexivity.
  - destruct (canonical_value true m) as (mz & t & -> & _ & Ht & Hv); [lia|].
    assert (Hp : 0 < 2 ^ (- t)) by (apply Z.pow_pos_nonneg; lia).
    rewrite Hv, Z.mod_mul, Z.eqb_refl, orb_true_r by lia.
    destruct (Z.leb_spec 0 t) as [H0|H0].
    + replace t with 0 by lia. f_equal. simpl. lia.
    + rewrite Z.div_mul by lia. reflexivity.
Qed.

Lemma digit_not_blank : forall c,
  Asc.is_digit c = true ->
  Flt.is_c_space c = false
  /\ Ascii.eqb c "-" = false /\ Ascii.eqb c "+" = false
  /\ Asc.lower_char c = c
  /\ Ascii.eqb c "i" = false /\ Ascii.eqb c "n" = false.
Proof.
  intros [[] [] [] [] [] [] [] []] H; try discriminate H; repeat split.
Qed.

Lemma digits_rstrip : forall s,
  Asc.forallb Asc.is_digit s = true -> Asc.rstrip Flt.is_c_space s = s.
Proof.
  induction s as [|c t IH]; cbn [Asc.forallb Asc.rstrip]; intros H;
    [reflexivity|].
  apply andb_true_iff in H. destruct H as [Hc Ht].
  destruct (digit_not_blank c Hc) as [Hs _].
  rewrite Hs, IH by exact Ht. reflexivity.
Qed.

Lemma digits_more : forall s,
  Asc.forallb Asc.is_digit s = true -> Flt.more_digits s = (s, EmptyString).
Proof.
  induction s as [|c t IH]; cbn [Asc.forallb Flt.more_digits]; intros H;
    [reflexivity|].
  apply andb_true_iff in H. destruct H as [Hc Ht].
  rewrite Hc, IH by exact Ht. reflexivity.
Qed.

Lemma digits_val_nonneg : forall s acc,
  Asc.forallb Asc.is_digit s = true -> 0 <= acc -> 0 <= Asc.digits_val acc s.
Proof.
  induction s as [|c t IH]; cbn [Asc.forallb Asc.digits_val]; intros acc H Ha;
    [exact Ha|].
  apply andb_true_iff in H. destruct H as [Hc Ht].
  apply IH; [exact Ht|].
  assert (0 <= Asc.digit_val c).
  { unfold Asc.digit_val. unfold Asc.is_digit, Asc.in_range in Hc.
    apply andb_true_iff in Hc. destruct Hc as [Hc _].
    apply N.leb_le in Hc. lia. }
  lia.
Qed.

Lemma append_empty : forall s : string, (s ++ EmptyString)%string = s.
Proof.
  induction s as [|c t IH]; simpl; [reflexivity|]. rewrite IH. reflexivity.
Qed.

(** [float] of an ASCII text made of digits is the float of the integer the
    digits stand for. *)
Lemma of_ascii_digits : forall s,
  s <> EmptyString -> Asc.forallb Asc.is_digit s = true ->
  Flt.of_ascii s
  = Some (SF2Prim (binary_normalize prec emax (Asc.int_of_digits s) 0 false)).
Proof.
  intros s Hne Hd.
  pose proof (digits_val_nonneg s 0 Hd (Z.le_refl 0)) as Hpos.
  fold (Asc.int_of_digits s) in Hpos.
  destruct s as [|c t]; [congruence|].
  pose proof Hd as Hd'. cbn [Asc.forallb] in Hd'.
  apply andb_true_iff in Hd'. destruct Hd' as [Hc Ht].
  destruct (digit_not_blank c Hc) as (Hs & Hm & Hp & Hl & Hi & Hn).
  unfold Flt.of_ascii.
  assert (Hstrip : Asc.rstrip Flt.is_c_space
                     (Asc.lstrip Flt.is_c_space (String c t)) = String c t).
  { cbn [Asc.lstrip]. rewrite Hs. apply digits_rstrip. exact Hd. }
  rewrite Hstrip. cbn [Flt.take_sign]. rewrite Hm, Hp.
  cbn [Asc.lower String.eqb]. rewrite Hl, Hi, Hn. cbn [orb].
  unfold Flt.number. cbn [Flt.digitpart]. rewrite Hc, digits_more by exact Ht.
  cbn [Asc.is_empty andb Flt.exponent String.length Z.of_nat].
  rewrite append_empty. unfold Flt.of_decimal.
  destruct (Asc.int_of_digits (String c t)) as [|p|p] eqn:E;
    [reflexivity| |lia].
  change (0 - 0) with 0. cbn [Z.leb Z.compare].
  rewrite Z.pow_0_r, Z.mul_1_r, Z.mul_1_l. reflexivity.
Qed.

(** A decimal digit of any script is brought to the ASCII digit of its
    value. *)
Lemma decimal_value_small : forall c, (Uni.decimal_value c < 10)%N.
Proof.
  intros c. unfold Uni.decimal_value.
  destruct (find _ Uni.decimal_ranges) as [[first last]|]; [|lia].
  apply N.mod_lt. discriminate.
Qed.

Lemma decimal_to_ascii : forall c,
  Str.is_digit c = true ->
  Asc.is_digit (Flt.to_ascii c) = true
  /\ Asc.digit_val (Flt.to_ascii c) = Str.digit_val c.
Proof.
  intros c Hc.
  pose proof (in_ranges_points _ _ Hc) as Hp.
  pose proof (proj1 (forallb_forall _ _) decimal_points_facts c Hp) as Hf.
  cbv beta in Hf. apply andb_true_iff in Hf. destruct Hf as [Hf Hlow].
  apply andb_true_iff in Hf. destruct Hf as [_ Hsp].
  apply negb_true_iff in Hsp.
  unfold Flt.to_ascii, Str.digit_val.
  destruct (N.ltb_spec c 127) as [H127|H127].
  - assert (H128 : N.ltb c 128 = true) by (apply N.ltb_lt; lia).
    rewrite H128 in Hlow. apply andb_true_iff in Hlow.
    destruct Hlow as [H48 H57]. apply N.leb_le in H48, H57.
    assert (Hcases : In c [48; 49; 50; 51; 52; 53; 54; 55; 56; 57]%N).
    { cbn [In]. lia. }
    cbn [In] in Hcases.
    repeat (destruct Hcases as [<-|Hcases]; [split; vm_compute; reflexivity|]).
    destruct Hcases.
  - change (Str.is_space c) with (Uni.is_space c) in Hsp.
    change (Str.is_digit c) with (Uni.is_decimal c) in Hc.
    rewrite Hsp, Hc.
    pose proof (decimal_value_small c) as Hv.
    assert (Hcode : Asc.code (ascii_of_N (48 + Uni.decimal_value c))
                    = (48 + Uni.decimal_value c)%N).
    { unfold Asc.code. apply N_ascii_embedding. lia. }
    unfold Asc.is_digit, Asc.in_range, Asc.digit_val. rewrite Hcode. split.
    + apply andb_true_iff. split; apply N.leb_le; lia.
    + lia.
Qed.

Lemma transform_digits : forall s,
  forallb Str.is_digit s = true ->
  Flt.transform s = string_of_list_ascii (map Flt.to_ascii s).
Proof.
  intros s H. unfold Flt.transform.
  destruct (forallb (fun c => N.ltb c 128) s) eqn:E; [|reflexivity].
  f_equal. apply map_ext_in. intros c Hc.
  pose proof (proj1 (forallb_forall _ _) H c Hc) as Hd.
  pose proof (in_ranges_points _ _ Hd) as Hp.
  pose proof (proj1 (forallb_forall _ _) decimal_points_facts c Hp) as Hf.
  cbv beta in Hf. apply andb_true_iff in Hf. destruct Hf as [_ Hlow].
  pose proof (proj1 (forallb_forall _ _) E c Hc) as H128.
  cbv beta in H128. rewrite H128 in Hlow.
  apply andb_true_iff in Hlow. destruct Hlow as [_ H57].
  apply N.leb_le in H57. unfold Flt.to_ascii.
  destruct (N.ltb_spec c 127); [reflexivity | lia].
Qed.

Lemma ascii_digits : forall s acc,
  forallb Str.is_digit s = true ->
  Asc.forallb Asc.is_digit (string_of_list_ascii (map Flt.to_ascii s)) = true
  /\ Asc.digits_val acc (string_of_list_ascii (map Flt.to_ascii s))
     = Str.digits_val acc s.
Proof.
  induction s as [|c t IH]; intros acc H; [split; reflexivity|].
  cbn [forallb] in H. apply andb_true_iff in H. destruct H as [Hc Ht].
  destruct (decimal_to_ascii c Hc) as [H1 H2].
  cbn [map string_of_list_ascii Asc.forallb Asc.digits_val Str.digits_val].
  rewrite H1, H2.
  destruct (IH (10 * acc + Str.digit_val c) Ht) as [H3 H4].
  rewrite H3, H4. split; reflexivity.
Qed.

(** [float] of a text made of decimal digits, of whatever script, is the
    float of the integer the digits stand for. *)
Lemma of_string_digits : forall s,
  s <> [] -> forallb Str.is_digit s = true ->
  Flt.of_string s
  = Some (SF2Prim (binary_normalize prec emax (Str.int_of_digits s) 0 false)).
Proof.
  intros s Hne Hd. unfold Flt.of_string.
  rewrite transform_digits by exact Hd.
  destruct (ascii_digits s 0 Hd) as [H1 H2].
  rewrite of_ascii_digits.
  - unfold Asc.int_of_digits, Str.int_of_digits. rewrite H2. reflexivity.
  - destruct s; [congruence | discriminate].
  - exact H1.
Qed.

Lemma numeric_integer_cell : forall v n,
  integer_cell v = Some n -> exact_int n -> numeric v = Some (int_float n).
Proof.
  intros v n Hv Hn. destruct v as [|b|m|f|s|text]; try discriminate Hv.
  - injection Hv as ->. unfold numeric, parse_quantity, py_float.
    rewrite of_int_exact by exact Hn. reflexivity.
  - cbn [integer_cell] in Hv.
    destruct (negb (Str.is_empty s) && forallb Str.is_digit s) eqn:E;
      [|discriminate Hv].
    injection Hv as <-. apply andb_true_iff in E. destruct E as [E1 E2].
    unfold numeric, parse_quantity, py_float.
    rewrite of_string_digits; [reflexivity | | exact E2].
    destruct s; [discriminate E1 | discriminate].
Qed.

Lemma running_sums_last : forall ns start,
  exact_int start -> Forall exact_int (running_sums start ns) ->
  exact_int (fold_left Z.add ns start).
Proof.
  induction ns as [|n ns IH]; intros start Hs H;
    cbn [fold_left running_sums] in *; [exact Hs|].
  inversion H; subst. apply IH; assumption.
Qed.

(** The numbers of the records of a product whose quantity cells hold
    integers. *)
Lemma numeric_of_int_cells : forall key evs ns,
  Forall exact_int ns ->
  map integer_cell (quantity_cells key evs) = map Some ns ->
  numeric_quantities key evs = map int_float ns.
Proof.
  intros key. induction evs as [|[[oid name] qty_raw] evs IH]; intros ns Hns H;
    cbn [quantity_cells numeric_quantities flat_map] in *.
  - destruct ns; [reflexivity | discriminate H].
  - fold (quantity_cells key evs) in H. fold (numeric_quantities key evs).
    destruct (Str.eqb (event_key (oid, name, qty_raw)) key);
      cbn [andb app] in *; [|apply IH; assumption].
    destruct (is_none qty_raw) eqn:En; cbn [negb app map] in H.
    + destruct qty_raw; try discriminate En.
      cbn [event_number]. apply IH; assumption.
    + destruct ns as [|n ns]; [discriminate H|].
      cbn [map] in H. injection H as Hq H.
      inversion Hns; subst.
      cbn [event_number]. rewrite (numeric_integer_cell _ n) by assumption.
      cbn [app map]. f_equal. apply IH; assumption.
Qed.

(** The total of a key after the extraction, from the numbers of its
    records. *)
Lemma total_after : forall evs key,
  total_for_product_key (fold_left record_event evs empty_aggregator) key
  = match numeric_quantities key evs with
    | [] => VNone
    | qs => format_number (VFloat (fold_left PrimFloat.add qs 0%float))
    end.
Proof.
  intros evs key. unfold total_for_product_key.
  rewrite numeric_after, totals_after.
  cbn [empty_aggregator product_has_numeric product_totals sget Dict.get].
  destruct (numeric_quantities key evs) as [|q qs] eqn:E; [reflexivity|].
  rewrite numeric_quantities_key_seen by (rewrite E; discriminate).
  reflexivity.
Qed.

End ExactIntegers.

(** Integer quantities are kept as they are: a quantity cell that holds an
    integer below 2^53 in absolute value, as an [int] or as a text made of
    digits, is read as the float of this integer and is shown as this
    integer. *)
Theorem integer_quantity_kept :
  forall (v : value) (n : Z),
    integer_cell v = Some n ->
    exact_int n ->
    parse_quantity v = Ok (Some (int_float n))
    /\ display_of v = VInt n.
Proof.
  intros v n Hv Hn.
  pose proof (numeric_integer_cell v n Hv Hn) as H. split.
  - unfold numeric in H. destruct (parse_quantity v) as [q|e].
    + rewrite H. reflexivity.
    + discriminate H.
  - unfold display_of. rewrite H. apply format_int_float, Hn.
Qed.

Lemma integer_quantity_kept_witness :
  parse_quantity (VStr (txt "012")) = Ok (Some (int_float 12))
  /\ display_of (VStr (txt "012")) = VInt 12.
Proof.
  apply (integer_quantity_kept (VStr (txt "012")) 12).
  - vm_compute. reflexivity.
  - unfold exact_int. simpl. lia.
Defined.

(** Above the bound an integer can change: 2^53 + 1 is shown as 2^53. *)
Example integer_quantity_rounded :
  display_of (VInt 9007199254740993) = VInt 9007199254740992.
Proof. vm_compute. reflexivity. Qed.

(** Totals of integer quantities are exact.  When the quantity cells of the
    records of a product that are not empty all hold integers, and these
    integers and the sums of the first one, two, ... of them are below 2^53
    in absolute value, the total shown for the product is the sum of the
    integers, as an integer. *)
Theorem integer_totals_exact :
  forall (cols : columns) (rows : list (list value)) (st : aggregator)
         (key : str) (ns : list Z),
    extract_rows cols rows = Ok st ->
    map integer_cell (quantity_cells key (events cols rows)) = map Some ns ->
    ns <> [] ->
    Forall exact_int ns ->
    Forall exact_int (running_sums 0 ns) ->
    total_for_product_key st key = VInt (sum_of ns).
Proof.
  intros cols rows st key ns H Hcells Hne Hns Hsums.
  apply extract_rows_events in H. subst st. rewrite total_after.
  rewrite (numeric_of_int_cells key _ ns Hns Hcells).
  assert (H0 : exact_int 0) by (unfold exact_int; simpl; lia).
  destruct (map int_float ns) as [|q qs] eqn:E;
    [destruct ns; [congruence | discriminate E]|].
  rewrite <- E. change 0%float with (int_float 0).
  rewrite int_float_sum by assumption.
  apply format_int_float. apply running_sums_last; assumption.
Qed.

(** Scenario A: Widget sold 3 and 2. *)
Lemma integer_totals_exact_witness :
  total_for_product_key scenario_state (txt "widget") = VInt (sum_of [3; 2]%Z).
Proof.
  apply (integer_totals_exact scenario_columns scenario_rows scenario_state
           (txt "widget") [3; 2]%Z).
  - vm_compute. reflexivity.
  - vm_compute. reflexivity.
  - discriminate.
  - repeat constructor; unfold exact_int; simpl; lia.
  - repeat constructor; unfold exact_int; simpl; lia.
Defined.

(** ** The rows of the sheet Cleaned *)

Lemma render_run_cells : forall st r,
  map (firstn 3) (render_run st r) = map record_cells r.
Proof.
  intros st [|it rest]; cbn [render_run map]; [reflexivity|].
  rewrite map_map. reflexivity.
Qed.

Lemma rendered_cells : forall st rs,
  map (firstn 3) (flat_map (render_run st) rs)
  = map record_cells (List.concat rs).
Proof.
  intros st. induction rs as [|r rs IH]; cbn [flat_map List.concat];
    [reflexivity|].
  rewrite !map_app, IH, render_run_cells. reflexivity.
Qed.

Lemma items_from_cells : forall evs index,
  map record_cells (items_from index evs) = map event_cells evs.
Proof.
  induction evs as [|[[oid name] qty_raw] evs IH]; intros index;
    cbn [items_from map]; [reflexivity|].
  rewrite IH. reflexivity.
Qed.

(** No record is lost and none is made up.  When the transformation
    completes, the sheet Cleaned holds the title row and below it one row
    for every group of the sheet read that is not skipped: the first three
    cells of these rows are, in some order, the order id, the product name
    as it stands in its cell and the quantity shown, group by group. *)
Theorem cleaned_rows_are_the_records :
  forall (sheet : worksheet) (wb : workbook),
    clean_excel (Some sheet) = Ok wb ->
    exists cols : columns,
      resolve_headers (header_cells sheet) = Ok cols
      /\ hd [] (cleaned wb) = header_titles
      /\ Permutation
           (map (firstn 3) (tl (cleaned wb)))
           (map event_cells (events cols (data_rows sheet))).
Proof.
  intros sheet wb H. unfold clean_excel, aggregate in H.
  destruct (resolve_headers (header_cells sheet)) as [cols|e] eqn:Eh;
    cbn [bind] in H; [|discriminate].
  destruct (extract_rows cols (data_rows sheet)) as [st|e] eqn:Ex;
    cbn [bind] in H; [|discriminate].
  injection H as <-. exists cols. split; [reflexivity|].
  unfold build_workbook. cbn [cleaned]. rewrite write_rows_sheet.
  cbn [hd tl]. split; [reflexivity|].
  rewrite rendered_cells, runs_concat.
  apply extract_rows_events in Ex.
  assert (Hrecs : extracted_rows st
                  = items_from 0 (events cols (data_rows sheet))).
  { subst st. rewrite rows_after. reflexivity. }
  rewrite <- (items_from_cells _ 0), <- Hrecs.
  apply Permutation_map. unfold sort_rows. apply sort_by_perm.
Qed.

(** Scenario A: three groups, three rows. *)
Lemma cleaned_rows_are_the_records_witness :
  exists cols : columns,
    resolve_headers (header_cells scenario_sheet) = Ok cols
    /\ hd [] (cleaned (build_workbook scenario_state)) = header_titles
    /\ Permutation
         (map (firstn 3) (tl (cleaned (build_workbook scenario_state))))
         (map event_cells (events cols (data_rows scenario_sheet))).
Proof.
  apply (cleaned_rows_are_the_records scenario_sheet
           (build_workbook scenario_state)).
  reflexivity.
Defined.

(** ** Texts of other scripts and other values *)

(** A header with a no-break space, U+00A0, between its words is an order
    id header, and a digit of another script names a group. *)
Example headers_of_other_scripts :
  normalize_header (VStr (txt "Order" ++ [160%N] ++ txt "ID"))
  = Ok (txt "order_id")
  /\ resolve_headers [VStr (txt "Order" ++ [160%N] ++ txt "ID");
                      VStr (txt "Product Name" ++ [65298%N])]
     = Ok (mk_columns [(2%Z, 1)] [] (Some 0)).
Proof. split; vm_compute; reflexivity. Qed.

(** The names CAFE with an acute accent on the E, in upper and in lower
    case, have one product key; a capital sigma at the end of a word becomes
    the final sigma. *)
Example product_keys_of_other_scripts :
  normalize_product_name (VStr (txt "CAF" ++ [201%N]))
  = txt "caf" ++ [233%N]
  /\ normalize_product_name (VStr (txt "caf" ++ [233%N]))
     = txt "caf" ++ [233%N]
  /\ normalize_product_name (VStr [927; 916; 927; 931]%N)
     = [959; 948; 959; 962]%N
  /\ normalize_product_name (VStr (txt "a" ++ [12288%N] ++ txt "b"))
     = txt "a b".
Proof. repeat split; vm_compute; reflexivity. Qed.

(** A quantity written with the Arabic-Indic digits 1 and 2 is the number
    12; the text of the separator U+001C and a digit is no number. *)
Example quantities_of_other_scripts :
  display_of (VStr [1633; 1634]%N) = VInt 12
  /\ display_of (VStr (txt " 1_0.5e1 ")) = VInt 105
  /\ numeric (VStr [28; 49]%N) = None.
Proof. repeat split; vm_compute; reflexivity. Qed.

(** The text of a float is the shortest that reads back as the float. *)
Example texts_of_floats :
  py_str (VFloat (SF2Prim (S754_finite false 4503599627370496 (-76))))
  = txt "5.960464477539063e-08"
  /\ py_str (VFloat 0x1.999999999999ap-4) = txt "0.1"
  /\ py_str (VFloat 1e22) = txt "1e+22"
  /\ py_str (VFloat 100) = txt "100.0".
Proof. repeat split; vm_compute; reflexivity. Qed.

(** A header cell that holds a duration of zero is false as a condition:
    the loop takes the empty text for it, as for an empty cell. *)
Example header_of_a_zero_duration :
  scan_headers [VStr (txt "id"); VOther (txt "0:00:00") false;
                VStr (txt "Quantity")]
  = Ok (mk_columns [] [(1%Z, 2)] (Some 0))
  /\ scan_headers [VStr (txt "id"); VOther (txt "1:00:00") true]
     = Raise (AttributeError "object has no attribute 'strip'").
Proof. split; vm_compute; reflexivity. Qed.
